(** * SOLOMA moderation pipeline: shallow embedding and verified properties

    The development follows the Python sources of the repository:

    - [second_try_SOLOMA/agents/agent_spam_detector.py]  (module [Spam])
    - [second_try_SOLOMA/agents/agent_moderator.py]      (module [Moderator])
    - [test/analyzers/heuristic.py]                      (module [Heuristic])
    - [test/services/context_tracker.py]                 (module [Tracker])
    - [test/analyzers/multi_level.py]                    (module [MultiLevel])
    - [test/handlers/message.py]                         (module [Handlers])
    - [second_try_SOLOMA/storage/storage.py]             (module [Storage])
    - [second_try_SOLOMA/agents/agent_corrector.py]      (module [Corrector])
    - [second_try_SOLOMA/agents/corrector_adapter.py]    (module [CorrectorAdapter])
    - [second_try_SOLOMA/agents/agent_spellchecker.py]   (module [Spellchecker])
    - [second_try_SOLOMA/agents/agent_alternatives.py]   (module [LRU], the cache)
    - [second_try_SOLOMA/main.py]                        (module [Bot])

    Python strings are sequences of Unicode code points: a [str] is a
    [list N].  The word lists of the sources are written as UTF-8 literals
    and decoded by [U].  Python's standard library ([str] methods, [re],
    [difflib.SequenceMatcher]) is modelled in the modules [Py], [Re] and
    [Difflib].

    The scores of the heuristic analyzer are IEEE 754 binary64 numbers
    ([F64], on the specification of the floating-point operations); the
    similarity ratios of [difflib] are kept as exact rationals.  Code that
    calls a language model is a program of [Eff]: a tree of requests whose
    continuations receive the replies, run against an arbitrary service.
    The handlers, which also call Telegram, the clock and the files, are
    programs of [Act] over the events of their module.
    Sets of Python are listed in their (unspecified) iteration order,
    dictionaries in insertion order.

    The definitions come first; the facts about them follow, and the
    properties of the specification and further properties of the code
    close the file. *)

From Stdlib Require Import List NArith ZArith QArith Lia Bool String Ascii.
From Stdlib Require Import DecimalString DecimalZ DecimalPos.
From Stdlib Require Import Sorting.Sorted.
From Corelib Require Import SpecFloat.
From stdpp Require Import base gmap.
Import ListNotations.

#[local] Open Scope nat_scope.
#[local] Set Default Proof Using "Type".

(* ===================================================================== *)
(** * Python strings *)
(* ===================================================================== *)

Module Py.

Definition char := N.
Definition str := list N.

(** ** UTF-8 literals *)

Definition byte_of (a : ascii) : N := N_of_ascii a.

Fixpoint bytes_of (s : string) : list N :=
  match s with
  | EmptyString => []
  | String a s' => byte_of a :: bytes_of s'
  end.

Definition cont (b : N) : N := N.land b 63.

(** Decoder with a fuel equal to the number of bytes. *)
Fixpoint utf8_decode (fuel : nat) (bs : list N) : list N :=
  match fuel with
  | 0 => []
  | S fuel' =>
    match bs with
    | [] => []
    | b0 :: r0 =>
      if (b0 <? 128)%N then b0 :: utf8_decode fuel' r0
      else if (b0 <? 224)%N then
        match r0 with
        | b1 :: r1 => (N.land b0 31 * 64 + cont b1)%N :: utf8_decode fuel' r1
        | _ => []
        end
      else if (b0 <? 240)%N then
        match r0 with
        | b1 :: b2 :: r2 =>
          (N.land b0 15 * 4096 + cont b1 * 64 + cont b2)%N :: utf8_decode fuel' r2
        | _ => []
        end
      else
        match r0 with
        | b1 :: b2 :: b3 :: r3 =>
          (N.land b0 7 * 262144 + cont b1 * 4096 + cont b2 * 64 + cont b3)%N
            :: utf8_decode fuel' r3
        | _ => []
        end
    end
  end.

Definition U (s : string) : str :=
  let bs := bytes_of s in utf8_decode (List.length bs) bs.

(** ** Character classes

    The alphabet of the model is ASCII together with the Cyrillic blocks;
    on every other code point [lower] is the identity and [is_word] is
    false. *)

Definition in_range (lo hi c : N) : bool := (lo <=? c)%N && (c <=? hi)%N.

(** [str.isspace] / the [\s] class of [re] on [str] patterns. *)
Definition is_space (c : char) : bool :=
  in_range 9 13 c || in_range 28 32 c || (c =? 133)%N || (c =? 160)%N
  || (c =? 5760)%N || in_range 8192 8202 c || (c =? 8232)%N || (c =? 8233)%N
  || (c =? 8239)%N || (c =? 8287)%N || (c =? 12288)%N.

Definition is_ascii_upper (c : char) : bool := in_range 65 90 c.
Definition is_ascii_lower (c : char) : bool := in_range 97 122 c.
Definition is_digit (c : char) : bool := in_range 48 57 c.

(** [А-Я] is U+0410..U+042F, [а-я] is U+0430..U+044F, [Ё] is U+0401 and
    [ё] is U+0451. *)
Definition is_cyr_upper (c : char) : bool := in_range 1040 1071 c.
Definition is_cyr_lower (c : char) : bool := in_range 1072 1103 c.
Definition YO : char := 1025%N.
Definition yo : char := 1105%N.
Definition ye : char := 1077%N.

(** The [\w] class of [re] (alphanumerics and the underscore). *)
Definition is_word (c : char) : bool :=
  is_ascii_upper c || is_ascii_lower c || is_digit c || (c =? 95)%N
  || in_range 1024 1153 c || in_range 1162 1327 c || in_range 7296 7304 c.

(** [str.lower] on one code point. *)
Definition lower_char (c : char) : char :=
  if is_ascii_upper c then (c + 32)%N
  else if is_cyr_upper c then (c + 32)%N
  else if in_range 1024 1039 c then (c + 80)%N
  else c.

Definition lower (s : str) : str := map lower_char s.

(** ** String operations *)

Definition eqb_char (a b : char) : bool := (a =? b)%N.

Fixpoint eqb_str (a b : str) : bool :=
  match a, b with
  | [], [] => true
  | x :: a', y :: b' => eqb_char x y && eqb_str a' b'
  | _, _ => false
  end.

(** [x in l] for a list or set of strings. *)
Definition mem_str (x : str) (l : list str) : bool := existsb (eqb_str x) l.

(** [s.startswith(p)] *)
Fixpoint starts_with (p s : str) : bool :=
  match p, s with
  | [], _ => true
  | x :: p', y :: s' => eqb_char x y && starts_with p' s'
  | _ :: _, [] => false
  end.

(** [p in s] for strings: substring test. *)
Fixpoint contains (p s : str) : bool :=
  starts_with p s ||
  match s with
  | [] => false
  | _ :: s' => contains p s'
  end.

(** [s.replace(old, new)] for a one-character [old]. *)
Definition replace_char (old new : char) (s : str) : str :=
  map (fun c => if eqb_char c old then new else c) s.

(** [s.replace('  ', ' ')]: non-overlapping occurrences, left to right. *)
Fixpoint replace_2sp (s : str) : str :=
  match s with
  | a :: ((b :: s'') as s') =>
    if eqb_char a 32%N && eqb_char b 32%N then 32%N :: replace_2sp s''
    else a :: replace_2sp s'
  | _ => s
  end.

Fixpoint lstrip (s : str) : str :=
  match s with
  | c :: s' => if is_space c then lstrip s' else s
  | [] => []
  end.

Definition rstrip (s : str) : str := rev (lstrip (rev s)).

(** [s.strip()] *)
Definition strip (s : str) : str := rstrip (lstrip s).

(** [s.split()]: maximal runs of non-whitespace characters. *)
Fixpoint split_ws_aux (cur : str) (s : str) : list str :=
  match s with
  | [] => match cur with [] => [] | _ => [rev cur] end
  | c :: s' =>
    if is_space c
    then match cur with
         | [] => split_ws_aux [] s'
         | _ => rev cur :: split_ws_aux [] s'
         end
    else split_ws_aux (c :: cur) s'
  end.

Definition split_ws (s : str) : list str := split_ws_aux [] s.

(** [s.split(sep)[0]] for a one-character separator. *)
Fixpoint split_first (sep : char) (s : str) : str :=
  match s with
  | [] => []
  | c :: s' => if eqb_char c sep then [] else c :: split_first sep s'
  end.

(** [s.split(sep)] for a one-character separator. *)
Fixpoint split_char_aux (sep : char) (cur : str) (s : str) : list str :=
  match s with
  | [] => [rev cur]
  | c :: s' =>
    if eqb_char c sep then rev cur :: split_char_aux sep [] s'
    else split_char_aux sep (c :: cur) s'
  end.

Definition split_char (sep : char) (s : str) : list str := split_char_aux sep [] s.

(** [sep.join(parts)] *)
Fixpoint join (sep : str) (parts : list str) : str :=
  match parts with
  | [] => []
  | [p] => p
  | p :: ps => p ++ sep ++ join sep ps
  end.

End Py.

(* ===================================================================== *)
(** * difflib.SequenceMatcher (isjunk = None, autojunk = True) *)
(* ===================================================================== *)

Module Difflib.
Import Py.

(** A match [(i, j, k)]: [a[i:i+k] == b[j:j+k]]. *)
Definition Match : Type := nat * nat * nat.

(** ** [__chain_b] *)

(** The indices of [x] in [b], increasing: [b2j[x]] before the purge. *)
Fixpoint positions_from (x : char) (b : str) (i : nat) : list nat :=
  match b with
  | [] => []
  | y :: b' =>
    if eqb_char x y then i :: positions_from x b' (S i)
    else positions_from x b' (S i)
  end.

(** [n >= 200] and [len(idxs) > n // 100 + 1]. *)
Definition popular (b : str) (x : char) : bool :=
  (200 <=? List.length b) &&
  (List.length b / 100 + 1 <? List.length (positions_from x b 0)).

(** [b2j.get(x, [])] after the popular elements were deleted. *)
Definition b2j (b : str) (x : char) : list nat :=
  if popular b x then [] else positions_from x b 0.

(** No junk predicate is given: [bjunk] is the empty set. *)
Definition isbjunk (c : char) : bool := false.

(** ** [find_longest_match] *)

(** [j2len] and [newj2len] are dictionaries read with default 0. *)
Definition j2len_t : Type := nat -> nat.
Definition j2len_empty : j2len_t := fun _ => 0.
Definition j2len_set (d : j2len_t) (j k : nat) : j2len_t :=
  fun j' => if j' =? j then k else d j'.

(** [j2len.get(j-1, 0)]: the key -1 is never present. *)
Definition j2len_prev (d : j2len_t) (j : nat) : nat :=
  match j with
  | 0 => 0
  | S j' => d j'
  end.

(** The loop [for j in b2j.get(a[i], nothing)] with its [continue] and
    [break]. *)
Fixpoint scan_row (js : list nat) (blo bhi i : nat) (j2len newj2len : j2len_t)
    (best : Match) : j2len_t * Match :=
  match js with
  | [] => (newj2len, best)
  | j :: js' =>
    if j <? blo then scan_row js' blo bhi i j2len newj2len best
    else if bhi <=? j then (newj2len, best)
    else
      let k := j2len_prev j2len j + 1 in
      let best' :=
        let '(_, _, bestsize) := best in
        if bestsize <? k then (i + 1 - k, j + 1 - k, k) else best in
      scan_row js' blo bhi i j2len (j2len_set newj2len j k) best'
  end.

(** The loop [for i in range(alo, ahi)]. *)
Fixpoint scan_rows (rows : list nat) (a b : str) (blo bhi : nat)
    (j2len : j2len_t) (best : Match) : Match :=
  match rows with
  | [] => best
  | i :: rows' =>
    let '(newj2len, best') :=
      scan_row (b2j b (nth i a 0%N)) blo bhi i j2len j2len_empty best in
    scan_rows rows' a b blo bhi newj2len best'
  end.

(** [while besti > alo and bestj > blo and (not) isbjunk(b[bestj-1]) and
    a[besti-1] == b[bestj-1]]; the recursion is on [besti]. *)
Fixpoint extend_left (junk : bool) (a b : str) (alo blo : nat)
    (besti bestj bestsize : nat) {struct besti} : Match :=
  match besti with
  | 0 => (besti, bestj, bestsize)
  | S besti' =>
    if (alo <? besti) && (blo <? bestj)
       && Bool.eqb (isbjunk (nth (bestj - 1) b 0%N)) junk
       && eqb_char (nth besti' a 0%N) (nth (bestj - 1) b 0%N)
    then extend_left junk a b alo blo besti' (bestj - 1) (bestsize + 1)
    else (besti, bestj, bestsize)
  end.

(** [while besti+bestsize < ahi and bestj+bestsize < bhi and (not)
    isbjunk(b[bestj+bestsize]) and a[besti+bestsize] == b[bestj+bestsize]];
    [room] is [ahi - (besti + bestsize)], which bounds the iterations. *)
Fixpoint extend_right (junk : bool) (a b : str) (ahi bhi : nat)
    (besti bestj bestsize : nat) (room : nat) {struct room} : Match :=
  match room with
  | 0 => (besti, bestj, bestsize)
  | S room' =>
    if (besti + bestsize <? ahi) && (bestj + bestsize <? bhi)
       && Bool.eqb (isbjunk (nth (bestj + bestsize) b 0%N)) junk
       && eqb_char (nth (besti + bestsize) a 0%N) (nth (bestj + bestsize) b 0%N)
    then extend_right junk a b ahi bhi besti bestj (bestsize + 1) room'
    else (besti, bestj, bestsize)
  end.

Definition extend (junk : bool) (a b : str) (alo ahi blo bhi : nat)
    (m : Match) : Match :=
  let '(besti, bestj, bestsize) := m in
  let '(besti, bestj, bestsize) :=
    extend_left junk a b alo blo besti bestj bestsize in
  extend_right junk a b ahi bhi besti bestj bestsize (ahi - (besti + bestsize)).

Definition find_longest_match (a b : str) (alo ahi blo bhi : nat) : Match :=
  let best :=
    scan_rows (seq alo (ahi - alo)) a b blo bhi j2len_empty (alo, blo, 0) in
  extend true a b alo ahi blo bhi (extend false a b alo ahi blo bhi best).

(** ** [get_matching_blocks] *)

Definition range : Type := nat * nat * nat * nat.

(** The [while queue] loop; the head of the list is the end of the Python
    list, the element [queue.pop()] removes.  [None] when the fuel runs
    out with a non-empty queue. *)
Fixpoint blocks_loop (fuel : nat) (a b : str) (queue : list range)
    (matching_blocks : list Match) : option (list Match) :=
  match queue with
  | [] => Some matching_blocks
  | (alo, ahi, blo, bhi) :: queue' =>
    match fuel with
    | 0 => None
    | S fuel' =>
      let '(i, j, k) := find_longest_match a b alo ahi blo bhi in
      if k =? 0 then blocks_loop fuel' a b queue' matching_blocks
      else
        let q1 :=
          if (alo <? i) && (blo <? j) then [(alo, i, blo, j)] else [] in
        let q2 :=
          if (i + k <? ahi) && (j + k <? bhi) then [(i + k, ahi, j + k, bhi)]
          else [] in
        blocks_loop fuel' a b (q2 ++ q1 ++ queue')
                    (matching_blocks ++ [(i, j, k)])
    end
  end.

(** The blocks in the order they are found (the source then sorts them and
    merges adjacent ones, which keeps the sum of their sizes).  Every
    iteration that leaves work behind removes a character of [a] from the
    queue, so [2 * len(a) + 1] iterations suffice, see
    [blocks_loop_terminates]. *)
Definition get_matching_blocks (a b : str) : list Match :=
  match blocks_loop (2 * List.length a + 1) a b
                    [(0, List.length a, 0, List.length b)] [] with
  | Some l => l
  | None => []
  end.

Definition sum_sizes (l : list Match) : nat :=
  fold_right (fun m acc => snd m + acc) 0 l.

(** [_calculate_ratio]: [2.0 * matches / length], or [1.0] when [length]
    is zero.  The quotient is kept as an exact rational: on quotients of
    integers below 2^26 the rounding to binary64 is strictly monotone, so
    every comparison of the sources gives the same answer on it. *)
Definition _calculate_ratio (matches length : nat) : Q :=
  match length with
  | 0 => 1%Q
  | _ => Qmake (Z.of_nat (2 * matches)) (Pos.of_nat length)
  end.

(** [SequenceMatcher(None, a, b).ratio()] *)
Definition ratio (a b : str) : Q :=
  _calculate_ratio (sum_sizes (get_matching_blocks a b))
                   (List.length a + List.length b).

End Difflib.

(* ===================================================================== *)
(** * agents/agent_spam_detector.py *)
(* ===================================================================== *)

Module Spam.
Import Py.

(** The dictionaries with the keys [text] and [user_id] of the history. *)
Record entry : Type := mk_entry {
  text : str;
  user_id : option Z
}.

Record SpamDetectionResult : Type := mk_result {
  is_spam : bool;
  similarity_score : Q;
  similar_message : str
}.

(** The agent: [history] is a [deque(maxlen=history_size)], oldest entry
    first. *)
Record SpamDetectorAgent : Type := mk_agent {
  history : list entry;
  maxlen : nat;
  similarity_threshold : Q
}.

(** [SPAM_SIMILARITY_THRESHOLD] and [MESSAGE_HISTORY_SIZE] of
    [config/settings.py] when the environment does not override them. *)
Definition SPAM_SIMILARITY_THRESHOLD : Q := Qmake 85 100.
Definition MESSAGE_HISTORY_SIZE : nat := 10.

(** [__init__] *)
Definition init (history_size : nat) (threshold : Q) : SpamDetectorAgent :=
  mk_agent [] history_size threshold.

Definition _calculate_similarity (text1 text2 : str) : Q :=
  Difflib.ratio (lower text1) (lower text2).

(** [deque.append] on a bounded deque: the entry is added on the right and
    the leftmost one is dropped when the length exceeds [maxlen]. *)
Definition deque_append {A} (maxlen : nat) (d : list A) (x : A) : list A :=
  let d' := d ++ [x] in
  if maxlen <? List.length d' then tl d' else d'.

Definition add_message (self : SpamDetectorAgent) (message : str)
    (uid : option Z) : SpamDetectorAgent :=
  mk_agent (deque_append (maxlen self) (history self) (mk_entry message uid))
           (maxlen self) (similarity_threshold self).

Definition Qltb (x y : Q) : bool := negb (Qle_bool y x).

(** The body of the [for old_msg in self.history] loop, threading
    [(max_similarity, similar_msg)].  [sim] stands for
    [self._calculate_similarity]; [None] is a raised exception. *)
Fixpoint scan_history (sim : str -> str -> option Q) (message : str)
    (h : list entry) (max_similarity : Q) (similar_msg : str)
    : option (Q * str) :=
  match h with
  | [] => Some (max_similarity, similar_msg)
  | old_msg :: h' =>
    match sim message (text old_msg) with
    | None => None
    | Some similarity =>
      if Qltb max_similarity similarity
      then scan_history sim message h' similarity (text old_msg)
      else scan_history sim message h' max_similarity similar_msg
    end
  end.

(** [check_spam] over an arbitrary similarity function: the [try] body and
    the [except Exception] handler.  The agent is returned next to the
    result, as the state after the call. *)
Definition check_spam_with (sim : str -> str -> option Q)
    (self : SpamDetectorAgent) (message : str) (uid : option Z)
    : SpamDetectorAgent * SpamDetectionResult :=
  match scan_history sim message (history self) 0%Q [] with
  | Some (max_similarity, similar_msg) =>
    let is_spam := Qle_bool (similarity_threshold self) max_similarity in
    (self, mk_result is_spam max_similarity
                     (if is_spam then similar_msg else []))
  | None => (self, mk_result false 0%Q [])
  end.

Definition check_spam (self : SpamDetectorAgent) (message : str)
    (uid : option Z) : SpamDetectorAgent * SpamDetectionResult :=
  check_spam_with (fun t1 t2 => Some (_calculate_similarity t1 t2))
                  self message uid.

End Spam.


(* ===================================================================== *)
(** * The [re] module: a backtracking matcher *)
(* ===================================================================== *)

Module Re.
Import Py.

(** The fragment of the regular expressions that the sources use.
    Repetition is over a character class, greedy ([p*]) or lazy ([p*?]). *)
Inductive re : Type :=
| Eps
| Chr (p : char -> bool)
| Seq (r1 r2 : re)
| Alt (r1 r2 : re)
| Star (greedy : bool) (p : char -> bool)
| Opt (r : re)
| Grp (r : re)
| Bnd
| Look (r : re)
| Eos.

Definition Plus (greedy : bool) (p : char -> bool) : re :=
  Seq (Chr p) (Star greedy p).

Definition is_word_opt (c : option char) : bool :=
  match c with
  | Some c => is_word c
  | None => false
  end.

Fixpoint star_greedy {A} (p : char -> bool) (prev : option char) (s : str)
    (k : option char -> str -> option A) : option A :=
  match s with
  | c :: s' =>
    if p c then
      match star_greedy p (Some c) s' k with
      | Some x => Some x
      | None => k prev s
      end
    else k prev s
  | [] => k prev s
  end.

Fixpoint star_lazy {A} (p : char -> bool) (prev : option char) (s : str)
    (k : option char -> str -> option A) : option A :=
  match k prev s with
  | Some x => Some x
  | None =>
    match s with
    | c :: s' => if p c then star_lazy p (Some c) s' k else None
    | [] => None
    end
  end.

(** [exec r prev s caps k]: match [r] at the head of [s], where [prev] is
    the character before the position and [caps] the groups closed so
    far; alternatives are tried in the order of the [re] module and the
    first success wins. *)
Fixpoint exec (A : Type) (r : re) (prev : option char) (s : str)
    (caps : list str)
    (k : option char -> str -> list str -> option A) {struct r} : option A :=
  match r with
  | Eps => k prev s caps
  | Chr p =>
    match s with
    | c :: s' => if p c then k (Some c) s' caps else None
    | [] => None
    end
  | Seq r1 r2 =>
    exec A r1 prev s caps (fun prev' s' caps' => exec A r2 prev' s' caps' k)
  | Alt r1 r2 =>
    match exec A r1 prev s caps k with
    | Some x => Some x
    | None => exec A r2 prev s caps k
    end
  | Star true p => star_greedy p prev s (fun prev' s' => k prev' s' caps)
  | Star false p => star_lazy p prev s (fun prev' s' => k prev' s' caps)
  | Opt r1 =>
    match exec A r1 prev s caps k with
    | Some x => Some x
    | None => k prev s caps
    end
  | Grp r1 =>
    exec A r1 prev s caps
      (fun prev' s' caps' =>
         k prev' s' (caps' ++ [firstn (List.length s - List.length s') s]))
  | Bnd =>
    if xorb (is_word_opt prev) (is_word_opt (hd_error s)) then k prev s caps
    else None
  | Look r1 =>
    match exec unit r1 prev s caps (fun _ _ _ => Some tt) with
    | Some _ => k prev s caps
    | None => None
    end
  | Eos =>
    match s with
    | [] => k prev s caps
    | [c] => if eqb_char c 10%N then k prev s caps else None
    | _ => None
    end
  end.

(** A match object: the matched text, the rest of the input, the groups. *)
Definition match_obj : Type := str * str * list str.

Definition match_at (r : re) (prev : option char) (s : str) : option match_obj :=
  exec match_obj r prev s []
    (fun _ s' caps => Some (firstn (List.length s - List.length s') s, s', caps)).

Fixpoint search_from (r : re) (prev : option char) (s : str) : option match_obj :=
  match match_at r prev s with
  | Some x => Some x
  | None =>
    match s with
    | c :: s' => search_from r (Some c) s'
    | [] => None
    end
  end.

(** [re.search(r, s)] *)
Definition search (r : re) (s : str) : option match_obj := search_from r None s.

(** [bool(re.search(r, s))] *)
Definition found (r : re) (s : str) : bool :=
  match search r s with
  | Some _ => true
  | None => false
  end.

(** [m.group(0)] and [m.group(1)] *)
Definition group0 (m : match_obj) : str := fst (fst m).
Definition group1 (m : match_obj) : str := nth 0 (snd m) [].

(** The successive non-overlapping matches, left to right.  Every step
    moves forward in the input, so [len(s) + 1] steps are enough. *)
Fixpoint finditer_from (fuel : nat) (r : re) (prev : option char) (s : str)
    : list match_obj :=
  match fuel with
  | 0 => []
  | S fuel' =>
    match match_at r prev s with
    | Some (mt, rest, caps) =>
      (mt, rest, caps) ::
      match mt with
      | [] =>
        match s with
        | c :: s' => finditer_from fuel' r (Some c) s'
        | [] => []
        end
      | _ :: _ => finditer_from fuel' r (Some (List.last mt 0%N)) rest
      end
    | None =>
      match s with
      | c :: s' => finditer_from fuel' r (Some c) s'
      | [] => []
      end
    end
  end.

(** [re.findall(r, s)] for a pattern without groups, and for a pattern with
    one group. *)
Definition findall (r : re) (s : str) : list str :=
  map group0 (finditer_from (S (List.length s)) r None s).

Definition findall1 (r : re) (s : str) : list str :=
  map group1 (finditer_from (S (List.length s)) r None s).

(** A literal, as [re.escape] produces it. *)
Fixpoint lit (s : str) : re :=
  match s with
  | [] => Eps
  | c :: s' => Seq (Chr (eqb_char c)) (lit s')
  end.

(** Case folding of [re.IGNORECASE]: [str.lower] and the extra cases of
    the matcher (U+1C80..U+1C86 are variants of
    в, д, о, с, т, т, ъ). *)
Definition fold_case (c : char) : char :=
  if (c =? 7296)%N then 1074%N
  else if (c =? 7297)%N then 1076%N
  else if (c =? 7298)%N then 1086%N
  else if (c =? 7299)%N then 1089%N
  else if (c =? 7300)%N then 1090%N
  else if (c =? 7301)%N then 1090%N
  else if (c =? 7302)%N then 1098%N
  else lower_char c.

(** A class under [re.IGNORECASE]; [p] is given on folded characters. *)
Definition ic (p : char -> bool) : char -> bool := fun c => p (fold_case c).

(** A lowercase literal under [re.IGNORECASE]. *)
Fixpoint lit_ic (s : str) : re :=
  match s with
  | [] => Eps
  | c :: s' => Seq (Chr (ic (eqb_char c))) (lit_ic s')
  end.

(** [a|b|...] *)
Fixpoint alts (l : list re) : re :=
  match l with
  | [] => Chr (fun _ => false)
  | [r] => r
  | r :: l' => Alt r (alts l')
  end.

(** [.] without [re.DOTALL] *)
Definition dot (c : char) : bool := negb (eqb_char c 10%N).

(** [re.sub(class, '', s)] for a one-character class. *)
Definition remove (p : char -> bool) (s : str) : str :=
  List.filter (fun c => negb (p c)) s.

(** [re.split(class+, s)] *)
Fixpoint split_runs_aux (p : char -> bool) (cur : str) (in_sep : bool)
    (s : str) : list str :=
  match s with
  | [] => [rev cur]
  | c :: s' =>
    if p c then
      if in_sep then split_runs_aux p cur true s'
      else rev cur :: split_runs_aux p [] true s'
    else split_runs_aux p (c :: cur) false s'
  end.

Definition split_runs (p : char -> bool) (s : str) : list str :=
  split_runs_aux p [] false s.

End Re.

(* ===================================================================== *)
(** * Python floats: IEEE 754 binary64 *)
(* ===================================================================== *)

Module F64.

Definition prec : Z := 53.
Definition emax : Z := 1024.

Definition float : Type := spec_float.

Definition of_Z (z : Z) : float := binary_normalize prec emax z 0 false.
Definition add : float -> float -> float := SFadd prec emax.
Definition mul : float -> float -> float := SFmul prec emax.
Definition div : float -> float -> float := SFdiv prec emax.
Definition ltb : float -> float -> bool := SFltb.
Definition leb : float -> float -> bool := SFleb.
Definition eqb : float -> float -> bool := SFeqb.

(** The decimal literal [num/den]: the binary64 number nearest to it. *)
Definition dec (num den : Z) : float := div (of_Z num) (of_Z den).

Definition zero : float := S754_zero false.
Definition one : float := of_Z 1.

(** The builtins [min(a, b)] and [max(a, b)]: the first argument is kept
    unless the second is strictly smaller (larger). *)
Definition pymin (a b : float) : float := if ltb b a then b else a.
Definition pymax (a b : float) : float := if ltb a b then b else a.

End F64.

(* ===================================================================== *)
(** * Programs that call an external service *)
(* ===================================================================== *)

Module Eff.

(** A computation that returns an [A] after asking requests of type [Q]
    and receiving replies of type [R]. *)
Inductive prog (Q R A : Type) : Type :=
| Ret (a : A)
| Call (q : Q) (k : R -> prog Q R A).

Arguments Ret {Q R A} a.
Arguments Call {Q R A} q k.

Fixpoint bind {Q R A B} (p : prog Q R A) (f : A -> prog Q R B) : prog Q R B :=
  match p with
  | Ret a => f a
  | Call q k => Call q (fun r => bind (k r) f)
  end.

(** The run against a service [o], which sees the number of earlier calls
    and the request; the result comes with the trace of the calls. *)
Fixpoint run {Q R A} (o : nat -> Q -> R) (n : nat) (p : prog Q R A)
    : A * list (Q * R) :=
  match p with
  | Ret a => (a, [])
  | Call q k =>
    let r := o n q in
    let '(a, tr) := run o (S n) (k r) in
    (a, (q, r) :: tr)
  end.

End Eff.

(* ===================================================================== *)
(** * test/analyzers/heuristic.py *)
(* ===================================================================== *)

Module Heuristic.
Import Py Re.

(** [self.danger_phrases] *)
Definition word_re (w : str) : re := Seq Bnd (Seq (lit w) Bnd).
Definition prefix_re (w : str) : re := Seq Bnd (lit w).

Definition danger_phrases : list re :=
  [ word_re (U "убить"); word_re (U "уничтожить"); word_re (U "смерть");
    word_re (U "ненавижу"); prefix_re (U "терроризм"); word_re (U "взорвать");
    word_re (U "стрелять"); word_re (U "война") ].

(** [self.aggressive_words] *)
Definition aggressive_words : list str :=
  [ U "ублюдок"; U "мудак"; U "тварь"; U "сволочь"; U "сука" ].

Definition f0_1 : F64.float := F64.dec 1 10.
Definition f0_05 : F64.float := F64.dec 5 100.
Definition f0_2 : F64.float := F64.dec 2 10.
Definition f1_3 : F64.float := F64.dec 13 10.

(** The two [for] loops: [score += 0.1] per matching phrase, then
    [score += 0.05] per word found. *)
Definition danger_loop (text_lower : str) (score : F64.float) : F64.float :=
  fold_left (fun score phrase =>
               if found phrase text_lower then F64.add score f0_1 else score)
            danger_phrases score.

Definition aggressive_loop (text_lower : str) (score : F64.float) : F64.float :=
  fold_left (fun score word =>
               if contains word text_lower then F64.add score f0_05 else score)
            aggressive_words score.

(** The value of [score] when [return] is reached. *)
Definition raw_score (text : str) : F64.float :=
  let text_lower := lower text in
  let score := aggressive_loop text_lower (danger_loop text_lower F64.zero) in
  let words := split_ws text in
  if (20 <? List.length words) && F64.ltb f0_2 score
  then F64.mul score f1_3
  else score.

Definition analyze (text : str) : F64.float :=
  F64.pymin (raw_score text) F64.one.

End Heuristic.

(* ===================================================================== *)
(** * test/models/analysis.py *)
(* ===================================================================== *)

Module Models.
Import Py.

Record RKNViolation : Type := mk_rkn {
  rkn_domain : str;
  blocked : bool;
  decision : option str;
  rkn_reason : option str;
  rkn_risk_level : str
}.

Record ContextualViolation : Type := mk_cv {
  cv_type : str;
  domain : str;
  reason : str;
  cv_risk_level : str
}.

(** The dictionary that [DeepSeekAnalyzer.analyze_toxicity] returns, as far
    as the analyzer reads it: the two keys may be missing. *)
Record llm_result : Type := mk_llm {
  toxicity_score : option F64.float;
  llm_risk_level : option str
}.

Record AnalysisResult : Type := mk_res {
  risk_level : str;
  final_score : F64.float;
  rkn_violations : list RKNViolation;
  contextual_violations : list ContextualViolation;
  llm_analysis : option llm_result;
  actions : list str;
  analysis_type : str
}.

End Models.

(* ===================================================================== *)
(** * test/services/context_tracker.py *)
(* ===================================================================== *)

Module Tracker.
Import Py Re Models.

Record mention : Type := mk_mention {
  m_domain : str;
  m_user_id : Z;
  m_timestamp : Z;
  m_message_preview : str
}.

(** [banned_domains_mentioned] is a [defaultdict(set)], [mention_history]
    a [defaultdict] of bounded deques. *)
Record ContextualMentionTracker : Type := mk_tracker {
  banned_domains_mentioned : gmap Z (gset str);
  mention_history : gmap Z (list mention);
  max_history : nat;
  cleanup_hours : Z
}.

Definition init (max_history : nat) (cleanup_hours : Z) : ContextualMentionTracker :=
  mk_tracker ∅ ∅ max_history cleanup_hours.

Definition group_of (l : list str) : re := Grp (alts (map lit l)).

(** [self.context_patterns] *)
Definition context_patterns : list re :=
  [ Seq (group_of [U "помните"; U "помнишь"; U "а помните"; U "а помнишь"])
      (Seq (Star false dot)
         (Grp (alts [lit (U "сайт"); lit (U "ресурс");
                     Seq (lit (U "ссылк"))
                         (Chr (fun c => eqb_char c 1072%N || eqb_char c 1091%N))])));
    Seq (group_of [U "тот"; U "тот самый"])
      (Seq (Star false dot) (group_of [U "сайт"; U "ресурс"]));
    Seq (group_of [U "заблокировали"; U "запретили"])
      (Seq (Star false dot) (group_of [U "сайт"; U "ресурс"]));
    Seq (group_of [U "ранее"; U "раньше"])
      (Seq (Star false dot) (group_of [U "упоминал"; U "ссылался"]));
    Seq (group_of [U "который"; U "которую"])
      (Seq (Star false dot) (group_of [U "заблокировали"; U "удалили"])) ].

(** [deque.append] with [maxlen]. *)
Definition deque_append {A} (maxlen : nat) (d : list A) (x : A) : list A :=
  let d' := d ++ [x] in
  if maxlen <? List.length d' then tl d' else d'.

(** [track_mention]; [now] is the value of [datetime.now()]. *)
Definition track_mention (self : ContextualMentionTracker) (now : Z)
    (chat_id : Z) (dom : str) (uid : Z) (message : str)
    : ContextualMentionTracker :=
  mk_tracker
    (<[chat_id := {[dom]} ∪ default ∅ (banned_domains_mentioned self !! chat_id)]>
       (banned_domains_mentioned self))
    (<[chat_id :=
         deque_append (max_history self)
           (default [] (mention_history self !! chat_id))
           (mk_mention dom uid now (firstn 100 message))]>
       (mention_history self))
    (max_history self) (cleanup_hours self).

(** [any(re.search(pattern, text_lower) for pattern in context_patterns)] *)
Definition has_context (text_lower : str) : bool :=
  existsb (fun pattern => found pattern text_lower) context_patterns.

(** [domain.split('.')[0]] *)
Definition domain_name (dom : str) : str := split_first 46%N dom.

Definition quote : char := 34%N.

Definition violation_of (dom : str) : ContextualViolation :=
  mk_cv (U "contextual_mention") dom
        (U "Контекстное упоминание запрещенного ресурса " ++ [quote] ++ dom ++ [quote])
        (U "high").

(** The condition of the [for domain in ...] loop. *)
Definition mentions (text_lower : str) (dom : str) : bool :=
  (3 <? List.length (domain_name dom)) && contains (domain_name dom) text_lower.

(** [check_contextual_reference]; the set of the chat is walked in the
    order of [elements] (the order of a Python set is unspecified). *)
Definition check_contextual_reference (self : ContextualMentionTracker)
    (text : str) (chat_id : Z) : list ContextualViolation :=
  let text_lower := lower text in
  if negb (has_context text_lower) then []
  else
    map violation_of
        (List.filter (fun dom => mentions text_lower dom)
                (elements (default ∅ (banned_domains_mentioned self !! chat_id)))).

End Tracker.

(* ===================================================================== *)
(** * test/analyzers/multi_level.py *)
(* ===================================================================== *)

Module MultiLevel.
Import Py Models Eff.

(** [ANALYSIS_CONFIG] of [test/config.py] *)
Record config : Type := mk_config {
  fast_check_threshold : F64.float;
  deep_analysis_threshold : F64.float;
  critical_threshold : F64.float
}.

Definition ANALYSIS_CONFIG : config :=
  mk_config (F64.dec 3 10) (F64.dec 6 10) (F64.dec 8 10).

Record MultiLevelAnalyzer : Type := mk_analyzer {
  context_tracker : Tracker.ContextualMentionTracker;
  cfg : config
}.

(** A program that may call [self.deepseek.analyze_toxicity(text)]. *)
Definition M : Type -> Type := prog str llm_result.

(** [_check_rkn_violations]: the list of violations is always empty (the
    list of checked domains, which nothing reads, is left out). *)
Definition _check_rkn_violations (text : str) (chat_id uid : Z)
    : list RKNViolation := [].

Definition _create_rkn_violation_result (violations : list RKNViolation)
    : AnalysisResult :=
  mk_res (U "critical") F64.one violations [] None
         [U "delete_message"; U "warn_user"; U "report_to_admins"]
         (U "rkn_check").

Definition _create_context_violation_result
    (context_violations : list ContextualViolation) : AnalysisResult :=
  mk_res (U "high") (F64.dec 8 10) [] context_violations None
         [U "warn_user"; U "notify_moderators"] (U "context_check").

Definition _perform_deep_analysis (self : MultiLevelAnalyzer) (text : str)
    (heuristic_score : F64.float) : M AnalysisResult :=
  Call text (fun llm =>
    let final_score :=
      F64.pymax heuristic_score (default F64.zero (toxicity_score llm)) in
    let risk := default (U "medium") (llm_risk_level llm) in
    let actions :=
      if F64.ltb (critical_threshold (cfg self)) final_score
      then [U "warn_user"] else [] in
    Ret (mk_res risk final_score [] [] (Some llm) actions (U "deep_llm"))).

Definition analyze (self : MultiLevelAnalyzer) (text : str) (chat_id uid : Z)
    : M AnalysisResult :=
  let rkn := _check_rkn_violations text chat_id uid in
  match rkn with
  | _ :: _ => Ret (_create_rkn_violation_result rkn)
  | [] =>
    let context_violations :=
      Tracker.check_contextual_reference (context_tracker self) text chat_id in
    match context_violations with
    | _ :: _ => Ret (_create_context_violation_result context_violations)
    | [] =>
      let heuristic_score := Heuristic.analyze text in
      if F64.ltb heuristic_score (fast_check_threshold (cfg self))
      then Ret (mk_res (U "low") heuristic_score [] [] None [] (U "heuristic"))
      else if F64.ltb (deep_analysis_threshold (cfg self)) heuristic_score
      then _perform_deep_analysis self text heuristic_score
      else Ret (mk_res (U "medium") heuristic_score [] [] None [] (U "heuristic"))
    end
  end.

End MultiLevel.

(* ===================================================================== *)
(** * agents/agent_moderator.py *)
(* ===================================================================== *)

Module Moderator.
Import Py Re Eff.

(** The category strings of [AnalysisResult]. *)
Inductive Category : Type :=
| CLEAN
| CATEGORY_A
| CATEGORY_B
| CATEGORY_C
| ERROR.

Record AnalysisResult : Type := mk_result {
  category : Category;
  reason : str;
  has_links : bool;
  links : list str
}.

(** Every [return AnalysisResult(...)] of [analyze_message] passes
    [has_links=len(links) > 0]. *)
Definition result (c : Category) (why : str) (links : list str) : AnalysisResult :=
  mk_result c why (0 <? List.length links) links.

(** [self.inoagents] is a set, listed here in its iteration order;
    [self.pseudonyms] is a dictionary, listed in insertion order. *)
Record ModeratorAgent : Type := mk_agent {
  inoagents : list str;
  pseudonyms : list (str * str)
}.

(** ** Sets and dictionaries of strings *)

Definition set_add (x : str) (s : list str) : list str :=
  if mem_str x s then s else s ++ [x].

Fixpoint dict_get (k : str) (d : list (str * str)) : option str :=
  match d with
  | [] => None
  | (k', v) :: d' => if eqb_str k k' then Some v else dict_get k d'
  end.

(** [d[k] = v]: an existing key keeps its place. *)
Fixpoint dict_set (k v : str) (d : list (str * str)) : list (str * str) :=
  match d with
  | [] => [(k, v)]
  | (k', v') :: d' =>
    if eqb_str k k' then (k, v) :: d' else (k', v') :: dict_set k v d'
  end.

(** [set(l)] *)
Fixpoint dedup (l : list str) : list str :=
  match l with
  | [] => []
  | x :: l' => if mem_str x l' then dedup l' else x :: dedup l'
  end.

(** [len(set(l1) & set(l2))] *)
Definition common_count (l1 l2 : list str) : nat :=
  List.length (dedup (List.filter (fun x => mem_str x l2) l1)).

Definition is_empty (s : str) : bool :=
  match s with
  | [] => true
  | _ :: _ => false
  end.

Definition is_empty_list (l : list str) : bool :=
  match l with
  | [] => true
  | _ :: _ => false
  end.

(** ** Normalization and transliteration *)

Definition _normalize (s : str) : str :=
  strip (replace_2sp (replace_char yo ye (lower s))).

Definition ru_table : list (char * str) :=
  combine (U "абвгдеёжзийклмнопрстуфхцчшщъыьэюя")
    [ U "a"; U "b"; U "v"; U "g"; U "d"; U "e"; U "e"; U "zh"; U "z"; U "i";
      U "i"; U "k"; U "l"; U "m"; U "n"; U "o"; U "p"; U "r"; U "s"; U "t";
      U "u"; U "f"; U "h"; U "c"; U "ch"; U "sh"; U "sh"; U ""; U "y"; U "";
      U "e"; U "yu"; U "ya" ].

Definition lat_table : list (char * str) :=
  combine (U "abcdefghijklmnopqrstuvwxyz0123456789")
    [ U "а"; U "б"; U "ц"; U "д"; U "е"; U "ф"; U "г"; U "х"; U "и"; U "й";
      U "к"; U "л"; U "м"; U "н"; U "о"; U "п"; U "к"; U "р"; U "с"; U "т";
      U "у"; U "в"; U "в"; U "кс"; U "и"; U "з"; U "0"; U "1"; U "2"; U "3";
      U "4"; U "5"; U "6"; U "7"; U "8"; U "9" ].

Fixpoint table_get (c : char) (t : list (char * str)) : option str :=
  match t with
  | [] => None
  | (c', v) :: t' => if eqb_char c c' then Some v else table_get c t'
  end.

Definition _ru_to_lat (s : str) : str :=
  flat_map (fun ch =>
              match table_get ch ru_table with
              | Some v => v
              | None => if is_ascii_lower ch || is_digit ch then [ch] else []
              end)
           (lower s).

(** The number of copies of [w] at the head of [s], and what follows. *)
Fixpoint count_prefix (fuel : nat) (w s : str) : nat * str :=
  match fuel with
  | 0 => (0, s)
  | S fuel' =>
    if starts_with w s
    then let '(n, rest) := count_prefix fuel' w (skipn (List.length w) s) in
         (S n, rest)
    else (0, s)
  end.

(** [re.sub(r'(кс){2,}', 'кс', res)] *)
Fixpoint collapse_ks (fuel : nat) (s : str) : str :=
  match fuel with
  | 0 => s
  | S fuel' =>
    match s with
    | [] => []
    | c :: s' =>
      let '(n, rest) := count_prefix (List.length s) (U "кс") s in
      if 2 <=? n then U "кс" ++ collapse_ks fuel' rest
      else c :: collapse_ks fuel' s'
    end
  end.

(** The length of the run of [c] at the head of [s], and what follows. *)
Fixpoint run_of (c : char) (s : str) : nat * str :=
  match s with
  | x :: s' =>
    if eqb_char x c then let '(n, rest) := run_of c s' in (S n, rest)
    else (0, s)
  | [] => (0, [])
  end.

(** [re.sub(r'(.)\1{2,}', r'\1', res)] *)
Fixpoint collapse_runs (fuel : nat) (s : str) : str :=
  match fuel with
  | 0 => s
  | S fuel' =>
    match s with
    | [] => []
    | c :: s' =>
      let '(n, rest) := run_of c s' in
      if dot c && (2 <=? n) then c :: collapse_runs fuel' rest
      else c :: collapse_runs fuel' s'
    end
  end.

Definition _lat_to_ru_approx (s : str) : str :=
  let res := flat_map (fun ch => default [] (table_get ch lat_table)) (lower s) in
  let res := collapse_ks (List.length res) res in
  collapse_runs (List.length res) res.

(** ** Patterns *)

Definition is_cyr (c : char) : bool :=
  is_cyr_upper c || is_cyr_lower c || eqb_char c yo || eqb_char c YO.

Definition is_cyr_cap (c : char) : bool := is_cyr_upper c || eqb_char c YO.
Definition is_cyr_small (c : char) : bool := is_cyr_lower c || eqb_char c yo.

(** [[А-Яа-яёЁA-Za-z0-9\-]] *)
Definition is_token_char (c : char) : bool :=
  is_cyr c || is_ascii_upper c || is_ascii_lower c || is_digit c
  || eqb_char c 45%N.

Definition token_re : re := Plus true is_token_char.

(** [https?://[^\s]+] *)
Definition url_re : re :=
  Seq (lit (U "http"))
      (Seq (Opt (lit (U "s")))
           (Seq (lit (U "://")) (Plus true (fun c => negb (is_space c))))).

(** [([А-ЯЁ][а-яё]+\s+[А-ЯЁ][а-яё]+(?:\s+[А-ЯЁ][а-яё]+)?)] *)
Definition cap_word : re := Seq (Chr is_cyr_cap) (Plus true is_cyr_small).
Definition fio_pattern : re :=
  Grp (Seq cap_word
           (Seq (Plus true is_space)
                (Seq cap_word (Opt (Seq (Plus true is_space) cap_word))))).

(** [([А-ЯЁа-яё]+\s+[А-ЯЁа-яё]+(?:\s+[А-ЯЁа-яё]+)?)] with [re.IGNORECASE] *)
Definition cyr_word : re := Plus true (ic is_cyr).
Definition fio_pattern_ic : re :=
  Grp (Seq cyr_word
           (Seq (Plus true is_space)
                (Seq cyr_word (Opt (Seq (Plus true is_space) cyr_word))))).

(** [([А-Яа-яёЁ]+\s+[А-Яа-яёЁ]+)] with [re.IGNORECASE] *)
Definition name_pair_pattern : re :=
  Grp (Seq cyr_word (Seq (Plus true is_space) cyr_word)).

Definition open_quote (c : char) : bool :=
  eqb_char c 171%N || eqb_char c 34%N || eqb_char c 8220%N.
Definition close_quote (c : char) : bool :=
  eqb_char c 187%N || eqb_char c 34%N || eqb_char c 8221%N.

(** [псевдоним(?:[а|ом])?\s*(?:Q?)([^Z\n]+)(?:Z)?] with [re.IGNORECASE],
    where Q is the class of the opening quotes (U+00AB, U+0022, U+201C) and
    Z the class of the closing quotes (U+00BB, U+0022, U+201D). *)
Definition pseudonym_pattern : re :=
  Seq (lit_ic (U "псевдоним"))
    (Seq (Opt (Chr (ic (fun c => eqb_char c 1072%N || eqb_char c 124%N
                                 || eqb_char c 1086%N || eqb_char c 1084%N))))
      (Seq (Star true is_space)
        (Seq (Opt (Chr open_quote))
          (Seq (Grp (Plus true (fun c => negb (close_quote c || eqb_char c 10%N))))
               (Opt (Chr close_quote)))))).

(** [Q([^Z]+)Z] with the same two classes of quotes. *)
Definition quoted_pattern : re :=
  Seq (Chr open_quote)
      (Seq (Grp (Plus true (fun c => negb (close_quote c)))) (Chr close_quote)).

(** [\b t0 \b.*\b t1 \b] built from two escaped name tokens. *)
Definition ordered_pattern (t0 t1 : str) : re :=
  Seq Bnd (Seq (lit t0) (Seq Bnd (Seq (Star true dot)
    (Seq Bnd (Seq (lit t1) Bnd))))).

(** [ПРИЧИНА:\s*(.+?)(?=\n|$)] with [re.IGNORECASE] *)
Definition reason_pattern : re :=
  Seq (lit_ic (U "причина:"))
      (Seq (Star true is_space)
           (Seq (Grp (Plus false dot))
                (Look (Alt (Chr (fun c => eqb_char c 10%N)) Eos)))).

(** ** The word lists *)

Definition pseudo_blacklist : list str :=
  [ U "проект"; U "ресурс"; U "команда"; U "издание"; U "газета";
    U "телеграм"; U "канал"; U "организация"; U "платформа"; U "фонд";
    U "агент"; U "мат"; U "медиа"; U "радио"; U "сайт"; U "новости";
    U "открытых"; U "важных"; U "иноагент" ].

Definition token_blacklist : list str :=
  [ U "агент"; U "мат"; U "чел"; U "тут"; U "здесь"; U "кто"; U "что";
    U "новости"; U "иноагент" ].

(** The list of the second guard, without the last word. *)
Definition token_blacklist_late : list str :=
  [ U "агент"; U "мат"; U "чел"; U "тут"; U "здесь"; U "кто"; U "что";
    U "новости" ].

Definition pronouns : list str :=
  [ U "ты"; U "вы"; U "он"; U "она"; U "они"; U "кто"; U "что"; U "это";
    U "здесь"; U "там" ].

Definition context_block : list str :=
  [ U "встреча"; U "встречается"; U "часто"; U "упоминается" ].

Definition threat_words : list str :=
  [ U "убью"; U "порв"; U "убь"; U "поджог"; U "взорв"; U "уничтож";
    U "расстрел" ].

Definition rude_words : list str :=
  [ U "дурак"; U "тупой"; U "идиот"; U "сволочь"; U "мерзавец"; U "ублюдок" ].

Definition clean_reason : str := U "Сообщение соответствует правилам".
Definition mat_reason : str :=
  U "ненормативная лексика " ++ [34%N] ++ U "для выразительности" ++ [34%N].
Definition registry_reason : str := U "Упоминание лица из реестра иноагентов: ".
Definition threat_reason : str := U "Признак угроз/насилия".
Definition rude_reason : str := U "Грубость/оскорбление".

(** ** [_load_inoagents] *)

Definition skip_line (line : str) : bool :=
  is_empty line || starts_with (U "#") line || starts_with [8470%N] line
  || starts_with (U "Список") line || starts_with (U "Материал") line.

(** The pseudonym of a line, [[]] when there is none: the match of
    [pseudonym_pattern], else a quoted text of at most three words. *)
Definition line_pseudo (line : str) : str :=
  let pseudo :=
    match search pseudonym_pattern line with
    | Some pm => strip (group1 pm)
    | None => []
    end in
  if negb (is_empty pseudo) then pseudo
  else
    match search quoted_pattern line with
    | Some q =>
      let maybe := strip (group1 q) in
      if List.length (split_ws maybe) <=? 3 then maybe else pseudo
    | None => pseudo
    end.

(** The body of [for line in f]. *)
Definition load_line (self : ModeratorAgent) (raw : str) : ModeratorAgent :=
  let line := strip raw in
  if skip_line line then self
  else
    let fio_matches := findall1 fio_pattern line in
    let inoagents' :=
      fold_left (fun s m => set_add (_normalize m) s) fio_matches (inoagents self) in
    let pseudo := line_pseudo line in
    match fio_matches with
    | m0 :: _ =>
      if is_empty pseudo then mk_agent inoagents' (pseudonyms self)
      else
        let first_fio := _normalize m0 in
        let p_norm := _normalize pseudo in
        if (List.length p_norm <? 3) || mem_str p_norm pseudo_blacklist
        then mk_agent inoagents' (pseudonyms self)
        else
          let ps := dict_set p_norm first_fio (pseudonyms self) in
          if found (Chr (fun c => is_ascii_lower c || is_ascii_upper c)) p_norm
          then
            let alt := _lat_to_ru_approx p_norm in
            if negb (is_empty alt)
            then mk_agent inoagents' (dict_set alt first_fio ps)
            else mk_agent inoagents' ps
          else mk_agent inoagents' ps
    | [] => mk_agent inoagents' (pseudonyms self)
    end.

(** [__init__] followed by [_load_inoagents]; [None] is a file that cannot
    be opened. *)
Definition _load_inoagents (file : option (list str)) : ModeratorAgent :=
  match file with
  | Some lines => fold_left load_line lines (mk_agent [] [])
  | None => mk_agent [] []
  end.

(** ** The language model *)

(** Which of the three prompts a call to [self.client.generate] carries:
    [alias_system_small], [alias_system] or [system_prompt]. *)
Inductive purpose : Type :=
| AliasToken
| AliasMessage
| Classify.

Record request : Type := mk_request {
  system : purpose;
  user : str
}.

(** What [generate] does: it raises, or it returns the content of the
    answer, which is text or [None]. *)
Inductive reply : Type :=
| Raises
| Null
| Text (s : str).

Definition M : Type -> Type := prog request reply.

(** ** [analyze_message] *)

Definition extract_urls (text : str) : list str := findall url_re text.

Definition tokens_of (message : str) : list str := findall token_re message.

(** The guard for a message of one short or common token. *)
Definition single_token_guard (blacklist : list str) (message : str)
    (links : list str) : option AnalysisResult :=
  match tokens_of message with
  | [t] =>
    let t0 := _normalize t in
    if mem_str t0 blacklist || (List.length t0 <? 3) then
      if eqb_str t0 (U "мат") then Some (result CATEGORY_B mat_reason links)
      else Some (result CLEAN clean_reason links)
    else None
  | _ => None
  end.

Definition name_tokens (s : str) : list str :=
  List.filter (fun t => negb (is_empty t)) (split_ws s).

Definition msg_tokens_set (message : str) : list str :=
  map _normalize (tokens_of (lower message)).

(** [matched_tokens] *)
Definition matched_tokens (n_tokens tokens_set : list str) : nat :=
  List.length (List.filter (fun nt => mem_str nt tokens_set) n_tokens).

(** The body of [for name in self.inoagents] says whether it returns. *)
Definition direct_hit (message : str) (name : str) : bool :=
  if is_empty name then false
  else
    let n_tokens := name_tokens name in
    if List.length n_tokens <? 2 then false
    else if 2 <=? matched_tokens n_tokens (msg_tokens_set message) then
      found (ordered_pattern (nth 0 n_tokens []) (nth 1 n_tokens []))
            (_normalize message)
    else false.

Definition direct_stage (self : ModeratorAgent) (message : str) : option str :=
  find (direct_hit message) (inoagents self).

Definition p_ascii (p : str) : str :=
  remove (fun c => negb (is_ascii_lower c || is_digit c)) p.

Definition fuzzy_threshold : Q := Qmake 80 100.

(** The body of [for p, fio in self.pseudonyms.items()] says whether it
    returns. *)
Definition fuzzy_hit (t_lat p : str) : bool :=
  if is_empty (p_ascii p) || (List.length (p_ascii p) <? 4) then false
  else if List.length t_lat <? 4 then false
  else Qle_bool fuzzy_threshold (Difflib.ratio t_lat (p_ascii p)).

Definition fuzzy_loop (t_lat : str) (d : list (str * str)) : option str :=
  option_map snd (find (fun pf => fuzzy_hit t_lat (fst pf)) d).

(** The loop [for t in msg_tokens] over the pseudonyms. *)
Fixpoint pseudonym_stage (d : list (str * str)) (msg_tokens : list str)
    : option str :=
  match msg_tokens with
  | [] => None
  | t :: rest =>
    let t_norm := _normalize t in
    if (List.length t_norm <? 3) || mem_str t_norm token_blacklist
    then pseudonym_stage d rest
    else
      match dict_get t_norm d with
      | Some fio => Some fio
      | None =>
        if List.length t_norm <? 4 then pseudonym_stage d rest
        else
          match fuzzy_loop (_ru_to_lat t_norm) d with
          | Some fio => Some fio
          | None => pseudonym_stage d rest
          end
      end
  end.

Definition alias_user_small (t_norm : str) : str :=
  U "Псевдоним: '" ++ t_norm ++ U "'. Какому ФИО он соответствует?".

(** The per-token queries.  When an answer contains a name, the call
    [tokens(found)] reads the local function [tokens] before its [def] is
    executed: the [UnboundLocalError] is caught by [except Exception: pass],
    which ends the loop.  So does an exception of [generate]. *)
Fixpoint alias_token_loop (msg_tokens : list str) : M unit :=
  match msg_tokens with
  | [] => Ret tt
  | t :: rest =>
    let t_norm := _normalize t in
    if (List.length t_norm <? 3) || mem_str t_norm token_blacklist
    then alias_token_loop rest
    else
      Call (mk_request AliasToken (alias_user_small t_norm))
        (fun r =>
           match r with
           | Raises => Ret tt
           | Null => alias_token_loop rest
           | Text resp =>
             if is_empty resp then alias_token_loop rest
             else if found fio_pattern_ic resp then Ret tt
             else alias_token_loop rest
           end)
  end.

(** [local_candidates], in the order of their first occurrence. *)
Definition local_candidates (message : str) : list str :=
  fold_left
    (fun acc m =>
       let norm_m := _normalize m in
       let parts := split_ws norm_m in
       if existsb (fun p => mem_str p pronouns || mem_str p token_blacklist) parts
       then acc
       else set_add norm_m acc)
    (findall1 name_pair_pattern message) [].

Definition tokens (s : str) : list str :=
  List.filter (fun t => negb (is_empty t)) (split_ws s).

(** [any(ctx in msg_norm for ctx in context_block)] *)
Definition in_frequency_context (msg_norm : str) : bool :=
  existsb (fun ctx => contains ctx msg_norm) context_block.

(** The loops [for cand in local_candidates: for reg in self.inoagents]. *)
Definition local_stage (self : ModeratorAgent) (message : str) : option str :=
  let msg_norm := _normalize message in
  let fix over_cands (cands : list str) : option str :=
    match cands with
    | [] => None
    | cand :: cands' =>
      match find (fun reg =>
                    (2 <=? common_count (tokens cand) (tokens reg))
                    && negb (in_frequency_context msg_norm))
                 (inoagents self) with
      | Some reg => Some reg
      | None => over_cands cands'
      end
    end in
  over_cands (local_candidates message).

Definition alias_user (message : str) : str :=
  U "Найди все упоминания людей в этом тексте и верни их полные ФИО (через запятую): '"
  ++ message ++ U "'".

(** [found_fios] from the answer to the alias query. *)
Definition found_fios (alias_resp : str) : list str :=
  if is_empty alias_resp then []
  else
    let cleaned := strip (replace_char 10%N 44%N alias_resp) in
    let parts :=
      map strip
          (List.filter (fun p => negb (is_empty (strip p)))
             (split_runs (fun c => eqb_char c 59%N || eqb_char c 44%N) cleaned)) in
    fold_left
      (fun acc p =>
         let p_clean :=
           remove (fun c => negb (is_cyr c || is_space c || eqb_char c 45%N)) p in
         match search fio_pattern_ic p_clean with
         | Some m => set_add (_normalize (group1 m)) acc
         | None => acc
         end)
      parts [].

(** [matched]: for every found name the first registry entry that shares
    two tokens with it. *)
Definition matched_of (self : ModeratorAgent) (fios : list str) : list str :=
  flat_map
    (fun f =>
       match find (fun reg => 2 <=? common_count (tokens f) (tokens reg))
                  (inoagents self) with
       | Some reg => [reg]
       | None => []
       end)
    fios.

(** [chat_history[-3:]] *)
Definition last3 (l : list str) : list str := skipn (List.length l - 3) l.

Definition history_context (chat_history : option (list str)) : str :=
  match chat_history with
  | Some ((_ :: _) as h) =>
    [10%N] ++ U "Предыдущие сообщения в чате:" ++ [10%N] ++ join [10%N] (last3 h)
  | _ => []
  end.

Definition user_message (message : str) (chat_history : option (list str)) : str :=
  U "Проанализируй это сообщение:" ++ history_context chat_history
  ++ [10%N; 10%N] ++ U "Сообщение для анализа:" ++ [10%N] ++ U "'" ++ message
  ++ U "'".

(** The reason after [ПРИЧИНА:], when there is one. *)
Definition parsed_reason (response : str) : str :=
  match search reason_pattern response with
  | Some m => strip (group1 m)
  | None => clean_reason
  end.

(** The category and the reason read from the answer of the classifier. *)
Definition parse_response (response : str) : Category * str :=
  if contains (U "CATEGORY_A") response || contains (U "ограничены") response
     || contains (U "разговоры") response
  then (CATEGORY_A, parsed_reason response)
  else if contains (U "CATEGORY_B") response
  then (CATEGORY_B, parsed_reason response)
  else if contains (U "CATEGORY_C") response
  then (CATEGORY_C, parsed_reason response)
  else (CLEAN, clean_reason).

(** [has_local_name]: a name-pair candidate, or a token of the message that
    is a key of [self.pseudonyms]. *)
Definition has_pseudonym_token (self : ModeratorAgent) (message : str) : bool :=
  existsb (fun t => match dict_get (_normalize t) (pseudonyms self) with
                    | Some _ => true
                    | None => false
                    end)
          (tokens_of message).

Definition has_local_name (self : ModeratorAgent) (message : str) : bool :=
  match local_candidates message with
  | _ :: _ => true
  | [] => has_pseudonym_token self message
  end.

(** The [try] body after the answer of the classifier arrived: parsing
    and the consistency check ([matched] is the list of the alias step). *)
Definition classify_result (self : ModeratorAgent) (message : str)
    (matched : list str) (response : str) (links : list str) : AnalysisResult :=
  let '(cat, why) := parse_response response in
  match cat with
  | CATEGORY_C =>
    if is_empty_list matched && negb (has_local_name self message)
    then result CLEAN clean_reason links
    else result cat why links
  | _ => result cat why links
  end.

(** The [except Exception] handler of the classification: the offline
    keyword lists. *)
Definition local_fallback (message : str) (links : list str) : AnalysisResult :=
  let low_text := _normalize message in
  if existsb (fun w => contains w low_text) threat_words
  then result CATEGORY_A threat_reason links
  else if existsb (fun w => contains w low_text) rude_words
  then result CATEGORY_B rude_reason links
  else result CLEAN clean_reason links.

(** The call of the classifier with its handler.  A [None] answer raises a
    [TypeError] at the first [in] test, inside the same [try]. *)
Definition classify_stage (self : ModeratorAgent) (message : str)
    (chat_history : option (list str)) (matched : list str)
    (links : list str) : M AnalysisResult :=
  Call (mk_request Classify (user_message message chat_history))
    (fun r =>
       match r with
       | Text response => Ret (classify_result self message matched response links)
       | Raises | Null => Ret (local_fallback message links)
       end).

(** The alias query for the whole message and what follows it. *)
Definition alias_stage (self : ModeratorAgent) (message : str)
    (chat_history : option (list str)) (links : list str) : M AnalysisResult :=
  Call (mk_request AliasMessage (alias_user message))
    (fun r =>
       let alias_resp :=
         match r with
         | Text resp => resp
         | Raises | Null => []
         end in
       let matched := matched_of self (found_fios alias_resp) in
       match matched with
       | _ :: _ =>
         Ret (result CATEGORY_C (registry_reason ++ join (U ", ") matched) links)
       | [] =>
         match single_token_guard token_blacklist_late message links with
         | Some res => Ret res
         | None => classify_stage self message chat_history matched links
         end
       end).

(** [analyze_message].  With answers that are text, [None] or an exception
    no statement of the body raises outside an inner handler, so the outer
    [except Exception] (category [ERROR]) is never entered. *)
Definition analyze_message (self : ModeratorAgent) (message : str)
    (chat_history : option (list str)) : M AnalysisResult :=
  let links := extract_urls message in
  match single_token_guard token_blacklist message links with
  | Some res => Ret res
  | None =>
    match direct_stage self message with
    | Some name => Ret (result CATEGORY_C (registry_reason ++ name) links)
    | None =>
      let msg_tokens := tokens_of message in
      match pseudonym_stage (pseudonyms self) msg_tokens with
      | Some fio => Ret (result CATEGORY_C (registry_reason ++ fio) links)
      | None =>
        bind (alias_token_loop msg_tokens)
          (fun _ =>
             match local_stage self message with
             | Some reg => Ret (result CATEGORY_C (registry_reason ++ reg) links)
             | None => alias_stage self message chat_history links
             end)
      end
    end
  end.

End Moderator.

(* ===================================================================== *)
(** * test/services/context_tracker.py: the history of mentions *)
(* ===================================================================== *)

Module Mentions.
Import Py Tracker.

(** A [datetime] is the number of microseconds since 0001-01-01T00:00; the
    largest one is 9999-12-31T23:59:59.999999. *)
Definition datetime_max : Z := 315537897599999999.

(** [timedelta(hours=h)] in microseconds; it raises an [OverflowError]
    ([None]) beyond 999999999 days. *)
Definition timedelta_max : Z := 86399999999999999999.

Definition timedelta_hours (h : Z) : option Z :=
  let d := (h * 3600000000)%Z in
  if ((- 86399999913600000000 <=? d) && (d <=? timedelta_max))%Z then Some d
  else None.

(** [now - timedelta(hours=h)]; a date out of range raises
    [OverflowError]. *)
Definition hours_before (now h : Z) : option Z :=
  match timedelta_hours h with
  | Some d =>
    let cutoff := (now - d)%Z in
    if ((0 <=? cutoff) && (cutoff <=? datetime_max))%Z then Some cutoff else None
  | None => None
  end.

(** [m['timestamp'] > cutoff] *)
Definition newer_than (cutoff : Z) (m : mention) : bool :=
  (cutoff <? m_timestamp m)%Z.

(** [get_recent_mentions]; [now] is the value of [datetime.now()] and
    [None] the [OverflowError] of the date arithmetic. *)
Definition get_recent_mentions (self : ContextualMentionTracker) (now : Z)
    (chat_id : Z) (hours : Z) : option (list mention) :=
  match hours_before now hours with
  | Some cutoff =>
    Some (List.filter (newer_than cutoff)
                      (default [] (mention_history self !! chat_id)))
  | None => None
  end.

(** [cleanup_old_mentions]: every deque is rebuilt from its entries after
    the cutoff, with the same [maxlen]; the sets of domains are not
    touched. *)
Definition cleanup_old_mentions (self : ContextualMentionTracker) (now : Z)
    : option ContextualMentionTracker :=
  match hours_before now (cleanup_hours self) with
  | Some cutoff =>
    Some (mk_tracker (banned_domains_mentioned self)
                     (List.filter (newer_than cutoff) <$> mention_history self)
                     (max_history self) (cleanup_hours self))
  | None => None
  end.

End Mentions.

(* ===================================================================== *)
(** * storage/storage.py *)
(* ===================================================================== *)

Module Storage.
Import Py.

(** [str(user_id)]: the decimal digits, after a minus sign for a negative
    number. *)
Definition str_of_int (z : Z) : str :=
  bytes_of (NilZero.string_of_int (Z.to_int z)).

(** The entries of the three JSON files; a timestamp is the text of
    [datetime.now().isoformat()]. *)
Record violation : Type := mk_violation {
  v_category : str;
  v_reason : str;
  v_timestamp : str
}.

Record ban : Type := mk_ban {
  b_reason : str;
  b_timestamp : str
}.

Record message : Type := mk_message {
  message_id : Z;
  text : str;
  chat_id : option Z;
  timestamp : str
}.

(** What a file holds: a JSON object whose keys are user identifiers, or
    something [json.load] cannot read (the file is missing, unreadable or
    not JSON).  The files are written by this class only, so the values of
    a readable file have the shape the class gives them. *)
Inductive file (V : Type) : Type :=
| Valid (d : gmap str V)
| Broken.

Arguments Valid {V} d.
Arguments Broken {V}.

(** The fields [violations_file], [bans_file] and [messages_file] name the
    files; the model keeps what the files hold. *)
Record Storage : Type := mk_storage {
  violations_file : file (list violation);
  bans_file : file ban;
  messages_file : file (list message)
}.

(** [__init__] with [_ensure_files] in a directory without files. *)
Definition init : Storage := mk_storage (Valid ∅) (Valid ∅) (Valid ∅).

(** [_load_json]: any exception gives the empty dictionary. *)
Definition _load_json {V} (f : file V) : gmap str V :=
  match f with
  | Valid d => d
  | Broken => ∅
  end.

(** What happens in [_save_json], where every exception is printed and
    dropped: the data is written; or [open] raises and the file is left as
    it was; or the writing raises after [open] emptied the file, which
    leaves no readable JSON. *)
Inductive saving : Type :=
| Written
| Refused
| Torn.

Definition _save_json {V} (w : saving) (f : file V) (data : gmap str V) : file V :=
  match w with
  | Written => Valid data
  | Refused => f
  | Torn => Broken
  end.

(** ** Violations *)

Definition add_violation (self : Storage) (now : str) (w : saving)
    (user_id : Z) (category reason : str) : Storage * nat :=
  let violations := _load_json (violations_file self) in
  let user_id_str := str_of_int user_id in
  let violations :=
    match violations !! user_id_str with
    | Some _ => violations
    | None => <[user_id_str := []]> violations
    end in
  let entries :=
    default [] (violations !! user_id_str) ++ [mk_violation category reason now] in
  let violations := <[user_id_str := entries]> violations in
  (mk_storage (_save_json w (violations_file self) violations)
              (bans_file self) (messages_file self),
   List.length entries).

Definition get_violation_count (self : Storage) (user_id : Z) : nat :=
  match _load_json (violations_file self) !! str_of_int user_id with
  | Some entries => List.length entries
  | None => 0
  end.

Definition get_violations (self : Storage) (user_id : Z) : list violation :=
  default [] (_load_json (violations_file self) !! str_of_int user_id).

(** The file is saved only when the user has an entry. *)
Definition clear_violations (self : Storage) (w : saving) (user_id : Z)
    : Storage :=
  let violations := _load_json (violations_file self) in
  let user_id_str := str_of_int user_id in
  match violations !! user_id_str with
  | Some _ =>
    mk_storage (_save_json w (violations_file self) (delete user_id_str violations))
               (bans_file self) (messages_file self)
  | None => self
  end.

(** ** Bans *)

Definition ban_user (self : Storage) (now : str) (w : saving) (user_id : Z)
    (reason : str) : Storage :=
  let bans := _load_json (bans_file self) in
  mk_storage (violations_file self)
             (_save_json w (bans_file self)
                         (<[str_of_int user_id := mk_ban reason now]> bans))
             (messages_file self).

Definition unban_user (self : Storage) (w : saving) (user_id : Z) : Storage :=
  let bans := _load_json (bans_file self) in
  let user_id_str := str_of_int user_id in
  match bans !! user_id_str with
  | Some _ =>
    mk_storage (violations_file self)
               (_save_json w (bans_file self) (delete user_id_str bans))
               (messages_file self)
  | None => self
  end.

Definition is_banned (self : Storage) (user_id : Z) : bool :=
  match _load_json (bans_file self) !! str_of_int user_id with
  | Some _ => true
  | None => false
  end.

(** Every entry that [ban_user] writes has the key [reason], so the
    default of [.get("reason", ...)] is not used. *)
Definition get_ban_reason (self : Storage) (user_id : Z) : option str :=
  match _load_json (bans_file self) !! str_of_int user_id with
  | Some b => Some (b_reason b)
  | None => None
  end.

(** ** Messages *)

Definition add_message (self : Storage) (now : str) (w : saving) (user_id : Z)
    (message_id : Z) (text : str) (chat_id : option Z) : Storage :=
  let messages := _load_json (messages_file self) in
  let user_id_str := str_of_int user_id in
  let messages :=
    match messages !! user_id_str with
    | Some _ => messages
    | None => <[user_id_str := []]> messages
    end in
  let entries :=
    default [] (messages !! user_id_str)
    ++ [mk_message message_id text chat_id now] in
  mk_storage (violations_file self) (bans_file self)
             (_save_json w (messages_file self)
                         (<[user_id_str := entries]> messages)).

(** The slice [l[-limit:]]: a negative start counts from the end, [-0] is
    the start of the list, and a negative [limit] gives a positive
    start. *)
Definition slice_from_neg {A} (limit : Z) (l : list A) : list A :=
  if (0 <? limit)%Z then skipn (List.length l - Z.to_nat limit) l
  else skipn (Z.to_nat (- limit)) l.

Definition get_user_messages (self : Storage) (user_id : Z) (limit : Z)
    : list message :=
  match _load_json (messages_file self) !! str_of_int user_id with
  | Some entries => slice_from_neg limit entries
  | None => []
  end.

Definition clear_messages (self : Storage) (w : saving) (user_id : Z) : Storage :=
  let messages := _load_json (messages_file self) in
  let user_id_str := str_of_int user_id in
  match messages !! user_id_str with
  | Some _ =>
    mk_storage (violations_file self) (bans_file self)
               (_save_json w (messages_file self) (delete user_id_str messages))
  | None => self
  end.

End Storage.

(* ===================================================================== *)
(** * agents/agent_alternatives.py: the cache *)
(* ===================================================================== *)

Module LRU.
Import Py.

(** [self.cache] is an [OrderedDict], listed from the first entry to the
    last one. *)
Record LRUCache (V : Type) : Type := mk_cache {
  cache : list (str * V);
  maxsize : Z
}.

Arguments mk_cache {V} cache maxsize.
Arguments cache {V} l.
Arguments maxsize {V} l.

Definition init {V} (maxsize : Z) : LRUCache V := mk_cache [] maxsize.

(** [self.cache[key]] when the key is there. *)
Fixpoint lookup {V} (key : str) (d : list (str * V)) : option V :=
  match d with
  | [] => None
  | (k, v) :: d' => if eqb_str key k then Some v else lookup key d'
  end.

Definition without {V} (key : str) (d : list (str * V)) : list (str * V) :=
  List.filter (fun kv => negb (eqb_str key (fst kv))) d.

(** [OrderedDict.move_to_end(key)] for a key of the dictionary. *)
Definition move_to_end {V} (key : str) (d : list (str * V)) : list (str * V) :=
  match lookup key d with
  | Some v => without key d ++ [(key, v)]
  | None => d
  end.

(** [d[key] = value]: a key of the dictionary keeps its place, a new key
    goes to the end. *)
Fixpoint assign {V} (key : str) (value : V) (d : list (str * V)) : list (str * V) :=
  match d with
  | [] => [(key, value)]
  | (k, v) :: d' =>
    if eqb_str key k then (key, value) :: d' else (k, v) :: assign key value d'
  end.

(** [__contains__] *)
Definition contains_key {V} (self : LRUCache V) (key : str) : bool :=
  match lookup key (cache self) with
  | Some _ => true
  | None => false
  end.

(** [get], with the cache after the call. *)
Definition get {V} (self : LRUCache V) (key : str) : LRUCache V * option V :=
  match lookup key (cache self) with
  | Some v => (mk_cache (move_to_end key (cache self)) (maxsize self), Some v)
  | None => (self, None)
  end.

(** [put]; [popitem(last=False)] removes the first entry. *)
Definition put {V} (self : LRUCache V) (key : str) (value : V) : LRUCache V :=
  let d :=
    match lookup key (cache self) with
    | Some _ => move_to_end key (cache self)
    | None => cache self
    end in
  let d := assign key value d in
  if (maxsize self <? Z.of_nat (List.length d))%Z
  then mk_cache (tl d) (maxsize self)
  else mk_cache d (maxsize self).

End LRU.

(* ===================================================================== *)
(** * agents/agent_spellchecker.py *)
(* ===================================================================== *)

Module Spellchecker.
Import Py Eff.

Record SpellCheckResult : Type := mk_spell {
  has_errors : bool;
  corrected_text : str;
  details : str
}.

(** What [self.client.generate] does: it raises an exception with a
    message, or it returns the content of the answer, text or [None]. *)
Inductive reply : Type :=
| Raises (msg : str)
| Null
| Text (s : str).

(** The request is the [user_message]; the system prompt is a constant. *)
Definition M : Type -> Type := prog str reply.

Definition user_message (text : str) : str :=
  U "Проверь текст и при необходимости исправь:" ++ [10%N] ++ text.

Definition is_blank (s : str) : bool :=
  match strip s with
  | [] => true
  | _ :: _ => false
  end.

(** [body.split(sep, 1)] when [sep] occurs in [body]: what is before the
    first occurrence and what is after it. *)
Fixpoint split_once (sep : str) (s : str) : option (str * str) :=
  if starts_with sep s then Some ([], skipn (List.length sep) s)
  else
    match s with
    | [] => None
    | c :: s' =>
      match split_once sep s' with
      | Some (before, after) => Some (c :: before, after)
      | None => None
      end
    end.

(** The parsing of a non-empty answer. *)
Definition parse (response : str) : SpellCheckResult :=
  let normalized := strip response in
  if starts_with (U "NO_ERRORS") normalized
  then mk_spell false [] (U "no errors")
  else if starts_with (U "CORRECTED") normalized then
    let body := strip (skipn (List.length (U "CORRECTED")) normalized) in
    match split_once (U "EXPLANATION") body with
    | Some (before, after) => mk_spell true (strip before) (strip after)
    | None => mk_spell true body []
    end
  else mk_spell true normalized (U "parsed fallback").

Definition check_spelling (text : str) : M SpellCheckResult :=
  if is_blank text then Ret (mk_spell false [] (U "empty input"))
  else
    Call (user_message text)
      (fun r =>
         match r with
         | Raises msg => Ret (mk_spell false [] (U "error: " ++ msg))
         | Null => Ret (mk_spell false [] (U "empty response from LLM"))
         | Text [] => Ret (mk_spell false [] (U "empty response from LLM"))
         | Text response => Ret (parse response)
         end).

End Spellchecker.

(* ===================================================================== *)
(** * agents/agent_corrector.py *)
(* ===================================================================== *)

Module Corrector.
Import Py Re.

(** [pattern.sub(repl, s)] for a replacement without group references:
    the non-overlapping matches, left to right, are replaced. *)
Fixpoint sub_from (fuel : nat) (r : re) (repl : str) (prev : option char)
    (s : str) : str :=
  match fuel with
  | 0 => s
  | S fuel' =>
    match match_at r prev s with
    | Some (mt, rest, _) =>
      repl ++
      match mt with
      | [] =>
        match s with
        | c :: s' => c :: sub_from fuel' r repl (Some c) s'
        | [] => []
        end
      | _ :: _ => sub_from fuel' r repl (Some (List.last mt 0%N)) rest
      end
    | None =>
      match s with
      | c :: s' => c :: sub_from fuel' r repl (Some c) s'
      | [] => []
      end
    end
  end.

Definition sub (r : re) (repl : str) (s : str) : str :=
  sub_from (S (List.length s)) r repl None s.

(** The first code point of a literal. *)
Definition chr (s : string) : char := hd 0%N (U s).

(** A letter, and a class of letters, under [re.IGNORECASE]. *)
Definition letter (s : string) : char -> bool := ic (eqb_char (chr s)).
Definition one_of (s : string) : char -> bool :=
  ic (fun c => existsb (eqb_char c) (U s)).

(** [x+] for a letter. *)
Definition some (s : string) : re := Plus true (letter s).

Fixpoint seqs (l : list re) : re :=
  match l with
  | [] => Eps
  | [r] => r
  | r :: l' => Seq r (seqs l')
  end.

(** [\w*] *)
Definition word_tail : re := Star true is_word.

(** [self._profanity_patterns] *)
Definition _profanity_patterns : list (re * str) :=
  [ (seqs [Bnd; some "х"; some "у"; Chr (one_of "йеёя"); word_tail; Bnd],
     U "неуместное выражение");
    (seqs [Bnd; some "п"; some "и"; some "з"; some "д"; word_tail; Bnd],
     U "крайне неприятная ситуация");
    (seqs [Bnd; some "е"; some "б"; some "а"; some "н"; word_tail; Bnd],
     U "очень");
    (seqs [Bnd; some "б"; some "л"; some "я"; Opt (Chr (one_of "дт"));
           word_tail; Bnd],
     U "неприятно");
    (seqs [Bnd; some "с"; some "у"; some "к"; word_tail; Bnd],
     U "досадно");
    (seqs [Bnd; Chr (one_of "ёе"); Chr (letter "б"); Chr (one_of "ао");
           Chr (letter "н"); Bnd],
     U "очень");
    (seqs [Bnd; Chr (letter "х"); Chr (letter "у"); Chr (one_of "йя"); Bnd],
     U "неуместное выражение") ].

(** The class of the masking characters: asterisk, at sign, hash, full stop
    and hyphen. *)
Definition mask (c : char) : bool := existsb (eqb_char c) (U "*@#.-").

(** The letters of [s] with an optional masking character between them. *)
Fixpoint masked (l : list (char -> bool)) : re :=
  match l with
  | [] => Eps
  | [p] => Chr p
  | p :: l' => Seq (Chr p) (Seq (Opt (Chr mask)) (masked l'))
  end.

(** [self._masked_profanity_patterns] *)
Definition _masked_profanity_patterns : list re :=
  [ masked [letter "х"; letter "у"; one_of "йеёя"];
    masked [letter "п"; letter "и"; letter "з"; letter "д"];
    masked [letter "е"; letter "б"; letter "а"; letter "н"];
    masked [letter "б"; letter "л"; letter "я"];
    masked [letter "с"; letter "у"; letter "к"] ].

(** [\bты\b.*\b] followed by the rest of the pattern. *)
Definition attack (rest : re) : re :=
  seqs [Bnd; lit_ic (U "ты"); Bnd; Star true dot; Bnd; rest; Bnd].

(** [self._direct_attack_patterns] *)
Definition _direct_attack_patterns : list re :=
  [ attack (lit_ic (U "идиот"));
    attack (lit_ic (U "дебил"));
    attack (seqs [lit_ic (U "туп"); Chr (one_of "ои"); Chr (letter "й")]);
    attack (lit_ic (U "не понимаешь"));
    attack (lit_ic (U "достал")) ].

(** [self._emotional_words] *)
Definition _emotional_words : list (str * str) :=
  [ (U "бесит", U "Это вызывает раздражение");
    (U "жесть", U "Ситуация выглядит напряжённой");
    (U "кошмар", U "Ситуация выглядит крайне неприятной");
    (U "ерунда", U "Это выглядит не совсем корректно");
    (U "чушь", U "Это вызывает сомнения");
    (U "ненавижу", U "Мне это не нравится");
    (U "глупо", U "Это не совсем логично") ].

(** The class has no [__init__]: the four tables are attributes only once
    the method [init] was called. *)
Inductive CorrectorAgent : Type :=
| Bare
| Initialised.

(** [CorrectorAgent()] *)
Definition new : CorrectorAgent := Bare.

(** The method [init]. *)
Definition init (self : CorrectorAgent) : CorrectorAgent := Initialised.

Record CorrectionResult : Type := mk_correction { text : str }.

(** A call returns a value or raises an exception with a message. *)
Inductive outcome (A : Type) : Type :=
| Returns (a : A)
| Raised (msg : str).

Arguments Returns {A} a.
Arguments Raised {A} msg.

(** The message of the [AttributeError] for a missing attribute. *)
Definition no_attribute (name : str) : str :=
  U "'CorrectorAgent' object has no attribute '" ++ name ++ U "'".

(** [_add_punctuation] *)
Definition ends_sentence : re :=
  Seq (Chr (fun c => existsb (eqb_char c) (U ".!?"))) Eos.

Definition _add_punctuation (text : str) : str :=
  let text := strip text in
  match text with
  | [] => []
  | _ :: _ => if found ends_sentence text then text else text ++ U "."
  end.

(** The two loops of [_check_profanity] thread [(result, detected)]; the
    patterns are searched in the text as it was given. *)
Definition profanity_loop (text : str) (acc : str * bool) : str * bool :=
  fold_left
    (fun '(result, detected) '(pattern, replacement) =>
       if found pattern text then (sub pattern replacement result, true)
       else (result, detected))
    _profanity_patterns acc.

Definition masked_loop (text : str) (acc : str * bool) : str * bool :=
  fold_left
    (fun '(result, detected) pattern =>
       if found pattern text
       then (sub pattern (U "неуместное выражение") result, true)
       else (result, detected))
    _masked_profanity_patterns acc.

Definition rephrased : str :=
  U "Сообщение было переформулировано из-за резкой лексики".

(** [_check_profanity] on an initialised agent; [None] is the value
    [None]. *)
Definition _check_profanity (text : str) : option str :=
  let '(result, detected) := masked_loop text (profanity_loop text (text, false)) in
  if negb detected then None
  else if eqb_str (lower (strip result)) (lower (strip text)) then Some rephrased
  else Some result.

Definition _is_direct_attack (text : str) : bool :=
  existsb (fun pattern => found pattern (lower text)) _direct_attack_patterns.

(** [re.findall(r'\b\w+\b', text.lower())] *)
Definition words_re : re := seqs [Bnd; Plus true is_word; Bnd].

Fixpoint first_emotional (words : list str) : option str :=
  match words with
  | [] => None
  | word :: rest =>
    match Moderator.dict_get word _emotional_words with
    | Some v => Some v
    | None => first_emotional rest
    end
  end.

Definition _check_emotional_words (text : str) : option str :=
  first_emotional (findall words_re (lower text)).

(** [correct].  On an agent without the tables the first statement that
    reads one, the [for] of [_check_profanity], raises. *)
Definition correct (self : CorrectorAgent) (text : str)
    : outcome CorrectionResult :=
  match strip text with
  | [] => Returns (mk_correction [])
  | _ :: _ =>
    let normalized := strip text in
    match self with
    | Bare => Raised (no_attribute (U "_profanity_patterns"))
    | Initialised =>
      match _check_profanity normalized with
      | Some ((_ :: _) as profanity_result) =>
        Returns (mk_correction (_add_punctuation profanity_result))
      | _ =>
        if _is_direct_attack normalized
        then Returns (mk_correction (U "Похоже, возникло недопонимание."))
        else if starts_with (U "ты ") (lower normalized)
                || starts_with (U "ты,") (lower normalized)
        then Returns (mk_correction
                        (U "Кажется, у нас разные взгляды на эту ситуацию."))
        else
          match _check_emotional_words normalized with
          | Some ((_ :: _) as emotional_result) =>
            Returns (mk_correction (_add_punctuation emotional_result))
          | _ => Returns (mk_correction (_add_punctuation normalized))
          end
      end
    end
  end.

End Corrector.

(* ===================================================================== *)
(** * agents/corrector_adapter.py *)
(* ===================================================================== *)

Module CorrectorAdapter.
Import Py Corrector.

Record CorrectionResult : Type := mk_result {
  success : bool;
  corrected_text : str;
  message : str
}.

(** The [try] body and its [except Exception] handler. *)
Definition correct_with_adapter (corrector : CorrectorAgent) (text : str)
    : CorrectionResult :=
  match correct corrector text with
  | Returns result =>
    let corrected := strip (Corrector.text result) in
    let original := strip text in
    if Moderator.is_empty corrected || eqb_str corrected original
    then mk_result false text (U "Текст не требует исправлений")
    else mk_result true corrected []
  | Raised msg => mk_result false text (U "Ошибка корректора: " ++ msg)
  end.

End CorrectorAdapter.

(* ===================================================================== *)
(** * Programs over several kinds of events *)
(* ===================================================================== *)

Module Act.

(** A computation that returns an [A] after events of the family [E]; an
    event [e : E X] is answered by an [X]. *)
Inductive prog (E : Type -> Type) (A : Type) : Type :=
| Ret (a : A)
| Vis (X : Type) (e : E X) (k : X -> prog E A).

Arguments Ret {E A} a.
Arguments Vis {E A X} e k.

Fixpoint bind {E A B} (p : prog E A) (f : A -> prog E B) : prog E B :=
  match p with
  | Ret a => f a
  | Vis e k => Vis e (fun x => bind (k x) f)
  end.

(** An event that happened, with its answer. *)
Inductive step (E : Type -> Type) : Type :=
| Step (X : Type) (e : E X) (x : X).

Arguments Step {E X} e x.

(** The run in a world [h], which sees the number of earlier events and
    the event; the result comes with the events in the order they
    happened. *)
Fixpoint run {E A} (h : forall X : Type, nat -> E X -> X) (n : nat)
    (p : prog E A) : A * list (step E) :=
  match p with
  | Ret a => (a, [])
  | Vis e k =>
    let x := h _ n e in
    let '(a, tr) := run h (S n) (k x) in
    (a, Step e x :: tr)
  end.

(** A program of [Eff] whose requests become events. *)
Fixpoint lift {E Q R A} (f : Q -> E R) (p : Eff.prog Q R A) : prog E A :=
  match p with
  | Eff.Ret a => Ret a
  | Eff.Call q k => Vis (f q) (fun r => lift f (k r))
  end.

(** How an awaited call of the Telegram API ends: it returns, or it raises
    an exception. *)
Inductive answer : Type :=
| Done
| Failed.

(** How a handler ends. *)
Inductive ending : Type :=
| Returned
| Raised.

End Act.

(* ===================================================================== *)
(** * test/handlers/message.py *)
(* ===================================================================== *)

Module Handlers.
Import Py Models Act.

(** What the handler reads of an update: [update.message.text],
    [update.effective_chat.id] and [update.effective_user.id]; [None] where
    the object is missing. *)
Record Update : Type := mk_update {
  text : option str;
  chat_id : option Z;
  user_id : option Z
}.

(** The replies, by their template and the values written into it. *)
Inductive notice : Type :=
| CriticalNotice (violations : list RKNViolation)
| HighRiskNotice (reasons : list str)
| MediumRiskNotice (risk_level : str) (final_score : F64.float).

Inductive event : Type -> Type :=
| analyze_toxicity (text : str) : event llm_result
| delete : event answer
| reply_text (n : notice) : event answer
| sleep (seconds : nat) : event unit
| delete_reply : event answer.

Record MessageHandler1 : Type := mk_handler {
  analyzer : MultiLevel.MultiLevelAnalyzer
}.

(** The [try] body of [_handle_critical_violation]; its handler only
    logs. *)
Definition _handle_critical_violation (analysis : AnalysisResult)
    : prog event unit :=
  Vis delete
    (fun r =>
       match r with
       | Failed => Ret tt
       | Done =>
         Vis (reply_text (CriticalNotice (rkn_violations analysis)))
           (fun r =>
              match r with
              | Failed => Ret tt
              | Done => Vis (sleep 30) (fun _ => Vis delete_reply (fun _ => Ret tt))
              end)
       end).

(** The two other handlers await the reply outside any [try]. *)
Definition _handle_high_risk (analysis : AnalysisResult) : prog event ending :=
  Vis (reply_text (HighRiskNotice (map reason (contextual_violations analysis))))
    (fun r => match r with Done => Ret Returned | Failed => Ret Raised end).

Definition _handle_medium_risk (analysis : AnalysisResult) : prog event ending :=
  Vis (reply_text (MediumRiskNotice (risk_level analysis) (final_score analysis)))
    (fun r => match r with Done => Ret Returned | Failed => Ret Raised end).

(** [handle_message]; the calls of [logging] are left out.  A missing
    object raises an [AttributeError] before anything is done. *)
Definition handle_message (self : MessageHandler1) (update : Update)
    : prog event ending :=
  match text update, chat_id update, user_id update with
  | Some user_text, Some chat_id, Some user_id =>
    if starts_with (U "/") user_text then Ret Returned
    else
      bind (lift analyze_toxicity
                 (MultiLevel.analyze (analyzer self) user_text chat_id user_id))
        (fun analysis =>
           if F64.leb (F64.dec 9 10) (final_score analysis)
           then Vis delete (fun _ => Ret Returned)
           else if eqb_str (risk_level analysis) (U "critical")
           then bind (_handle_critical_violation analysis) (fun _ => Ret Returned)
           else if eqb_str (risk_level analysis) (U "high")
           then _handle_high_risk analysis
           else if eqb_str (risk_level analysis) (U "medium")
                   && F64.ltb (F64.dec 7 10) (final_score analysis)
           then _handle_medium_risk analysis
           else Ret Returned)
  | _, _, _ => Ret Raised
  end.

End Handlers.

(* ===================================================================== *)
(** * main.py *)
(* ===================================================================== *)

Module Bot.
Import Py Act.

(** ** The objects of the Telegram library, as far as the handlers read
    them *)

Record User : Type := mk_user {
  id : Z;
  username : option str;
  first_name : str
}.

Record Message : Type := mk_message {
  text : option str;
  from_user : option User;
  chat_id : Z;
  message_id : Z
}.

Record CallbackQuery : Type := mk_query {
  data : option str
}.

Record Update : Type := mk_update {
  message : option Message;
  callback_query : option CallbackQuery
}.

(** [user.username or user.first_name] *)
Definition display_name (u : User) : str :=
  match username u with
  | Some ((_ :: _) as name) => name
  | _ => first_name u
  end.

(** ** The events *)

(** The texts the bot sends, by their template and the values written
    into it. *)
Inductive notice : Type :=
| BanNotice (reason : option str)
| SpamNotice (similarity : Q)
| ProcessingError
| SpellSuggestion (corrected_text : str)
| RegistryNotice
| ViolationWarning (reason : str) (violation_count : nat) (banned : bool)
| CorrectionOffer (name reason : str) (message_id user_id : Z)
| LinksOffer (link : str)
| AdminsOnly
| UnbanUsage
| BadUserId (arg : str)
| NotBanned (target : Z)
| Unbanned (target : Z) (ban_reason : option str)
| UnbanError
| OriginalNotFound
| Corrected (corrected_text : str)
| NotCorrected (message : str)
| CorrectionError.

Inductive file_name : Type :=
| ViolationsFile
| BansFile
| MessagesFile.

(** The calls of the language model by the two agents, the awaited calls
    of the Telegram API, the clock and the writing of a file. *)
Inductive event : Type -> Type :=
| generate_moderator (q : Moderator.request) : event Moderator.reply
| generate_spellchecker (user_message : str) : event Spellchecker.reply
| reply_text (n : notice) : event answer
| delete : event answer
| send_message (chat_id : Z) (n : notice) (reply_to_message_id : option Z)
    : event answer
| get_chat_member (chat_id user_id : Z) : event (option str)
| answer_query : event answer
| edit_message_text (n : notice) : event answer
| now_isoformat : event str
| save (f : file_name) : event Storage.saving.

(** ** The bot *)

(** [max_violations] is [MAX_VIOLATIONS_FOR_BAN] of [config/settings.py],
    3 unless the environment says otherwise. *)
Record ModerationBot : Type := mk_bot {
  moderator : Moderator.ModeratorAgent;
  corrector : Corrector.CorrectorAgent;
  spam_detector : Spam.SpamDetectorAgent;
  storage : Storage.Storage;
  max_violations : Z
}.

(** [ModerationBot()] for a registry file, in a directory without files. *)
Definition new (registry : option (list str)) : ModerationBot :=
  mk_bot (Moderator._load_inoagents registry) Corrector.new
         (Spam.init Spam.MESSAGE_HISTORY_SIZE Spam.SPAM_SIMILARITY_THRESHOLD)
         Storage.init 3.

Definition with_storage (self : ModerationBot) (s : Storage.Storage)
    : ModerationBot :=
  mk_bot (moderator self) (corrector self) (spam_detector self) s
         (max_violations self).

(** ** The calls of the storage that write a file *)

Definition add_violation (s : Storage.Storage) (user_id : Z)
    (category reason : str) : prog event (Storage.Storage * nat) :=
  Vis now_isoformat
    (fun t => Vis (save ViolationsFile)
       (fun w => Ret (Storage.add_violation s t w user_id category reason))).

Definition ban_user (s : Storage.Storage) (user_id : Z) (reason : str)
    : prog event Storage.Storage :=
  Vis now_isoformat
    (fun t => Vis (save BansFile)
       (fun w => Ret (Storage.ban_user s t w user_id reason))).

Definition add_message (s : Storage.Storage) (user_id message_id : Z)
    (text : str) (chat_id : Z) : prog event Storage.Storage :=
  Vis now_isoformat
    (fun t => Vis (save MessagesFile)
       (fun w => Ret (Storage.add_message s t w user_id message_id text
                                          (Some chat_id)))).

(** These two save only when the user has an entry. *)
Definition unban_user (s : Storage.Storage) (user_id : Z)
    : prog event Storage.Storage :=
  if Storage.is_banned s user_id
  then Vis (save BansFile) (fun w => Ret (Storage.unban_user s w user_id))
  else Ret s.

Definition clear_violations (s : Storage.Storage) (user_id : Z)
    : prog event Storage.Storage :=
  match Storage._load_json (Storage.violations_file s)
        !! Storage.str_of_int user_id with
  | Some _ =>
    Vis (save ViolationsFile) (fun w => Ret (Storage.clear_violations s w user_id))
  | None => Ret s
  end.

(** ** [process_message] *)

(** The [except Exception] handler of [process_message]: the reply is
    awaited outside any [try]. *)
Definition report_error (self : ModerationBot)
    : prog event (ModerationBot * ending) :=
  Vis (reply_text ProcessingError)
    (fun r =>
       match r with
       | Done => Ret (self, Returned)
       | Failed => Ret (self, Raised)
       end).

(** A reply inside the [try] of [process_message], followed by
    [return]. *)
Definition reply_and_return (self : ModerationBot) (n : notice)
    : prog event (ModerationBot * ending) :=
  Vis (reply_text n)
    (fun r =>
       match r with
       | Done => Ret (self, Returned)
       | Failed => report_error self
       end).

(** Step 2.5: the spelling is checked for the categories [CLEAN] and
    [CATEGORY_C]; both [try] blocks only log. *)
Definition spellcheck_step (m : Message) (message_text : str)
    (analysis : Moderator.AnalysisResult) : prog event unit :=
  match Moderator.category analysis with
  | Moderator.CLEAN | Moderator.CATEGORY_C =>
    bind (lift generate_spellchecker (Spellchecker.check_spelling message_text))
      (fun spell =>
         if Spellchecker.has_errors spell
         then Vis (send_message (chat_id m)
                     (SpellSuggestion (Spellchecker.corrected_text spell))
                     (Some (message_id m)))
                  (fun _ => Ret tt)
         else Ret tt)
  | _ => Ret tt
  end.

(** [_handle_links]: [analysis.links[0]] raises on an empty list, inside
    the [try]. *)
Definition _handle_links (analysis : Moderator.AnalysisResult)
    : prog event unit :=
  match Moderator.links analysis with
  | [] => Ret tt
  | link :: _ => Vis (reply_text (LinksOffer link)) (fun _ => Ret tt)
  end.

Definition limit_reason (max_violations : Z) : str :=
  U "Лимит нарушений (" ++ Storage.str_of_int max_violations ++ U ") превышен".

(** [_handle_category_a]: the whole body is in a [try] that only logs. *)
Definition _handle_category_a (self : ModerationBot) (user_id : Z)
    (analysis : Moderator.AnalysisResult) : prog event ModerationBot :=
  bind (add_violation (storage self) user_id (U "CATEGORY_A")
                      (Moderator.reason analysis))
    (fun sc =>
       let violation_count := snd sc in
       Vis delete
         (fun _ =>
            let banned := (max_violations self <=? Z.of_nat violation_count)%Z in
            bind (if banned
                  then ban_user (fst sc) user_id (limit_reason (max_violations self))
                  else Ret (fst sc))
              (fun s =>
                 Vis (send_message user_id
                        (ViolationWarning (Moderator.reason analysis)
                                          violation_count banned)
                        None)
                     (fun _ => Ret (with_storage self s))))).

(** [_handle_category_b] *)
Definition _handle_category_b (self : ModerationBot) (m : Message) (u : User)
    (analysis : Moderator.AnalysisResult) : prog event ModerationBot :=
  bind (add_violation (storage self) (id u) (U "CATEGORY_B")
                      (Moderator.reason analysis))
    (fun sc =>
       let self := with_storage self (fst sc) in
       Vis (reply_text (CorrectionOffer (display_name u)
                          (lower (Moderator.reason analysis))
                          (message_id m) (id u)))
         (fun r =>
            match r with
            | Failed => Ret self
            | Done =>
              if Moderator.has_links analysis
                 && negb (Moderator.is_empty_list (Moderator.links analysis))
              then bind (_handle_links analysis) (fun _ => Ret self)
              else Ret self
            end)).

(** Step 3: the handling by category. *)
Definition dispatch (self : ModerationBot) (m : Message) (u : User)
    (analysis : Moderator.AnalysisResult) : prog event (ModerationBot * ending) :=
  match Moderator.category analysis with
  | Moderator.CATEGORY_A =>
    bind (_handle_category_a self (id u) analysis)
         (fun self => Ret (self, Returned))
  | Moderator.CATEGORY_B =>
    bind (_handle_category_b self m u analysis)
         (fun self => Ret (self, Returned))
  | Moderator.CATEGORY_C =>
    Vis (send_message (chat_id m) RegistryNotice (Some (message_id m)))
        (fun _ => Ret (self, Returned))
  | _ =>
    if Moderator.has_links analysis
    then bind (_handle_links analysis) (fun _ => Ret (self, Returned))
    else Ret (self, Returned)
  end.

(** What follows the analysis: the spelling, the two histories, the
    handling by category. *)
Definition after_analysis (self : ModerationBot) (m : Message) (u : User)
    (message_text : str) (analysis : Moderator.AnalysisResult)
    : prog event (ModerationBot * ending) :=
  bind (spellcheck_step m message_text analysis)
    (fun _ =>
       let detector :=
         Spam.add_message (spam_detector self) message_text (Some (id u)) in
       bind (add_message (storage self) (id u) (message_id m) message_text
                         (chat_id m))
         (fun s =>
            dispatch (mk_bot (moderator self) (corrector self) detector s
                             (max_violations self))
                     m u analysis)).

(** [process_message]; the calls of the logger and of [print] are left
    out. *)
Definition process_message (self : ModerationBot) (update : Update)
    : prog event (ModerationBot * ending) :=
  match message update with
  | None => Ret (self, Returned)
  | Some m =>
    match text m with
    | None | Some [] => Ret (self, Returned)
    | Some message_text =>
      match from_user m with
      | None => report_error self
      | Some u =>
        if Storage.is_banned (storage self) (id u)
        then reply_and_return self
               (BanNotice (Storage.get_ban_reason (storage self) (id u)))
        else
          let is_spam :=
            snd (Spam.check_spam (spam_detector self) message_text (Some (id u))) in
          if Spam.is_spam is_spam
          then reply_and_return self (SpamNotice (Spam.similarity_score is_spam))
          else
            bind (lift generate_moderator
                       (Moderator.analyze_message (moderator self) message_text None))
                 (after_analysis self m u message_text)
      end
    end
  end.

(** ** The commands and the callback that parse a number *)

Section Parsing.

(** The builtin [int] on a string; [None] is its [ValueError]. *)
Variable int : str -> option Z.

(** [is_admin] *)
Definition is_admin (update : Update) : prog event bool :=
  match message update with
  | None => Ret false
  | Some m =>
    match from_user m with
    | None => Ret false
    | Some u =>
      Vis (get_chat_member (chat_id m) (id u))
        (fun r =>
           match r with
           | Some status =>
             Ret (eqb_str status (U "administrator") || eqb_str status (U "creator"))
           | None => Ret false
           end)
    end
  end.

(** The [except Exception] handler of [unban_command]. *)
Definition report_unban_error (self : ModerationBot)
    : prog event (ModerationBot * ending) :=
  Vis (reply_text UnbanError)
    (fun r =>
       match r with
       | Done => Ret (self, Returned)
       | Failed => Ret (self, Raised)
       end).

Definition say (self : ModerationBot) (n : notice)
    : prog event (ModerationBot * ending) :=
  Vis (reply_text n)
    (fun r =>
       match r with
       | Done => Ret (self, Returned)
       | Failed => report_unban_error self
       end).

(** [unban_command]; [args] is [context.args].  Without a message every
    reply raises an [AttributeError], also the one of the handler. *)
Definition unban_command (self : ModerationBot) (update : Update)
    (args : list str) : prog event (ModerationBot * ending) :=
  match message update with
  | None => Ret (self, Raised)
  | Some m =>
    bind (is_admin update)
      (fun admin =>
         if negb admin then say self AdminsOnly
         else
           match args with
           | [] => say self UnbanUsage
           | arg :: _ =>
             match int arg with
             | None => say self (BadUserId arg)
             | Some target_user_id =>
               if negb (Storage.is_banned (storage self) target_user_id)
               then say self (NotBanned target_user_id)
               else
                 let ban_reason :=
                   Storage.get_ban_reason (storage self) target_user_id in
                 bind (unban_user (storage self) target_user_id)
                   (fun s =>
                      bind (clear_violations s target_user_id)
                        (fun s =>
                           let self := with_storage self s in
                           match from_user m with
                           | None => report_unban_error self
                           | Some _ =>
                             say self (Unbanned target_user_id ban_reason)
                           end))
             end
           end)
  end.

(** The [except Exception] handler of [handle_correct_callback]. *)
Definition report_correction_error : prog event ending :=
  Vis (edit_message_text CorrectionError)
    (fun r =>
       match r with
       | Done => Ret Returned
       | Failed => Ret Raised
       end).

Definition edit (n : notice) : prog event ending :=
  Vis (edit_message_text n)
    (fun r =>
       match r with
       | Done => Ret Returned
       | Failed => report_correction_error
       end).

(** [handle_correct_callback]: the text corrected is the last stored
    message of the user named in the data of the button. *)
Definition handle_correct_callback (self : ModerationBot) (update : Update)
    : prog event ending :=
  match callback_query update with
  | None => Ret Raised
  | Some query =>
    Vis answer_query
      (fun r =>
         match r with
         | Failed => report_correction_error
         | Done =>
           match data query with
           | None => report_correction_error
           | Some d =>
             let data_parts := split_char 95%N d in
             if List.length data_parts <? 3 then Ret Returned
             else
               match int (nth 2 data_parts []) with
               | None => report_correction_error
               | Some user_id =>
                 match Storage.get_user_messages (storage self) user_id 1 with
                 | [] => edit OriginalNotFound
                 | m0 :: ms =>
                   let original_text := Storage.text (List.last ms m0) in
                   let result :=
                     CorrectorAdapter.correct_with_adapter (corrector self)
                                                           original_text in
                   if CorrectorAdapter.success result
                   then edit (Corrected (CorrectorAdapter.corrected_text result))
                   else edit (NotCorrected (CorrectorAdapter.message result))
                 end
               end
           end
         end)
  end.

End Parsing.

End Bot.
(* ===================================================================== *)
(** * Facts about the SequenceMatcher model *)
(* ===================================================================== *)

Module DifflibFacts.
Import Py Difflib.

(** [a[i:i+k] == b[j:j+k]], position by position. *)
Definition agree (a b : str) (i j k : nat) : Prop :=
  forall t, t < k -> nth (i + t) a 0%N = nth (j + t) b 0%N.

(** A match inside the window [alo:ahi] x [blo:bhi]. *)
Definition valid (a b : str) (alo ahi blo bhi : nat) (m : Match) : Prop :=
  let '(i, j, k) := m in
  alo <= i /\ i + k <= ahi /\ blo <= j /\ j + k <= bhi /\ agree a b i j k.

(** What a [j2len] dictionary says when row [i] is about to be scanned:
    every entry is a common run that ends at [a[i-1]] and [b[j]]. *)
Definition row_ok (a b : str) (alo blo bhi i : nat) (d : j2len_t) : Prop :=
  forall j, 0 < d j ->
    d j <= i - alo /\ d j <= j + 1 - blo /\ j < bhi /\
    forall t, t < d j -> nth (i - 1 - t) a 0%N = nth (j - t) b 0%N.

Lemma positions_from_spec x b s j :
  In j (positions_from x b s) <->
  s <= j /\ j - s < List.length b /\ nth (j - s) b 0%N = x.
Proof.
  revert s. induction b as [|y b IH]; intros s.
  - simpl. split; [tauto | lia].
  - assert (Hstep : s < j ->
      (S s <= j /\ j - S s < List.length b /\ nth (j - S s) b 0%N = x) <->
      (s <= j /\ j - s < List.length (y :: b) /\ nth (j - s) (y :: b) 0%N = x)).
    { intros Hlt. replace (j - s) with (S (j - S s)) by lia. simpl. split.
      - intros (H1 & H2 & H3). repeat split; try lia; try assumption.
      - intros (H1 & H2 & H3). repeat split; try lia; try assumption. }
    cbn [positions_from]. unfold eqb_char.
    destruct (N.eqb_spec x y) as [->|Hne].
    + cbn [In]. rewrite IH. split.
      * intros [<-|H].
        -- replace (s - s) with 0 by lia. simpl. repeat split; try lia; try reflexivity.
        -- apply Hstep; [lia | assumption].
      * intros H. destruct (Nat.eq_dec s j) as [->|Hsj]; [now left|].
        right. apply Hstep; [lia | assumption].
    + rewrite IH. split.
      * intros H. apply Hstep; [lia | assumption].
      * intros H. destruct (Nat.eq_dec s j) as [->|Hsj].
        -- destruct H as (_ & _ & H). replace (j - j) with 0 in H by lia.
           simpl in H. congruence.
        -- apply Hstep; [lia | assumption].
Qed.

Lemma b2j_spec b x j : In j (b2j b x) -> j < List.length b /\ nth j b 0%N = x.
Proof.
  unfold b2j. destruct (popular b x); [intros []|].
  intros H. apply positions_from_spec in H.
  replace (j - 0) with j in H by lia. tauto.
Qed.

(** Closes a goal [nth x a d = nth y b d] from a hypothesis of the same
    shape whose indices are equal to [x] and [y] by linear arithmetic. *)
Ltac nth_eq H :=
  match type of H with
  | nth ?u ?a ?d = nth ?v ?b ?d' =>
    match goal with
    | |- nth ?x a d = nth ?y b d' =>
      replace x with u by lia; replace y with v by lia; exact H
    end
  end.

Section Soundness.
Variables a b : str.
Variables alo ahi blo bhi : nat.

Lemma row_ok_empty i : row_ok a b alo blo bhi i j2len_empty.
Proof. intros j H. unfold j2len_empty in H. lia. Qed.

Lemma scan_row_sound js i d nd best :
  alo <= i -> i < ahi ->
  (forall j, In j js -> nth j b 0%N = nth i a 0%N) ->
  row_ok a b alo blo bhi i d ->
  row_ok a b alo blo bhi (S i) nd ->
  valid a b alo ahi blo bhi best ->
  row_ok a b alo blo bhi (S i) (fst (scan_row js blo bhi i d nd best)) /\
  valid a b alo ahi blo bhi (snd (scan_row js blo bhi i d nd best)).
Proof.
  intros Hlo Hhi. revert nd best.
  induction js as [|j js IH]; intros nd best Hjs Hd Hnd Hbest; simpl; [tauto|].
  destruct (Nat.ltb_spec j blo) as [Hjlo|Hjlo].
  { apply IH; auto. intros; apply Hjs; now right. }
  destruct (Nat.leb_spec bhi j) as [Hjhi|Hjhi]; [simpl; tauto|].
  assert (Hij : nth i a 0%N = nth j b 0%N) by (symmetry; apply Hjs; now left).
  set (k := j2len_prev d j + 1).
  assert (Hk : 0 < k /\ k <= S i - alo /\ k <= j + 1 - blo /\
               forall t, t < k -> nth (i - t) a 0%N = nth (j - t) b 0%N).
  { subst k. destruct j as [|j']; cbn [j2len_prev].
    - repeat split; try lia. intros t Ht. nth_eq Hij.
    - destruct (Nat.eq_dec (d j') 0) as [E|E].
      + rewrite E. repeat split; try lia. intros t Ht. nth_eq Hij.
      + destruct (Hd j') as (H1 & H2 & H3 & H4); [lia|].
        repeat split; try lia. intros t Ht. destruct t as [|t'].
        * nth_eq Hij.
        * assert (Ht' : t' < d j') by lia. specialize (H4 t' Ht'). nth_eq H4. }
  destruct Hk as (Hk0 & Hk1 & Hk2 & Hk3).
  apply IH.
  - intros; apply Hjs; now right.
  - assumption.
  - intros j' Hj'. unfold j2len_set in *.
    destruct (Nat.eqb_spec j' j) as [E|Hne]; [|now apply Hnd].
    rewrite E. repeat split; try lia. intros t Ht. specialize (Hk3 t Ht). nth_eq Hk3.
  - destruct best as [[bi bj] bs].
    destruct (Nat.ltb_spec bs k); [|assumption].
    unfold valid. repeat split; try lia.
    intros t Ht. assert (Ht' : k - 1 - t < k) by lia.
    specialize (Hk3 _ Ht'). nth_eq Hk3.
Qed.

Lemma scan_rows_sound n : forall i d best,
  alo <= i -> i + n <= ahi ->
  row_ok a b alo blo bhi i d ->
  valid a b alo ahi blo bhi best ->
  valid a b alo ahi blo bhi (scan_rows (seq i n) a b blo bhi d best).
Proof.
  induction n as [|n IH]; intros i d best Hlo Hhi Hd Hbest; simpl; [assumption|].
  destruct (scan_row (b2j b (nth i a 0%N)) blo bhi i d j2len_empty best)
    as [nd best'] eqn:E.
  pose proof (scan_row_sound (b2j b (nth i a 0%N)) i d j2len_empty best) as H.
  rewrite E in H. simpl in H.
  destruct H as [H1 H2]; auto; try lia.
  - intros j Hj. now apply b2j_spec in Hj.
  - apply row_ok_empty.
  - apply IH; auto; lia.
Qed.

Lemma extend_left_sound junk : forall bi bj bs,
  valid a b alo ahi blo bhi (bi, bj, bs) ->
  valid a b alo ahi blo bhi (extend_left junk a b alo blo bi bj bs).
Proof.
  induction bi as [|bi IH]; intros bj bs Hv; cbn [extend_left]; [assumption|].
  match goal with |- context [if ?c then _ else _] => destruct c eqn:E end;
    [|assumption].
  apply andb_true_iff in E as [E E4]. apply andb_true_iff in E as [E _].
  apply andb_true_iff in E as [E1 E2].
  apply Nat.ltb_lt in E1, E2. apply N.eqb_eq in E4.
  apply IH. destruct Hv as (H1 & H2 & H3 & H4 & H5).
  unfold valid. repeat split; try lia.
  intros t Ht. destruct t as [|t].
  - nth_eq E4.
  - assert (Ht' : t < bs) by lia. specialize (H5 t Ht'). nth_eq H5.
Qed.

Lemma extend_right_sound junk : forall room bi bj bs,
  valid a b alo ahi blo bhi (bi, bj, bs) ->
  valid a b alo ahi blo bhi (extend_right junk a b ahi bhi bi bj bs room).
Proof.
  induction room as [|room IH]; intros bi bj bs Hv; cbn [extend_right];
    [assumption|].
  match goal with |- context [if ?c then _ else _] => destruct c eqn:E end;
    [|assumption].
  apply andb_true_iff in E as [E E4]. apply andb_true_iff in E as [E _].
  apply andb_true_iff in E as [E1 E2].
  apply Nat.ltb_lt in E1, E2. apply N.eqb_eq in E4.
  apply IH. destruct Hv as (H1 & H2 & H3 & H4 & H5).
  unfold valid. repeat split; try lia.
  intros t Ht. destruct (Nat.eq_dec t bs) as [->|Hne]; [assumption|].
  apply H5. lia.
Qed.

Lemma extend_sound junk m :
  valid a b alo ahi blo bhi m ->
  valid a b alo ahi blo bhi (extend junk a b alo ahi blo bhi m).
Proof.
  destruct m as [[bi bj] bs]. intros Hv. unfold extend.
  pose proof (extend_left_sound junk bi bj bs Hv) as H.
  destruct (extend_left junk a b alo blo bi bj bs) as [[bi' bj'] bs'].
  now apply extend_right_sound.
Qed.

Lemma find_longest_match_sound :
  alo <= ahi -> blo <= bhi ->
  valid a b alo ahi blo bhi (find_longest_match a b alo ahi blo bhi).
Proof.
  intros Ha Hb. unfold find_longest_match.
  do 2 apply extend_sound. apply scan_rows_sound; try lia.
  - apply row_ok_empty.
  - unfold valid, agree. repeat split; try lia.
Qed.

End Soundness.

(** ** The queue loop of [get_matching_blocks] *)

Definition sa (r : range) : nat := let '(alo, ahi, _, _) := r in ahi - alo.
Definition sb (r : range) : nat := let '(_, _, blo, bhi) := r in bhi - blo.
Definition wf (r : range) : Prop :=
  let '(alo, ahi, blo, bhi) := r in alo <= ahi /\ blo <= bhi.
Definition total (f : range -> nat) (q : list range) : nat :=
  list_sum (map f q).
Definition measure (q : list range) : nat :=
  total (fun r => 2 * sa r + 1) q.

(** The two windows of a queue entry hold the same text. *)
Definition seg_ok (a b : str) (r : range) : Prop :=
  let '(alo, ahi, blo, bhi) := r in
  ahi - alo = bhi - blo /\ agree a b alo blo (ahi - alo).

Lemma total_app f q1 q2 : total f (q1 ++ q2) = total f q1 + total f q2.
Proof. unfold total. now rewrite map_app, list_sum_app. Qed.

Lemma total_cons f r q : total f (r :: q) = f r + total f q.
Proof. reflexivity. Qed.

Lemma sum_sizes_snoc l m : sum_sizes (l ++ [m]) = sum_sizes l + snd m.
Proof. induction l as [|x l IH]; simpl; [lia|]. rewrite IH. lia. Qed.

Section Blocks.
Variables a b : str.

(** The ranges pushed after a match [(i, j, k)] was found in
    [alo:ahi] x [blo:bhi]. *)
Definition pushed (alo ahi blo bhi i j k : nat) : list range :=
  (if (i + k <? ahi) && (j + k <? bhi) then [(i + k, ahi, j + k, bhi)] else [])
  ++ (if (alo <? i) && (blo <? j) then [(alo, i, blo, j)] else []).

Lemma blocks_loop_step fuel alo ahi blo bhi queue acc :
  blocks_loop (S fuel) a b ((alo, ahi, blo, bhi) :: queue) acc =
  let '(i, j, k) := find_longest_match a b alo ahi blo bhi in
  if k =? 0 then blocks_loop fuel a b queue acc
  else blocks_loop fuel a b (pushed alo ahi blo bhi i j k ++ queue)
                   (acc ++ [(i, j, k)]).
Proof.
  cbn [blocks_loop]. destruct (find_longest_match a b alo ahi blo bhi) as [[i j] k].
  destruct (k =? 0); [reflexivity|]. unfold pushed. now rewrite <- app_assoc.
Qed.

Lemma pushed_facts alo ahi blo bhi i j k :
  valid a b alo ahi blo bhi (i, j, k) -> 0 < k ->
  Forall wf (pushed alo ahi blo bhi i j k) /\
  measure (pushed alo ahi blo bhi i j k) <= 2 * (ahi - alo) /\
  k + total sa (pushed alo ahi blo bhi i j k) <= ahi - alo /\
  k + total sb (pushed alo ahi blo bhi i j k) <= bhi - blo.
Proof.
  intros (H1 & H2 & H3 & H4 & _) Hk. unfold pushed, measure, total.
  destruct ((i + k <? ahi) && (j + k <? bhi)) eqn:E1;
  destruct ((alo <? i) && (blo <? j)) eqn:E2; cbn;
  try (apply andb_true_iff in E1 as [E1a E1b]; apply Nat.ltb_lt in E1a, E1b);
  try (apply andb_true_iff in E2 as [E2a E2b]; apply Nat.ltb_lt in E2a, E2b);
  (split; [repeat constructor; lia | lia]).
Qed.

Lemma blocks_loop_terminates_gen : forall fuel queue acc,
  Forall wf queue -> measure queue <= fuel ->
  exists res, blocks_loop fuel a b queue acc = Some res.
Proof.
  induction fuel as [|fuel IH]; intros queue acc Hwf Hm.
  - destruct queue as [|[[[alo ahi] blo] bhi] queue]; [now exists acc|].
    unfold measure, total in Hm. cbn in Hm. lia.
  - destruct queue as [|[[[alo ahi] blo] bhi] queue]; [now exists acc|].
    rewrite blocks_loop_step.
    inversion Hwf as [|r q' Hr Hq]; subst. destruct Hr as [Ha Hb].
    pose proof (find_longest_match_sound a b alo ahi blo bhi Ha Hb) as Hv.
    destruct (find_longest_match a b alo ahi blo bhi) as [[i j] k].
    unfold measure in Hm. rewrite total_cons in Hm. cbn [sa] in Hm.
    fold (measure queue) in Hm.
    destruct (Nat.eqb_spec k 0) as [->|Hk].
    + apply IH; [assumption | lia].
    + destruct (pushed_facts alo ahi blo bhi i j k Hv) as (P1 & P2 & _); [lia|].
      apply IH.
      * apply Forall_app; split; assumption.
      * unfold measure in *. rewrite total_app. lia.
Qed.

(** The loop ends before its fuel does. *)
Lemma blocks_loop_terminates :
  exists res,
    blocks_loop (2 * List.length a + 1) a b
                [(0, List.length a, 0, List.length b)] [] = Some res.
Proof.
  apply blocks_loop_terminates_gen.
  - repeat constructor; lia.
  - unfold measure, total. cbn. lia.
Qed.

Lemma seg_ok_compose alo ahi blo bhi i j k :
  valid a b alo ahi blo bhi (i, j, k) ->
  k + total sa (pushed alo ahi blo bhi i j k) = ahi - alo ->
  k + total sb (pushed alo ahi blo bhi i j k) = bhi - blo ->
  Forall (seg_ok a b) (pushed alo ahi blo bhi i j k) ->
  seg_ok a b (alo, ahi, blo, bhi).
Proof.
  intros (H1 & H2 & H3 & H4 & H5). unfold pushed, total.
  destruct ((i + k <? ahi) && (j + k <? bhi)) eqn:E1;
  destruct ((alo <? i) && (blo <? j)) eqn:E2; cbn; intros Ea Eb Hs.
  - inversion Hs as [|? ? R Hs']; subst; destruct R as [R1 R2].
    inversion Hs' as [|? ? L _]; subst; destruct L as [L1 L2].
    split; [lia|]. intros t Ht.
    destruct (Nat.lt_ge_cases t (i - alo)) as [C|C]; [now apply L2|].
    destruct (Nat.lt_ge_cases t (i - alo + k)) as [C'|C'].
    + assert (Ht' : t - (i - alo) < k) by lia. specialize (H5 _ Ht'). nth_eq H5.
    + assert (Ht' : t - (i - alo + k) < ahi - (i + k)) by lia.
      specialize (R2 _ Ht'). nth_eq R2.
  - inversion Hs as [|? ? R _]; subst; destruct R as [R1 R2].
    split; [lia|]. intros t Ht.
    destruct (Nat.lt_ge_cases t k) as [C'|C'].
    + specialize (H5 _ C'). nth_eq H5.
    + assert (Ht' : t - k < ahi - (i + k)) by lia.
      specialize (R2 _ Ht'). nth_eq R2.
  - inversion Hs as [|? ? L _]; subst; destruct L as [L1 L2].
    split; [lia|]. intros t Ht.
    destruct (Nat.lt_ge_cases t (i - alo)) as [C|C]; [now apply L2|].
    assert (Ht' : t - (i - alo) < k) by lia. specialize (H5 _ Ht'). nth_eq H5.
  - split; [lia|]. intros t Ht.
    assert (Ht' : t < k) by lia. specialize (H5 _ Ht'). nth_eq H5.
Qed.

Lemma blocks_loop_bound : forall fuel queue acc res,
  Forall wf queue ->
  blocks_loop fuel a b queue acc = Some res ->
  sum_sizes res <= sum_sizes acc + total sa queue /\
  sum_sizes res <= sum_sizes acc + total sb queue /\
  (sum_sizes res = sum_sizes acc + total sa queue ->
   sum_sizes res = sum_sizes acc + total sb queue ->
   Forall (seg_ok a b) queue).
Proof.
  induction fuel as [|fuel IH]; intros queue acc res Hwf Hrun.
  - destruct queue as [|[[[alo ahi] blo] bhi] queue]; [|discriminate].
    injection Hrun as <-. unfold total; cbn. repeat split; try lia. constructor.
  - destruct queue as [|[[[alo ahi] blo] bhi] queue].
    { injection Hrun as <-. unfold total; cbn. repeat split; try lia. constructor. }
    rewrite blocks_loop_step in Hrun.
    inversion Hwf as [|r q' Hr Hq]; subst. destruct Hr as [Ha Hb].
    pose proof (find_longest_match_sound a b alo ahi blo bhi Ha Hb) as Hv.
    destruct (find_longest_match a b alo ahi blo bhi) as [[i j] k].
    rewrite !total_cons. cbn [sa sb].
    destruct (Nat.eqb_spec k 0) as [E|Hk]; [subst k|].
    + destruct (IH _ _ _ Hq Hrun) as (B1 & B2 & B3).
      repeat split; try lia. intros E1 E2. constructor.
      * split; [lia|]. intros t Ht. lia.
      * apply B3; lia.
    + destruct (pushed_facts alo ahi blo bhi i j k Hv) as (P1 & _ & P3 & P4); [lia|].
      assert (Hwf' : Forall wf (pushed alo ahi blo bhi i j k ++ queue))
        by (apply Forall_app; split; assumption).
      destruct (IH _ _ _ Hwf' Hrun) as (B1 & B2 & B3).
      rewrite sum_sizes_snoc, !total_app in *. cbn [snd] in *.
      repeat split; try lia. intros E1 E2.
      assert (F : Forall (seg_ok a b) (pushed alo ahi blo bhi i j k ++ queue))
        by (apply B3; lia).
      apply Forall_app in F as [F1 F2]. constructor; [|assumption].
      apply (seg_ok_compose alo ahi blo bhi i j k); auto; lia.
Qed.

(** The matched characters never outnumber either text, and when they
    cover both texts the texts are equal. *)
Lemma matches_bound :
  sum_sizes (get_matching_blocks a b) <= List.length a /\
  sum_sizes (get_matching_blocks a b) <= List.length b /\
  (sum_sizes (get_matching_blocks a b) = List.length a ->
   sum_sizes (get_matching_blocks a b) = List.length b -> a = b).
Proof.
  unfold get_matching_blocks.
  destruct blocks_loop_terminates as [res Hres]. rewrite Hres.
  assert (Hwf : Forall wf [(0, List.length a, 0, List.length b)])
    by (repeat constructor; lia).
  destruct (blocks_loop_bound _ _ _ _ Hwf Hres) as (B1 & B2 & B3).
  unfold total in *. cbn in B1, B2, B3.
  repeat split; try lia. intros E1 E2.
  assert (F : Forall (seg_ok a b) [(0, List.length a, 0, List.length b)])
    by (apply B3; lia).
  inversion F as [|? ? L _]; subst; destruct L as [L1 L2].
  apply (nth_ext a b 0%N 0%N); [lia|].
  intros n Hn. apply (L2 n). lia.
Qed.

End Blocks.

(** ** Comparing a text with itself *)

Lemma positions_from_sorted x b : forall s,
  StronglySorted lt (positions_from x b s).
Proof.
  induction b as [|y b IH]; intros s; cbn [positions_from]; [constructor|].
  destruct (eqb_char x y); [|apply IH].
  constructor; [apply IH|].
  apply List.Forall_forall. intros j Hj. apply positions_from_spec in Hj. lia.
Qed.

Lemma sorted_split (l1 l2 : list nat) i :
  StronglySorted lt (l1 ++ i :: l2) ->
  Forall (fun j => j < i) l1 /\ Forall (fun j => i < j) l2.
Proof.
  induction l1 as [|x l1 IH]; cbn [app]; intros H.
  - inversion H; subst. split; [constructor | assumption].
  - inversion H as [|? ? Hs Hf]; subst. destruct (IH Hs) as [A B].
    split; [|assumption]. constructor; [|assumption].
    apply Forall_app in Hf as [_ Hf]. now inversion Hf.
Qed.

Section Rows.
Variables (blo bhi i : nat) (d : j2len_t).

Lemma scan_row_app l1 l2 : forall nd best,
  Forall (fun j => j < bhi) l1 ->
  scan_row (l1 ++ l2) blo bhi i d nd best =
  scan_row l2 blo bhi i d (fst (scan_row l1 blo bhi i d nd best))
                          (snd (scan_row l1 blo bhi i d nd best)).
Proof.
  induction l1 as [|j l1 IH]; intros nd best Hl; cbn [app scan_row]; [reflexivity|].
  inversion Hl; subst.
  destruct (j <? blo); [now apply IH|].
  destruct (Nat.leb_spec bhi j); [lia|]. now apply IH.
Qed.

Lemma scan_row_keep js : forall nd bi bj bs,
  Forall (fun j => j2len_prev d j + 1 <= bs) js ->
  snd (scan_row js blo bhi i d nd (bi, bj, bs)) = (bi, bj, bs).
Proof.
  induction js as [|j js IH]; intros nd bi bj bs Hl; cbn [scan_row]; [reflexivity|].
  inversion Hl; subst.
  destruct (j <? blo); [now apply IH|].
  destruct (bhi <=? j); [reflexivity|].
  destruct (Nat.ltb_spec bs (j2len_prev d j + 1)); [lia|]. now apply IH.
Qed.

Lemma scan_row_fst js : forall nd best j',
  Forall (fun j => blo <= j /\ j < bhi) js ->
  fst (scan_row js blo bhi i d nd best) j' =
  if existsb (Nat.eqb j') js then j2len_prev d j' + 1 else nd j'.
Proof.
  induction js as [|j js IH]; intros nd best j' Hl; cbn [scan_row existsb];
    [reflexivity|].
  inversion Hl as [|? ? [H1 H2] Hl']; subst.
  destruct (Nat.ltb_spec j blo); [lia|].
  destruct (Nat.leb_spec bhi j); [lia|].
  rewrite IH by assumption. unfold j2len_set.
  destruct (Nat.eqb_spec j' j) as [->|Hne]; cbn [orb].
  - now destruct (existsb (Nat.eqb j) js).
  - reflexivity.
Qed.

End Rows.

Section Reflexive.
Variable a : str.

(** The length of the run of non-popular characters that ends at [a[j]]. *)
Fixpoint runlen (j : nat) : nat :=
  match j with
  | 0 => if popular a (nth 0 a 0%N) then 0 else 1
  | S j' => if popular a (nth j a 0%N) then 0 else S (runlen j')
  end.

Definition runlen_prev (i : nat) : nat :=
  match i with
  | 0 => 0
  | S i' => runlen i'
  end.

Lemma runlen_unfold j :
  runlen j = if popular a (nth j a 0%N) then 0 else runlen_prev j + 1.
Proof.
  destruct j; cbn [runlen runlen_prev];
    destruct (popular a _); try reflexivity; lia.
Qed.

(** The state of [find_longest_match(0, n, 0, n)] before row [i] when both
    texts are [a]: the dictionary is dominated by its diagonal entry and by
    the run lengths, and the best match lies on the diagonal. *)
Definition diag_inv (i : nat) (d : j2len_t) (best : Match) : Prop :=
  (forall j, d j <= j2len_prev d i) /\
  (forall j, d j <= runlen j) /\
  j2len_prev d i = runlen_prev i /\
  (forall j, j < i -> runlen j <= snd best) /\
  fst (fst best) = snd (fst best).

Lemma prev_le_runlen d j :
  (forall j', d j' <= runlen j') ->
  popular a (nth j a 0%N) = false ->
  j2len_prev d j + 1 <= runlen j.
Proof.
  intros Hd Hp. rewrite runlen_unfold, Hp.
  destruct j as [|j']; cbn [j2len_prev runlen_prev]; [lia|].
  specialize (Hd j'). lia.
Qed.

Lemma prev_le_prev d i j :
  (forall j', d j' <= j2len_prev d i) -> j2len_prev d j <= j2len_prev d i.
Proof. intros Hd. destruct j as [|j']; cbn [j2len_prev]; [lia | apply Hd]. Qed.

Lemma diag_step i d best :
  i < List.length a ->
  diag_inv i d best ->
  diag_inv (S i)
    (fst (scan_row (b2j a (nth i a 0%N)) 0 (List.length a) i d j2len_empty best))
    (snd (scan_row (b2j a (nth i a 0%N)) 0 (List.length a) i d j2len_empty best)).
Proof.
  intros Hi (I1 & I2 & I3 & I4 & I5).
  destruct best as [[bi bj] bs]. cbn [fst snd] in I4, I5. subst bj.
  unfold b2j. destruct (popular a (nth i a 0%N)) eqn:Hp.
  { cbn [scan_row fst snd]. unfold diag_inv, j2len_empty. cbn [fst snd j2len_prev].
    repeat split; try lia.
    - change (0 = runlen i). rewrite runlen_unfold, Hp. reflexivity.
    - intros j Hj. destruct (Nat.eq_dec j i) as [->|Hne].
      + rewrite runlen_unfold, Hp. lia.
      + apply I4. lia. }
  set (x := nth i a 0%N) in *.
  set (js := positions_from x a 0).
  assert (Hin : In i js).
  { apply positions_from_spec. replace (i - 0) with i by lia.
    repeat split; try lia; try reflexivity. }
  assert (Hjs : forall j, In j js ->
            j < List.length a /\ popular a (nth j a 0%N) = false).
  { intros j Hj. apply positions_from_spec in Hj.
    replace (j - 0) with j in Hj by lia. destruct Hj as (_ & H1 & H2).
    split; [assumption|]. now rewrite H2. }
  assert (Hrange : Forall (fun j => 0 <= j /\ j < List.length a) js).
  { apply List.Forall_forall. intros j Hj. split; [lia | now apply Hjs]. }
  set (kd := j2len_prev d i + 1).
  assert (Hkd : kd = runlen i).
  { subst kd. rewrite runlen_unfold. fold x. rewrite Hp, I3. reflexivity. }
  (* the dictionary of the row *)
  assert (Hnd : forall best0 j',
    fst (scan_row js 0 (List.length a) i d j2len_empty best0) j'
    = if existsb (Nat.eqb j') js then j2len_prev d j' + 1 else 0).
  { intros. now rewrite scan_row_fst. }
  assert (Hndi : forall best0,
    fst (scan_row js 0 (List.length a) i d j2len_empty best0) i = kd).
  { intros. rewrite Hnd.
    replace (existsb (Nat.eqb i) js) with true; [reflexivity|].
    symmetry. apply existsb_exists. exists i. split; [assumption|].
    apply Nat.eqb_refl. }
  assert (Hndle : forall best0 j',
    fst (scan_row js 0 (List.length a) i d j2len_empty best0) j' <= kd /\
    fst (scan_row js 0 (List.length a) i d j2len_empty best0) j' <= runlen j').
  { intros. rewrite Hnd. destruct (existsb (Nat.eqb j') js) eqn:E; [|lia].
    apply existsb_exists in E as (j & Hj & E). apply Nat.eqb_eq in E. subst j.
    split.
    - subst kd. pose proof (prev_le_prev d i j' I1). lia.
    - apply prev_le_runlen; [assumption | now apply Hjs]. }
  (* the best match of the row *)
  assert (Hbest : snd (scan_row js 0 (List.length a) i d j2len_empty (bi, bi, bs))
                  = if bs <? kd then (i + 1 - kd, i + 1 - kd, kd) else (bi, bi, bs)).
  { pose proof (positions_from_sorted x a 0) as Hs. fold js in Hs.
    destruct (in_split _ _ Hin) as (l1 & l2 & El).
    rewrite El in Hs, Hjs, Hrange |- *.
    destruct (sorted_split _ _ _ Hs) as [Hl1 Hl2].
    apply Forall_app in Hrange as [R1 R2].
    rewrite scan_row_app
      by (eapply List.Forall_impl; [|exact R1]; cbn; intros; lia).
    rewrite scan_row_keep.
    2:{ apply List.Forall_forall. intros j Hj.
        assert (Hlt : j < i) by (rewrite List.Forall_forall in Hl1; now apply Hl1).
        assert (Hr : j2len_prev d j + 1 <= runlen j).
        { apply prev_le_runlen; [assumption|].
          apply Hjs, in_or_app. now left. }
        specialize (I4 j Hlt). lia. }
    cbn [scan_row].
    destruct (Nat.ltb_spec i 0); [lia|].
    destruct (Nat.leb_spec (List.length a) i); [lia|].
    fold kd.
    destruct (Nat.ltb_spec bs kd) as [Hlt|Hge].
    - rewrite scan_row_keep; [reflexivity|].
      apply List.Forall_forall. intros j Hj.
      pose proof (prev_le_prev d i j I1). subst kd. lia.
    - rewrite scan_row_keep; [reflexivity|].
      apply List.Forall_forall. intros j Hj.
      pose proof (prev_le_prev d i j I1). subst kd. lia. }
  rewrite Hbest. unfold diag_inv. cbn [j2len_prev].
  repeat split.
  - intros j. rewrite Hndi. apply Hndle.
  - intros j. apply Hndle.
  - rewrite Hndi. cbn [runlen_prev]. assumption.
  - intros j Hj. destruct (Nat.ltb_spec bs kd); cbn [snd].
    + destruct (Nat.eq_dec j i) as [->|Hne]; [lia|].
      assert (Hlt : j < i) by lia. specialize (I4 j Hlt). lia.
    + destruct (Nat.eq_dec j i) as [->|Hne]; [lia|].
      apply I4. lia.
  - destruct (bs <? kd); reflexivity.
Qed.

Lemma diag_rows m : forall i d best,
  i + m <= List.length a ->
  diag_inv i d best ->
  fst (fst (scan_rows (seq i m) a a 0 (List.length a) d best)) =
  snd (fst (scan_rows (seq i m) a a 0 (List.length a) d best)).
Proof.
  induction m as [|m IH]; intros i d best Hm Hinv; cbn [seq scan_rows].
  - apply Hinv.
  - pose proof (diag_step i d best ltac:(lia) Hinv) as Hstep.
    destruct (scan_row (b2j a (nth i a 0%N)) 0 (List.length a) i d j2len_empty best)
      as [nd best'].
    apply IH; [lia | exact Hstep].
Qed.

Lemma extend_left_diag : forall bi bs,
  extend_left false a a 0 0 bi bi bs = (0, 0, bs + bi).
Proof.
  induction bi as [|bi IH]; intros bs; cbn [extend_left].
  - f_equal. lia.
  - replace (S bi - 1) with bi by lia.
    unfold isbjunk, eqb_char. rewrite N.eqb_refl. cbn.
    rewrite IH. f_equal. lia.
Qed.

Lemma extend_right_diag : forall room bs,
  bs + room = List.length a ->
  extend_right false a a (List.length a) (List.length a) 0 0 bs room
  = (0, 0, List.length a).
Proof.
  induction room as [|room IH]; intros bs Hn; cbn [extend_right].
  - f_equal. lia.
  - cbn [Nat.add]. destruct (Nat.ltb_spec bs (List.length a)); [|lia].
    unfold isbjunk, eqb_char. rewrite N.eqb_refl. cbn.
    apply IH. lia.
Qed.

(** Against itself a text is found as one block. *)
Lemma find_longest_match_refl :
  find_longest_match a a 0 (List.length a) 0 (List.length a)
  = (0, 0, List.length a).
Proof.
  unfold find_longest_match.
  pose proof (scan_rows_sound a a 0 (List.length a) 0 (List.length a)
                (List.length a - 0) 0 j2len_empty (0, 0, 0)) as Hv.
  pose proof (diag_rows (List.length a - 0) 0 j2len_empty (0, 0, 0)) as Hd.
  destruct (scan_rows (seq 0 (List.length a - 0)) a a 0 (List.length a)
              j2len_empty (0, 0, 0)) as [[bi bj] bs].
  cbn [fst snd] in Hd.
  assert (bi = bj).
  { apply Hd; [lia|]. unfold diag_inv, j2len_empty. cbn. repeat split; lia. }
  subst bj.
  destruct Hv as (_ & Hle & _); try lia.
  { apply row_ok_empty. }
  { unfold valid, agree. repeat split; lia. }
  unfold extend at 2. rewrite extend_left_diag.
  rewrite extend_right_diag by lia.
  unfold extend. cbn [extend_left].
  replace (List.length a - (0 + List.length a)) with 0 by lia.
  reflexivity.
Qed.

Lemma matches_refl : sum_sizes (get_matching_blocks a a) = List.length a.
Proof.
  unfold get_matching_blocks.
  replace (2 * List.length a + 1) with (S (2 * List.length a)) by lia.
  rewrite blocks_loop_step, find_longest_match_refl.
  destruct (Nat.eqb_spec (List.length a) 0) as [E|E].
  - destruct (2 * List.length a); cbn; lia.
  - unfold pushed. cbn [Nat.add]. rewrite !Nat.ltb_irrefl. cbn [andb app].
    destruct (2 * List.length a); cbn; lia.
Qed.

End Reflexive.

(** ** The ratio *)

Lemma Z_of_nat_pos m : m <> 0 -> Zpos (Pos.of_nat m) = Z.of_nat m.
Proof.
  destruct m as [|m]; [congruence|]. intros _.
  now rewrite <- Pos.of_nat_succ, Zpos_P_of_succ_nat, Nat2Z.inj_succ.
Qed.

Lemma ratio_le_1 a b : (ratio a b <= 1)%Q.
Proof.
  unfold ratio, _calculate_ratio.
  destruct (matches_bound a b) as (B1 & B2 & _).
  destruct (List.length a + List.length b) as [|m] eqn:E; [apply Qle_refl|].
  unfold Qle. cbn [Qnum Qden]. rewrite Z_of_nat_pos by lia. lia.
Qed.

Lemma ratio_refl a : (ratio a a == 1)%Q.
Proof.
  unfold ratio, _calculate_ratio. rewrite matches_refl.
  destruct (List.length a + List.length a) as [|m] eqn:E; [reflexivity|].
  unfold Qeq. cbn [Qnum Qden]. rewrite Z_of_nat_pos by lia. lia.
Qed.

Lemma ratio_1_eq a b : (ratio a b == 1)%Q -> a = b.
Proof.
  unfold ratio, _calculate_ratio.
  destruct (matches_bound a b) as (B1 & B2 & B3).
  destruct (List.length a + List.length b) as [|m] eqn:E.
  - intros _. destruct a, b; try reflexivity; cbn in E; lia.
  - unfold Qeq. cbn [Qnum Qden]. rewrite Z_of_nat_pos by lia.
    intros H. apply B3; lia.
Qed.

Lemma ratio_nonneg a b : (0 <= ratio a b)%Q.
Proof.
  unfold ratio, _calculate_ratio.
  destruct (List.length a + List.length b); [easy|].
  unfold Qle. cbn [Qnum Qden]. lia.
Qed.

End DifflibFacts.

(* ===================================================================== *)
(** * Facts about strings *)
(* ===================================================================== *)

Module PyFacts.
Import Py.

Lemma eqb_str_spec a b : eqb_str a b = true <-> a = b.
Proof.
  revert b; induction a as [|x a IH]; intros [|y b]; simpl; try easy.
  unfold eqb_char. rewrite andb_true_iff, N.eqb_eq, IH.
  split; [intros [-> ->]; reflexivity | intros [= -> ->]; auto].
Qed.

Lemma eqb_str_refl a : eqb_str a a = true.
Proof. apply eqb_str_spec; reflexivity. Qed.

Lemma eqb_str_neq a b : a <> b -> eqb_str a b = false.
Proof.
  intros H. destruct (eqb_str a b) eqn:E; [|reflexivity].
  apply eqb_str_spec in E. contradiction.
Qed.

Lemma mem_str_spec x l : mem_str x l = true <-> In x l.
Proof.
  unfold mem_str. rewrite existsb_exists. split.
  - intros (y & Hy & E). apply eqb_str_spec in E. now subst.
  - intros H. exists x. split; [assumption | apply eqb_str_refl].
Qed.

End PyFacts.

(* ===================================================================== *)
(** * The spam detector *)
(* ===================================================================== *)

Module SpamFacts.
Import Py Spam.

Lemma Qltb_lt x y : Qltb x y = true <-> (x < y)%Q.
Proof.
  unfold Qltb. rewrite negb_true_iff. split.
  - intros H. apply Qnot_le_lt. intros Hle.
    apply Qle_bool_iff in Hle. congruence.
  - intros H. destruct (Qle_bool y x) eqn:E; [|reflexivity].
    apply Qle_bool_iff in E. exfalso. exact (Qlt_not_le _ _ H E).
Qed.

Lemma Qltb_ge x y : Qltb x y = false <-> (y <= x)%Q.
Proof.
  unfold Qltb. rewrite negb_false_iff. apply Qle_bool_iff.
Qed.

Section Scan.
Variable f : str -> str -> Q.
Variable message : str.

(** The loop keeps a running maximum, together with the text that
    reached it. *)
Lemma scan_history_max h : forall m s,
  exists m' s',
    scan_history (fun t1 t2 => Some (f t1 t2)) message h m s = Some (m', s') /\
    (m <= m')%Q /\
    (forall e, In e h -> (f message (text e) <= m')%Q) /\
    ((m' = m /\ s' = s) \/
     (exists e, In e h /\ m' = f message (text e) /\ s' = text e)).
Proof.
  induction h as [|e h IH]; intros m s; cbn [scan_history].
  - exists m, s. repeat split; [apply Qle_refl | intros e [] | now left].
  - destruct (Qltb m (f message (text e))) eqn:E.
    + apply Qltb_lt in E.
      destruct (IH (f message (text e)) (text e)) as (m' & s' & H1 & H2 & H3 & H4).
      exists m', s'. split; [assumption|]. split.
      { apply Qle_trans with (f message (text e)); [now apply Qlt_le_weak | assumption]. }
      split.
      { intros e' [<-|He']; [assumption | now apply H3]. }
      right. destruct H4 as [[-> ->]|(e' & He' & -> & ->)].
      * exists e. split; [now left | split; reflexivity].
      * exists e'. split; [now right | split; reflexivity].
    + apply Qltb_ge in E.
      destruct (IH m s) as (m' & s' & H1 & H2 & H3 & H4).
      exists m', s'. split; [assumption|]. split; [assumption|]. split.
      { intros e' [<-|He']; [|now apply H3].
        apply Qle_trans with m; assumption. }
      destruct H4 as [[-> ->]|(e' & He' & -> & ->)]; [now left|].
      right. exists e'. split; [now right | split; reflexivity].
Qed.

End Scan.

(** The loop of [check_spam] never changes the deque, whatever the
    similarity function does. *)
Lemma check_spam_with_frame sim self message uid :
  fst (check_spam_with sim self message uid) = self.
Proof.
  unfold check_spam_with.
  destruct (scan_history sim message (history self) 0%Q []) as [[m s]|];
    reflexivity.
Qed.

Lemma deque_append_positive {A} (maxlen : nat) (d : list A) (x : A) :
  0 < maxlen ->
  deque_append maxlen d x =
  (if List.length d <? maxlen then d else tl d) ++ [x].
Proof.
  intros Hpos. unfold deque_append. rewrite length_app. cbn [List.length].
  destruct (Nat.ltb_spec maxlen (List.length d + 1));
    destruct (Nat.ltb_spec (List.length d) maxlen); try lia; try reflexivity.
  destruct d as [|y d]; [cbn in *; lia | reflexivity].
Qed.

End SpamFacts.

(* ===================================================================== *)
(** * The heuristic scorer *)
(* ===================================================================== *)

Module HeuristicFacts.
Import Py Re Heuristic.

(** [n] times [score += inc]. *)
Fixpoint add_n (n : nat) (score inc : F64.float) : F64.float :=
  match n with
  | 0 => score
  | S n' => add_n n' (F64.add score inc) inc
  end.

(** How many danger phrases match, how many aggressive words occur. *)
Definition n_danger (text : str) : nat :=
  List.length (List.filter (fun phrase => found phrase (lower text)) danger_phrases).

Definition n_aggressive (text : str) : nat :=
  List.length (List.filter (fun word => contains word (lower text)) aggressive_words).

(** The sum of [k] increments of 0.1 followed by [j] increments of 0.05. *)
Definition base_sum (k j : nat) : F64.float :=
  add_n j (add_n k F64.zero f0_1) f0_05.

(** The score for [k] phrases and [j] words in a text that is long or not. *)
Definition amplified (long : bool) (k j : nat) : F64.float :=
  if long && F64.ltb f0_2 (base_sum k j)
  then F64.mul (base_sum k j) f1_3
  else base_sum k j.

Definition is_long (text : str) : bool := 20 <? List.length (split_ws text).

Lemma fold_left_add {A} (test : A -> bool) (inc : F64.float) (l : list A) :
  forall score,
    fold_left (fun score x => if test x then F64.add score inc else score) l score
    = add_n (List.length (List.filter test l)) score inc.
Proof.
  induction l as [|x l IH]; intros score; cbn [fold_left List.filter]; [reflexivity|].
  destruct (test x); cbn [List.length add_n]; apply IH.
Qed.

Lemma raw_score_eq text :
  raw_score text = amplified (is_long text) (n_danger text) (n_aggressive text).
Proof.
  unfold raw_score, amplified, base_sum, danger_loop, aggressive_loop, is_long,
    n_danger, n_aggressive.
  now rewrite !fold_left_add.
Qed.

Lemma filter_length_le {A} (test : A -> bool) (l : list A) :
  List.length (List.filter test l) <= List.length l.
Proof.
  induction l as [|x l IH]; cbn [List.filter List.length]; [lia|].
  destruct (test x); cbn [List.length]; lia.
Qed.

Lemma n_danger_le text : n_danger text <= 8.
Proof. apply (filter_length_le _ danger_phrases). Qed.

Lemma n_aggressive_le text : n_aggressive text <= 5.
Proof. apply (filter_length_le _ aggressive_words). Qed.

(** All the scores the analyzer can produce, by exhaustion. *)
Definition all_scores (test : F64.float -> bool) : bool :=
  forallb (fun long =>
    forallb (fun k =>
      forallb (fun j => test (F64.pymin (amplified long k j) F64.one))
              (seq 0 6))
            (seq 0 9))
          [true; false].

Lemma all_scores_spec test :
  all_scores test = true ->
  forall text, test (analyze text) = true.
Proof.
  intros H text. unfold analyze. rewrite raw_score_eq.
  unfold all_scores in H. rewrite forallb_forall in H.
  assert (Hl : In (is_long text) [true; false])
    by (destruct (is_long text); cbn; tauto).
  specialize (H _ Hl). rewrite forallb_forall in H.
  assert (Hk : In (n_danger text) (seq 0 9))
    by (apply in_seq; pose proof (n_danger_le text); lia).
  specialize (H _ Hk). rewrite forallb_forall in H.
  apply H. apply in_seq. pose proof (n_aggressive_le text). lia.
Qed.

End HeuristicFacts.

(* ===================================================================== *)
(** * The contextual tracker *)
(* ===================================================================== *)

Module TrackerFacts.
Import Py Re Models Tracker.

(** The domains of a chat. *)
Definition domains_of (self : ContextualMentionTracker) (chat_id : Z) : gset str :=
  default ∅ (banned_domains_mentioned self !! chat_id).

(** How many violations of a list name the domain [d]. *)
Definition violations_for (d : str) (l : list ContextualViolation) : nat :=
  List.length (List.filter (fun v => eqb_str (domain v) d) l).

Lemma violations_for_absent d (l : list str) :
  ~ In d l -> violations_for d (map violation_of l) = 0.
Proof.
  unfold violations_for. induction l as [|x l IH]; intros Hd; [reflexivity|].
  cbn [map List.filter violation_of domain].
  rewrite PyFacts.eqb_str_neq by (intros ->; apply Hd; now left).
  apply IH. intros H. apply Hd. now right.
Qed.

Lemma violations_for_present d (l : list str) :
  List.NoDup l -> In d l -> violations_for d (map violation_of l) = 1.
Proof.
  induction l as [|x l IH]; intros Hnd Hd; [destruct Hd|].
  inversion Hnd as [|? ? Hx Hl]; subst.
  unfold violations_for in *. cbn [map List.filter violation_of domain].
  destruct Hd as [->|Hd].
  - rewrite PyFacts.eqb_str_refl. cbn [List.length].
    f_equal. now apply violations_for_absent.
  - rewrite PyFacts.eqb_str_neq by (intros ->; contradiction).
    now apply IH.
Qed.

Lemma check_as_map self text chat_id :
  has_context (lower text) = true ->
  exists l,
    List.NoDup l /\
    (forall d, In d l <-> d ∈ domains_of self chat_id /\ mentions (lower text) d = true) /\
    check_contextual_reference self text chat_id = map violation_of l.
Proof.
  intros Hctx. unfold check_contextual_reference. rewrite Hctx. cbn [negb].
  fold (domains_of self chat_id).
  exists (List.filter (fun dom => mentions (lower text) dom)
                      (elements (domains_of self chat_id))).
  split; [|split; [|reflexivity]].
  - apply List.NoDup_filter, NoDup_ListNoDup, NoDup_elements.
  - intros d. rewrite filter_In. rewrite <- list_elem_of_In, elem_of_elements.
    reflexivity.
Qed.

End TrackerFacts.

(* ===================================================================== *)
(** * Programs and their traces *)
(* ===================================================================== *)

Module EffFacts.
Import Eff.

Lemma run_bind {Q R A B} (o : nat -> Q -> R) (p : prog Q R A)
    (f : A -> prog Q R B) : forall n,
  run o n (bind p f) =
  let '(a, tr1) := run o n p in
  let '(b, tr2) := run o (n + List.length tr1) (f a) in
  (b, tr1 ++ tr2).
Proof.
  induction p as [a|q k IH]; intros n; cbn [bind run].
  - cbn [List.length]. rewrite Nat.add_0_r.
    now destruct (run o n (f a)).
  - rewrite IH. destruct (run o (S n) (k (o n q))) as [a tr1].
    cbn [List.length]. replace (n + S (List.length tr1)) with (S n + List.length tr1) by lia.
    now destruct (run o (S n + List.length tr1) (f a)).
Qed.

Lemma last_In {A} (l : list A) (x : A) : last l = Some x -> In x l.
Proof.
  induction l as [|y l IH]; [discriminate|].
  destruct l as [|z l].
  - cbn. intros [= ->]. now left.
  - intros H. right. apply IH. exact H.
Qed.

End EffFacts.

(* ===================================================================== *)
(** * The moderator *)
(* ===================================================================== *)

Module ModeratorFacts.
Import Py Re Eff Moderator.

(** ** The guard for single tokens *)

Lemma guard_none_many blacklist message links :
  List.length (tokens_of message) <> 1 ->
  single_token_guard blacklist message links = None.
Proof.
  unfold single_token_guard.
  destruct (tokens_of message) as [|t [|t' l]]; cbn [List.length]; intros H;
    first [lia | reflexivity].
Qed.

Lemma guard_none_token message links t :
  In t (tokens_of message) ->
  mem_str (_normalize t) token_blacklist = false ->
  3 <= List.length (_normalize t) ->
  single_token_guard token_blacklist message links = None.
Proof.
  unfold single_token_guard. intros Hin Hbl Hlen.
  destruct (tokens_of message) as [|t0 [|t' l]]; try reflexivity.
  destruct Hin as [->|[]]. rewrite Hbl.
  destruct (Nat.ltb_spec (List.length (_normalize t)) 3); [lia | reflexivity].
Qed.

(** ** The direct two-token match *)

Lemma name_tokens_nil : name_tokens [] = [].
Proof. reflexivity. Qed.

Lemma direct_hit_intro message name :
  2 <= List.length (name_tokens name) ->
  2 <= matched_tokens (name_tokens name) (msg_tokens_set message) ->
  found (ordered_pattern (nth 0 (name_tokens name) []) (nth 1 (name_tokens name) []))
        (_normalize message) = true ->
  direct_hit message name = true.
Proof.
  intros Hlen Hm Hre. unfold direct_hit.
  destruct name as [|c name];
    [rewrite name_tokens_nil in Hlen; cbn [List.length] in Hlen; lia|].
  cbn [is_empty].
  destruct (Nat.ltb_spec (List.length (name_tokens (c :: name))) 2); [lia|].
  destruct (Nat.leb_spec 2 (matched_tokens (name_tokens (c :: name))
                                           (msg_tokens_set message))); [|lia].
  exact Hre.
Qed.

Lemma direct_hit_short message name :
  List.length (name_tokens name) < 2 -> direct_hit message name = false.
Proof.
  intros Hlen. unfold direct_hit. destruct (is_empty name); [reflexivity|].
  destruct (Nat.ltb_spec (List.length (name_tokens name)) 2); [reflexivity | lia].
Qed.

Lemma find_first {A} (test : A -> bool) (l : list A) (x : A) :
  In x l -> test x = true ->
  exists y, find test l = Some y /\ In y l /\ test y = true.
Proof.
  intros Hin Hx. destruct (find test l) as [y|] eqn:E.
  - exists y. apply find_some in E. tauto.
  - pose proof (find_none _ _ E x Hin). congruence.
Qed.

(** ** The pseudonym stage *)

Lemma fuzzy_hit_spec t_lat p :
  fuzzy_hit t_lat p = true <->
  4 <= List.length (p_ascii p) /\ 4 <= List.length t_lat /\
  (fuzzy_threshold <= Difflib.ratio t_lat (p_ascii p))%Q.
Proof.
  unfold fuzzy_hit.
  destruct (p_ascii p) as [|c l] eqn:E; cbn [is_empty orb].
  - split; [discriminate | cbn [List.length]; lia].
  - destruct (Nat.ltb_spec (List.length (c :: l)) 4); cbn [orb].
    + split; [discriminate | lia].
    + destruct (Nat.ltb_spec (List.length t_lat) 4).
      * split; [discriminate | lia].
      * rewrite Qle_bool_iff. split; [intros; repeat split; auto; lia | tauto].
Qed.

Lemma pseudonym_stage_cons d t rest :
  pseudonym_stage d (t :: rest) =
  match pseudonym_stage d [t] with
  | Some fio => Some fio
  | None => pseudonym_stage d rest
  end.
Proof.
  cbn [pseudonym_stage].
  destruct ((List.length (_normalize t) <? 3) || mem_str (_normalize t) token_blacklist);
    [reflexivity|].
  destruct (dict_get (_normalize t) d); [reflexivity|].
  destruct (List.length (_normalize t) <? 4); [reflexivity|].
  now destruct (fuzzy_loop (_ru_to_lat (_normalize t)) d).
Qed.

(** What the stage does on a token that is long, not stop-listed and not
    a pseudonym itself. *)
Lemma pseudonym_stage_fuzzy d t :
  4 <= List.length (_normalize t) ->
  mem_str (_normalize t) token_blacklist = false ->
  dict_get (_normalize t) d = None ->
  pseudonym_stage d [t] = fuzzy_loop (_ru_to_lat (_normalize t)) d.
Proof.
  intros Hlen Hbl Hget. cbn [pseudonym_stage]. rewrite Hbl, Hget.
  destruct (Nat.ltb_spec (List.length (_normalize t)) 3); [lia|]. cbn [orb].
  destruct (Nat.ltb_spec (List.length (_normalize t)) 4); [lia|].
  now destruct (fuzzy_loop (_ru_to_lat (_normalize t)) d).
Qed.

Lemma fuzzy_loop_some t_lat d p fio :
  In (p, fio) d -> fuzzy_hit t_lat p = true ->
  exists p' fio', fuzzy_loop t_lat d = Some fio' /\ In (p', fio') d /\
                  fuzzy_hit t_lat p' = true.
Proof.
  intros Hin Hhit. unfold fuzzy_loop.
  destruct (find_first (fun pf => fuzzy_hit t_lat (fst pf)) d (p, fio) Hin Hhit)
    as ([p' fio'] & E & Hin' & Hhit').
  exists p', fio'. rewrite E. repeat split; assumption.
Qed.

Lemma pseudonym_stage_hit d toks t p fio :
  In t toks ->
  4 <= List.length (_normalize t) ->
  mem_str (_normalize t) token_blacklist = false ->
  dict_get (_normalize t) d = None ->
  In (p, fio) d ->
  fuzzy_hit (_ru_to_lat (_normalize t)) p = true ->
  exists who, pseudonym_stage d toks = Some who.
Proof.
  intros Hin Hlen Hbl Hget Hp Hhit.
  induction toks as [|t' toks IH]; [destruct Hin|].
  rewrite pseudonym_stage_cons.
  destruct (pseudonym_stage d [t']) as [who|] eqn:E; [now exists who|].
  destruct Hin as [->|Hin]; [|now apply IH].
  rewrite pseudonym_stage_fuzzy in E by assumption.
  destruct (fuzzy_loop_some _ _ _ _ Hp Hhit) as (p' & fio' & E' & _).
  congruence.
Qed.

Lemma pseudonym_stage_unique d toks t fio :
  In t toks ->
  4 <= List.length (_normalize t) ->
  mem_str (_normalize t) token_blacklist = false ->
  dict_get (_normalize t) d = None ->
  (exists p, In (p, fio) d /\ fuzzy_hit (_ru_to_lat (_normalize t)) p = true) ->
  (forall t', In t' toks -> _normalize t' <> _normalize t ->
              pseudonym_stage d [t'] = None) ->
  (forall p' fio', In (p', fio') d ->
                   fuzzy_hit (_ru_to_lat (_normalize t)) p' = true -> fio' = fio) ->
  pseudonym_stage d toks = Some fio.
Proof.
  intros Hin Hlen Hbl Hget (p & Hp & Hhit) Hothers Hsame.
  induction toks as [|t' toks IH]; [destruct Hin|].
  rewrite pseudonym_stage_cons.
  assert (Hsame_tok : forall u, _normalize u = _normalize t ->
                                pseudonym_stage d [u] = Some fio).
  { intros u Eu. rewrite pseudonym_stage_fuzzy by (rewrite Eu; assumption).
    rewrite Eu.
    destruct (fuzzy_loop_some _ _ _ _ Hp Hhit) as (p' & fio' & E' & Hin' & Hhit').
    rewrite E'. f_equal. now apply (Hsame p'). }
  destruct (decide (_normalize t' = _normalize t)) as [Et|Et].
  - now rewrite (Hsame_tok t' Et).
  - rewrite (Hothers t') by (try assumption; now left).
    destruct Hin as [->|Hin]; [congruence|].
    apply IH; [assumption|].
    intros u Hu. apply Hothers. now right.
Qed.

(** ** The calls to the language model *)

Lemma alias_token_loop_trace o toks : forall n,
  Forall (fun qr => system (fst qr) = AliasToken)
         (snd (run o n (alias_token_loop toks))).
Proof.
  induction toks as [|t toks IH]; intros n; cbn [alias_token_loop].
  - constructor.
  - destruct ((List.length (_normalize t) <? 3) || mem_str (_normalize t) token_blacklist);
      [apply IH|].
    cbn [run].
    set (r := o n _).
    assert (Hcont : forall p : M unit,
              Forall (fun qr => system (fst qr) = AliasToken) (snd (run o (S n) p)) ->
              Forall (fun qr => system (fst qr) = AliasToken)
                (snd (let '(a, tr) := run o (S n) p in
                      (a, (mk_request AliasToken (alias_user_small (_normalize t)), r) :: tr)))).
    { intros p Hp. destruct (run o (S n) p) as [a tr]. cbn [snd] in *.
      constructor; [reflexivity | assumption]. }
    destruct r as [| |resp]; apply Hcont.
    + constructor.
    + apply IH.
    + destruct (is_empty resp); [apply IH|].
      destruct (found fio_pattern_ic resp); [constructor | apply IH].
Qed.

(** The result of a run whose last call is the classification. *)
Definition after_classify (self : ModeratorAgent) (message : str) (r : reply)
    : AnalysisResult :=
  match r with
  | Text response =>
    classify_result self message [] response (extract_urls message)
  | Raises | Null => local_fallback message (extract_urls message)
  end.

Lemma run_last_classify o self message chat_history q r :
  last (snd (run o 0 (analyze_message self message chat_history))) = Some (q, r) ->
  system q = Classify ->
  fst (run o 0 (analyze_message self message chat_history))
  = after_classify self message r.
Proof.
  unfold analyze_message.
  destruct (single_token_guard token_blacklist message (extract_urls message));
    [discriminate|].
  destruct (direct_stage self message); [discriminate|].
  destruct (pseudonym_stage (pseudonyms self) (tokens_of message)); [discriminate|].
  rewrite EffFacts.run_bind.
  pose proof (alias_token_loop_trace o (tokens_of message) 0) as Htr.
  destruct (run o 0 (alias_token_loop (tokens_of message))) as [u tr1].
  cbn [snd] in Htr.
  assert (Hno : forall x, In x tr1 -> system (fst x) <> Classify).
  { intros x Hx. rewrite List.Forall_forall in Htr. rewrite (Htr x Hx). discriminate. }
  destruct (local_stage self message).
  { cbn [run snd fst]. rewrite app_nil_r. intros Hlast Hq.
    apply EffFacts.last_In in Hlast. now apply Hno in Hlast. }
  unfold alias_stage. cbn [run].
  set (r1 := o (0 + List.length tr1) _).
  set (matched := matched_of self _).
  destruct matched as [|m ms].
  2:{ cbn [run snd fst]. rewrite last_snoc. intros [= <- <-]. discriminate. }
  destruct (single_token_guard token_blacklist_late message (extract_urls message)).
  { cbn [run snd fst]. rewrite last_snoc. intros [= <- <-]. discriminate. }
  unfold classify_stage. cbn [run].
  set (r2 := o (S (0 + List.length tr1)) _).
  destruct r2 as [| |response] eqn:E2; cbn [run snd fst];
    change (?x :: ?y :: []) with ([x] ++ [y]); rewrite app_assoc, last_snoc;
    intros [= <- <-] _; reflexivity.
Qed.

(** ** The classification and its fallback *)

Lemma classify_result_downgrade self message response links why :
  parse_response response = (CATEGORY_C, why) ->
  has_local_name self message = false ->
  classify_result self message [] response links = result CLEAN clean_reason links.
Proof.
  intros Hp Hl. unfold classify_result. rewrite Hp, Hl. reflexivity.
Qed.

Lemma local_fallback_category message urls :
  let low_text := _normalize message in
  let threat := existsb (fun w => contains w low_text) threat_words in
  let rude := existsb (fun w => contains w low_text) rude_words in
  category (local_fallback message urls) =
    (if threat then CATEGORY_A else if rude then CATEGORY_B else CLEAN) /\
  links (local_fallback message urls) = urls /\
  has_links (local_fallback message urls) = (0 <? List.length urls).
Proof.
  cbv zeta. unfold local_fallback.
  destruct (existsb _ threat_words); [repeat split|].
  destruct (existsb _ rude_words); repeat split.
Qed.

(** ** The keys of the pseudonym mapping *)

(** An alias that passes the filter of the loader. *)
Definition admitted (p : str) : Prop :=
  3 <= List.length p /\ mem_str p pseudo_blacklist = false.

(** A key is an admitted alias, or the approximate transliteration of one. *)
Definition key_origin (k : str) : Prop :=
  admitted k \/ exists p, admitted p /\ k = _lat_to_ru_approx p.

Definition dict_ok (d : list (str * str)) : Prop :=
  forall k v, In (k, v) d -> key_origin k.

Definition keys_ok (self : ModeratorAgent) : Prop := dict_ok (pseudonyms self).

Lemma dict_set_In k0 v0 d k v :
  In (k, v) (dict_set k0 v0 d) -> (k, v) = (k0, v0) \/ In (k, v) d.
Proof.
  induction d as [|[k' v'] d IH]; cbn [dict_set].
  - intros [H|[]]. now left.
  - destruct (eqb_str k0 k').
    + intros [H|H]; [now left | right; now right].
    + intros [H|H]; [right; now left|].
      destruct (IH H) as [E|E]; [now left | right; now right].
Qed.

Lemma dict_set_ok k0 v0 d : key_origin k0 -> dict_ok d -> dict_ok (dict_set k0 v0 d).
Proof.
  intros Hk Hd k v Hin.
  apply dict_set_In in Hin as [[= -> _]|Hin]; [assumption | now apply (Hd k v)].
Qed.

Lemma load_line_keys self raw : keys_ok self -> keys_ok (load_line self raw).
Proof.
  unfold keys_ok. intros Hok. unfold load_line.
  destruct (skip_line (strip raw)); [assumption|].
  destruct (findall1 fio_pattern (strip raw)) as [|m0 ms]; [exact Hok|].
  destruct (is_empty (line_pseudo (strip raw))); [exact Hok|].
  set (p_norm := _normalize (line_pseudo (strip raw))).
  destruct (List.length p_norm <? 3) eqn:Elen; [exact Hok|].
  destruct (mem_str p_norm pseudo_blacklist) eqn:Ebl; [exact Hok|].
  cbn [orb].
  assert (Hadm : admitted p_norm).
  { split; [|assumption]. apply Nat.ltb_ge in Elen. lia. }
  assert (Hps : dict_ok (dict_set p_norm (_normalize m0) (pseudonyms self)))
    by (apply dict_set_ok; [now left | assumption]).
  destruct (found _ p_norm); [|exact Hps].
  destruct (is_empty (_lat_to_ru_approx p_norm)); cbn [negb pseudonyms];
    [exact Hps|].
  apply dict_set_ok; [|assumption]. right. now exists p_norm.
Qed.

(** After the load every key is an admitted alias or derived from one:
    only the derived keys can be short or on the deny-list. *)
Lemma loaded_keys file : keys_ok (_load_inoagents file).
Proof.
  unfold _load_inoagents. destruct file as [lines|]; [|intros k v []].
  assert (H : forall self, keys_ok self -> keys_ok (fold_left load_line lines self)).
  { induction lines as [|l lines IH]; intros self Hok; cbn [fold_left];
      [assumption|]. apply IH. now apply load_line_keys. }
  apply H. intros k v [].
Qed.

End ModeratorFacts.

(* ===================================================================== *)
(** * Bounded deques *)
(* ===================================================================== *)

Module DequeFacts.

(** The last [n] elements of a list. *)
Definition lastn {A} (n : nat) (l : list A) : list A :=
  skipn (List.length l - n) l.

Lemma tl_skipn {A} (k : nat) (l : list A) : tl (skipn k l) = skipn (S k) l.
Proof.
  revert l; induction k as [|k IH]; intros [|x l]; try reflexivity.
  cbn [skipn]. rewrite IH. destruct l; reflexivity.
Qed.

Lemma lastn_length {A} (n : nat) (l : list A) :
  List.length (lastn n l) = Nat.min n (List.length l).
Proof. unfold lastn. rewrite length_skipn. lia. Qed.

(** Appending to a deque that holds the last [n] elements of [l] gives the
    last [n] elements of [l ++ [x]]. *)
Lemma append_lastn {A} (n : nat) (l : list A) (x : A) :
  Spam.deque_append n (lastn n l) x = lastn n (l ++ [x]).
Proof.
  unfold Spam.deque_append, lastn.
  rewrite !length_app, length_skipn. cbn [List.length].
  destruct (Nat.ltb_spec n (List.length l - (List.length l - n) + 1)) as [H|H].
  - assert (Hle : n <= List.length l) by lia.
    replace (List.length l + 1 - n) with (S (List.length l - n)) by lia.
    rewrite <- tl_skipn. f_equal.
    rewrite skipn_app.
    replace (List.length l - n - List.length l) with 0 by lia.
    reflexivity.
  - replace (List.length l - n) with 0 by lia.
    replace (List.length l + 1 - n) with 0 by lia.
    reflexivity.
Qed.

End DequeFacts.

(* ===================================================================== *)
(** * The window of the spam detector *)
(* ===================================================================== *)

Module WindowFacts.
Import Py Spam SpamFacts DifflibFacts.

(** A message that was just added is found again, in any letter case. *)
Lemma repeat_detected (self : SpamDetectorAgent) (m m' : str)
    (uid uid' : option Z) :
  0 < maxlen self ->
  (similarity_threshold self <= 1)%Q ->
  lower m' = lower m ->
  is_spam (snd (check_spam (add_message self m uid) m' uid')) = true /\
  (similarity_score (snd (check_spam (add_message self m uid) m' uid')) == 1)%Q.
Proof.
  intros Hpos Hth Hlow. unfold check_spam, check_spam_with.
  destruct (scan_history_max _calculate_similarity m'
              (history (add_message self m uid)) 0%Q [])
    as (mx & s & Hrun & Hge & Hall & Hwho).
  rewrite Hrun. cbn [snd is_spam similarity_score].
  assert (Hin : In (mk_entry m uid) (history (add_message self m uid))).
  { cbn [add_message history]. rewrite deque_append_positive by assumption.
    apply in_or_app. right. now left. }
  assert (H1 : (mx == 1)%Q).
  { apply Qle_antisym.
    - destruct Hwho as [[-> _]|(e & _ & -> & _)]; [discriminate | apply ratio_le_1].
    - specialize (Hall _ Hin). cbn [text] in Hall.
      unfold _calculate_similarity in Hall. rewrite Hlow in Hall.
      now rewrite <- (ratio_refl (lower m)). }
  split; [|exact H1].
  apply Qle_bool_iff. now rewrite H1.
Qed.

End WindowFacts.

(* ===================================================================== *)
(** * The history of mentions *)
(* ===================================================================== *)

Module MentionsFacts.
Import Py Tracker TrackerFacts Mentions.

Lemma tracker_append_lastn {A} (n : nat) (l : list A) (x : A) :
  Tracker.deque_append n (DequeFacts.lastn n l) x = DequeFacts.lastn n (l ++ [x]).
Proof. exact (DequeFacts.append_lastn n l x). Qed.

(** Filtering by a later cutoff absorbs filtering by an earlier one. *)
Lemma filter_newer_absorb (c1 c2 : Z) (l : list mention) :
  (c1 <= c2)%Z ->
  List.filter (newer_than c2) (List.filter (newer_than c1) l)
  = List.filter (newer_than c2) l.
Proof.
  intros Hle. induction l as [|m l IH]; [reflexivity|].
  cbn [List.filter].
  destruct (newer_than c1 m) eqn:E1; destruct (newer_than c2 m) eqn:E2;
    cbn [List.filter]; rewrite ?E2, ?IH; try reflexivity.
  unfold newer_than in E1, E2.
  apply Z.ltb_ge in E1. apply Z.ltb_lt in E2. lia.
Qed.

Lemma hours_before_spec now h cutoff :
  hours_before now h = Some cutoff -> cutoff = (now - h * 3600000000)%Z.
Proof.
  unfold hours_before, timedelta_hours.
  destruct (_ && _); [|discriminate].
  destruct (_ && _); [|discriminate].
  now intros [= <-].
Qed.

Lemma domains_of_track self now chat_id dom uid message other :
  domains_of (track_mention self now chat_id dom uid message) other
  = if decide (other = chat_id) then {[dom]} ∪ domains_of self chat_id
    else domains_of self other.
Proof.
  unfold domains_of, track_mention. cbn [banned_domains_mentioned].
  destruct (decide (other = chat_id)) as [->|Hne].
  - now rewrite lookup_insert_eq.
  - now rewrite lookup_insert_ne by congruence.
Qed.

(** A tracked domain is reported once in its chat; the other chats are
    not concerned. *)
Lemma tracked_domain_flagged_once (self : ContextualMentionTracker)
    (now chat_id : Z) (dom : str) (uid : Z) (message text : str) :
  (has_context (lower text) = true ->
   mentions (lower text) dom = true ->
   violations_for dom
     (check_contextual_reference
        (track_mention self now chat_id dom uid message) text chat_id) = 1) /\
  (forall other, other <> chat_id ->
     check_contextual_reference
       (track_mention self now chat_id dom uid message) text other
     = check_contextual_reference self text other).
Proof.
  split.
  - intros Hctx Hm.
    destruct (check_as_map (track_mention self now chat_id dom uid message)
                text chat_id Hctx) as (l & Hnd & Hl & ->).
    apply violations_for_present; [assumption|].
    apply Hl. split; [|assumption].
    rewrite domains_of_track. rewrite decide_True by reflexivity.
    apply elem_of_union_l, elem_of_singleton. reflexivity.
  - intros other Hne. unfold check_contextual_reference.
    fold (domains_of (track_mention self now chat_id dom uid message) other).
    fold (domains_of self other).
    rewrite domains_of_track. now rewrite decide_False.
Qed.

End MentionsFacts.

(* ===================================================================== *)
(** * The storage *)
(* ===================================================================== *)

Module StorageFacts.
Import Py Storage.

Lemma bytes_of_inj s1 s2 : bytes_of s1 = bytes_of s2 -> s1 = s2.
Proof.
  revert s2; induction s1 as [|a s1 IH]; intros [|b s2]; cbn [bytes_of];
    try discriminate; [reflexivity|].
  intros [= Hab Hs]. f_equal; [|now apply IH].
  unfold byte_of in Hab.
  rewrite <- (ascii_N_embedding a), <- (ascii_N_embedding b). now rewrite Hab.
Qed.

Lemma to_int_not_nil z :
  Z.to_int z <> Decimal.Pos Decimal.Nil /\ Z.to_int z <> Decimal.Neg Decimal.Nil.
Proof.
  destruct z as [|p|p]; cbn [Z.to_int]; split; try discriminate;
    intros [= H]; exact (Unsigned.to_uint_nonnil p H).
Qed.

(** Two users never share a key of the files. *)
Lemma str_of_int_inj z1 z2 : str_of_int z1 = str_of_int z2 -> z1 = z2.
Proof.
  unfold str_of_int. intros H. apply bytes_of_inj in H.
  apply to_int_inj.
  assert (Hs : Some (Z.to_int z1) = Some (Z.to_int z2)).
  { rewrite <- (NilZero.isi (Z.to_int z1)) by apply to_int_not_nil.
    rewrite <- (NilZero.isi (Z.to_int z2)) by apply to_int_not_nil.
    now rewrite H. }
  now injection Hs.
Qed.

Lemma str_of_int_neq z1 z2 : z1 <> z2 -> str_of_int z1 <> str_of_int z2.
Proof. intros Hne H. apply Hne. now apply str_of_int_inj. Qed.

(** The dictionary that [add_violation] and [add_message] save. *)
Lemma lookup_appended {V} (d : gmap str (list V)) (k k' : str) (x : V) :
  let d1 := match d !! k with Some _ => d | None => <[k := []]> d end in
  <[k := default [] (d1 !! k) ++ [x]]> d1 !! k'
  = if decide (k' = k) then Some (default [] (d !! k) ++ [x]) else d !! k'.
Proof.
  cbv zeta. destruct (decide (k' = k)) as [->|Hne].
  - rewrite lookup_insert_eq. destruct (d !! k) eqn:E.
    + now rewrite E.
    + now rewrite lookup_insert_eq.
  - rewrite lookup_insert_ne by congruence.
    destruct (d !! k); [reflexivity|].
    now rewrite lookup_insert_ne by congruence.
Qed.

End StorageFacts.

(* ===================================================================== *)
(** * Programs: leaves and number of calls *)
(* ===================================================================== *)

Module ProgFacts.
Import Eff.

(** [P] holds of every value the program can return. *)
Fixpoint every_leaf {Q R A} (P : A -> Prop) (p : prog Q R A) : Prop :=
  match p with
  | Ret a => P a
  | Call q k => forall r, every_leaf P (k r)
  end.

(** The program makes at most [n] calls. *)
Fixpoint within {Q R A} (n : nat) (p : prog Q R A) {struct p} : Prop :=
  match p with
  | Ret _ => True
  | Call q k =>
    match n with
    | 0 => False
    | S n' => forall r, within n' (k r)
    end
  end.

Lemma every_leaf_run {Q R A} (P : A -> Prop) (p : prog Q R A) (o : nat -> Q -> R) :
  every_leaf P p -> forall n, P (fst (run o n p)).
Proof.
  induction p as [a|q k IH]; cbn [every_leaf run]; intros H n; [exact H|].
  specialize (IH (o n q) (H (o n q)) (S n)).
  now destruct (run o (S n) (k (o n q))).
Qed.

Lemma every_leaf_bind {Q R A B} (P : B -> Prop) (p : prog Q R A)
    (f : A -> prog Q R B) :
  every_leaf (fun a => every_leaf P (f a)) p -> every_leaf P (bind p f).
Proof.
  induction p as [a|q k IH]; cbn [every_leaf bind]; intros H; [exact H|].
  intros r. apply IH, H.
Qed.

Lemma every_leaf_true {Q R A} (p : prog Q R A) : every_leaf (fun _ => True) p.
Proof. induction p as [a|q k IH]; cbn [every_leaf]; auto. Qed.


Lemma within_run {Q R A} (p : prog Q R A) (o : nat -> Q -> R) :
  forall m, within m p -> forall n, List.length (snd (run o n p)) <= m.
Proof.
  induction p as [a|q k IH]; cbn [within run]; intros m H n.
  - cbn. lia.
  - destruct m as [|m]; [destruct H|].
    specialize (IH (o n q) m (H (o n q)) (S n)).
    destruct (run o (S n) (k (o n q))). cbn [snd List.length] in *. lia.
Qed.

Lemma within_mono {Q R A} (p : prog Q R A) :
  forall a b, a <= b -> within a p -> within b p.
Proof.
  induction p as [x|q k IH]; cbn [within]; intros a b Hle H; [exact I|].
  destruct a as [|a]; [destruct H|]. destruct b as [|b]; [lia|].
  intros r. apply (IH r a b); [lia | apply H].
Qed.

Lemma within_bind {Q R A B} (p : prog Q R A) (f : A -> prog Q R B) (b : nat) :
  (forall x, within b (f x)) ->
  forall a, within a p -> within (a + b) (bind p f).
Proof.
  intros Hf. induction p as [x|q k IH]; cbn [within bind]; intros a H.
  - apply (within_mono _ b); [lia | apply Hf].
  - destruct a as [|a]; [destruct H|]. cbn [Nat.add]. intros r. apply IH, H.
Qed.

End ProgFacts.

(* ===================================================================== *)
(** * The moderator: results, calls and the registry *)
(* ===================================================================== *)

Module ModeratorMoreFacts.
Import Py Re Eff Moderator ModeratorFacts ProgFacts.

(** What every result built by [result] with the links of the message
    satisfies. *)
Definition well_formed (urls : list str) (r : AnalysisResult) : Prop :=
  links r = urls /\ has_links r = (0 <? List.length urls) /\ category r <> ERROR.

Lemma result_well_formed c why urls :
  c <> ERROR -> well_formed urls (result c why urls).
Proof. intros H. repeat split. exact H. Qed.

Lemma guard_well_formed blacklist message urls res :
  single_token_guard blacklist message urls = Some res -> well_formed urls res.
Proof.
  unfold single_token_guard.
  destruct (tokens_of message) as [|t [|t' l]]; try discriminate.
  destruct (_ || _); [|discriminate].
  destruct (eqb_str _ _); intros [= <-]; apply result_well_formed; discriminate.
Qed.

Lemma parse_response_category response :
  fst (parse_response response) <> ERROR.
Proof.
  unfold parse_response.
  destruct (_ || _); [discriminate|].
  destruct (contains (U "CATEGORY_B") response); [discriminate|].
  destruct (contains (U "CATEGORY_C") response); discriminate.
Qed.

Lemma classify_result_well_formed self message matched response urls :
  well_formed urls (classify_result self message matched response urls).
Proof.
  unfold classify_result.
  pose proof (parse_response_category response) as Hc.
  destruct (parse_response response) as [cat why]. cbn [fst] in Hc.
  destruct cat; try (apply result_well_formed; discriminate).
  - destruct (_ && _); apply result_well_formed; discriminate.
  - now contradiction Hc.
Qed.

Lemma local_fallback_well_formed message urls :
  well_formed urls (local_fallback message urls).
Proof.
  unfold local_fallback.
  destruct (existsb _ threat_words); [apply result_well_formed; discriminate|].
  destruct (existsb _ rude_words); apply result_well_formed; discriminate.
Qed.

(** The second guard repeats the first one with a shorter list. *)
Lemma late_list_included t0 :
  mem_str t0 token_blacklist_late = true -> mem_str t0 token_blacklist = true.
Proof.
  unfold mem_str, token_blacklist_late, token_blacklist. cbn [existsb].
  repeat (destruct (eqb_str t0 _); [reflexivity|]). discriminate.
Qed.

Lemma late_guard_none message urls :
  single_token_guard token_blacklist message urls = None ->
  single_token_guard token_blacklist_late message urls = None.
Proof.
  unfold single_token_guard.
  destruct (tokens_of message) as [|t [|t' l]]; try reflexivity.
  destruct (mem_str (_normalize t) token_blacklist) eqn:E1.
  { cbn [orb]. destruct (eqb_str _ _); discriminate. }
  destruct (List.length (_normalize t) <? 3) eqn:E2.
  { cbn [orb]. destruct (eqb_str _ _); discriminate. }
  intros _.
  destruct (mem_str (_normalize t) token_blacklist_late) eqn:E3; [|reflexivity].
  apply late_list_included in E3. congruence.
Qed.

(** The tokens for which the per-token query is made. *)
Definition queried (t : str) : bool :=
  negb ((List.length (_normalize t) <? 3) || mem_str (_normalize t) token_blacklist).

Lemma alias_token_loop_within toks :
  within (List.length (List.filter queried toks)) (alias_token_loop toks).
Proof.
  induction toks as [|t toks IH]; cbn [alias_token_loop List.filter]; [exact I|].
  unfold queried at 1.
  destruct ((List.length (_normalize t) <? 3) || mem_str (_normalize t) token_blacklist);
    cbn [negb]; [exact IH|].
  cbn [List.length within]. intros [| |resp]; [exact I | exact IH|].
  destruct (is_empty resp); [exact IH|].
  destruct (found fio_pattern_ic resp); [|exact IH].
  destruct (List.length _); exact I.
Qed.

(** ** The registry *)

Lemma set_add_In x y s : In x (set_add y s) <-> x = y \/ In x s.
Proof.
  unfold set_add. destruct (mem_str y s) eqn:E.
  - apply PyFacts.mem_str_spec in E. split; [now right|].
    intros [->|H]; assumption.
  - rewrite in_app_iff. cbn [In]. split.
    + intros [H|[->|[]]]; [now right | now left].
    + intros [->|H]; [right; now left | now left].
Qed.

Lemma fold_set_add_In (f : str -> str) (l : list str) : forall s x,
  In x (fold_left (fun s m => set_add (f m) s) l s)
  <-> In x s \/ exists m, In m l /\ x = f m.
Proof.
  induction l as [|m l IH]; intros s x; cbn [fold_left].
  - split; [now left | intros [H|(m & [] & _)]; exact H].
  - rewrite IH, set_add_In. split.
    + intros [[->|H]|(m' & Hm & ->)].
      * right. exists m. split; [now left | reflexivity].
      * now left.
      * right. exists m'. split; [now right | reflexivity].
    + intros [H|(m' & [<-|Hm] & ->)].
      * left. now right.
      * left. now left.
      * right. now exists m'.
Qed.

(** Every value of the dictionary is an entry of the set. *)
Definition values_ok (self : ModeratorAgent) : Prop :=
  forall k v, In (k, v) (pseudonyms self) -> In v (inoagents self).

Lemma load_line_values self raw : values_ok self -> values_ok (load_line self raw).
Proof.
  unfold values_ok. intros Hok. unfold load_line.
  destruct (skip_line (strip raw)); [assumption|].
  set (ino' := fold_left _ _ _).
  assert (Hmono : forall v, In v (inoagents self) -> In v ino').
  { intros v Hv. apply fold_set_add_In. now left. }
  assert (Hold : forall k v, In (k, v) (pseudonyms self) -> In v ino')
    by (intros k v H; eapply Hmono, Hok, H).
  destruct (findall1 fio_pattern (strip raw)) as [|m0 ms] eqn:Em; [exact Hold|].
  assert (H0 : In (_normalize m0) ino').
  { apply fold_set_add_In. right. exists m0. split; [now left | reflexivity]. }
  destruct (is_empty (line_pseudo (strip raw))); [exact Hold|].
  destruct ((List.length _ <? 3) || mem_str _ pseudo_blacklist); [exact Hold|].
  assert (H1 : forall k v,
             In (k, v) (dict_set (_normalize (line_pseudo (strip raw)))
                                 (_normalize m0) (pseudonyms self)) ->
             In v ino').
  { intros k v H. apply dict_set_In in H as [[= _ ->]|H]; [exact H0|].
    eapply Hold, H. }
  destruct (found _ _); [|exact H1].
  destruct (is_empty (_lat_to_ru_approx _)); cbn [negb pseudonyms inoagents];
    [exact H1|].
  intros k v H. apply dict_set_In in H as [[= _ ->]|H]; [exact H0|].
  eapply H1, H.
Qed.

Lemma loaded_values file : values_ok (_load_inoagents file).
Proof.
  unfold _load_inoagents. destruct file as [lines|]; [|intros k v []].
  assert (H : forall self, values_ok self -> values_ok (fold_left load_line lines self)).
  { induction lines as [|l lines IH]; intros self Hok; cbn [fold_left];
      [assumption|]. apply IH. now apply load_line_values. }
  apply H. intros k v [].
Qed.

Lemma dict_get_In k d v : dict_get k d = Some v -> In (k, v) d.
Proof.
  induction d as [|[k' v'] d IH]; cbn [dict_get]; [discriminate|].
  destruct (eqb_str k k') eqn:E.
  - apply PyFacts.eqb_str_spec in E. subst. intros [= ->]. now left.
  - intros H. right. now apply IH.
Qed.

Lemma pseudonym_stage_value d toks fio :
  pseudonym_stage d toks = Some fio -> exists k, In (k, fio) d.
Proof.
  induction toks as [|t toks IH]; cbn [pseudonym_stage]; [discriminate|].
  destruct (_ || _); [exact IH|].
  destruct (dict_get (_normalize t) d) as [v|] eqn:Eg.
  { intros [= ->]. exists (_normalize t). now apply dict_get_In. }
  destruct (List.length (_normalize t) <? 4); [exact IH|].
  unfold fuzzy_loop.
  destruct (find _ d) as [[k v]|] eqn:Ef; cbn [option_map snd]; [|exact IH].
  intros [= ->]. exists k. now apply find_some in Ef as [Hin _].
Qed.

(** ** The transliteration *)

Definition is_lat (c : char) : bool := is_ascii_lower c || is_digit c.

Lemma table_get_In c t v : table_get c t = Some v -> In v (map snd t).
Proof.
  induction t as [|[c' v'] t IH]; cbn [table_get map snd]; [discriminate|].
  destruct (eqb_char c c'); [intros [= ->]; now left | intros H; right; now apply IH].
Qed.

Lemma ru_table_lat : forallb (fun v => forallb is_lat v) (map snd ru_table) = true.
Proof. vm_compute. reflexivity. Qed.

End ModeratorMoreFacts.

(* ===================================================================== *)
(** * Lower case *)
(* ===================================================================== *)

Module LowerFacts.
Import Py.

Lemma in_range_true lo hi c : in_range lo hi c = true <-> (lo <= c <= hi)%N.
Proof. unfold in_range. rewrite andb_true_iff, !N.leb_le. reflexivity. Qed.

Lemma in_range_false lo hi c : in_range lo hi c = false <-> (c < lo \/ hi < c)%N.
Proof. unfold in_range. rewrite andb_false_iff, !N.leb_gt. reflexivity. Qed.

(** A character without a lower-case form of its own is left alone. *)
Lemma lower_char_fix c :
  is_ascii_upper c = false -> is_cyr_upper c = false ->
  in_range 1024 1039 c = false -> lower_char c = c.
Proof. unfold lower_char. now intros -> -> ->. Qed.

Lemma lower_char_idem c : lower_char (lower_char c) = lower_char c.
Proof.
  unfold lower_char at 2 3.
  destruct (is_ascii_upper c) eqn:E1;
    [|destruct (is_cyr_upper c) eqn:E2; [|destruct (in_range 1024 1039 c) eqn:E3]].
  - unfold is_ascii_upper in E1. apply in_range_true in E1.
    apply lower_char_fix; unfold is_ascii_upper, is_cyr_upper;
      apply in_range_false; lia.
  - unfold is_cyr_upper in E2. apply in_range_true in E2.
    apply lower_char_fix; unfold is_ascii_upper, is_cyr_upper;
      apply in_range_false; lia.
  - apply in_range_true in E3.
    apply lower_char_fix; unfold is_ascii_upper, is_cyr_upper;
      apply in_range_false; lia.
  - now apply lower_char_fix.
Qed.

Lemma lower_idem s : lower (lower s) = lower s.
Proof.
  unfold lower. rewrite map_map. apply map_ext. intros c. apply lower_char_idem.
Qed.

Lemma lower_app s1 s2 : lower (s1 ++ s2) = lower s1 ++ lower s2.
Proof. apply map_app. Qed.

End LowerFacts.

(* ===================================================================== *)
(** * Stripping and the end of a sentence *)
(* ===================================================================== *)

Module CorrectorFacts.
Import Py Re Corrector.

Lemma lstrip_head s c r : lstrip s = c :: r -> is_space c = false.
Proof.
  induction s as [|x s IH]; cbn [lstrip]; [discriminate|].
  destruct (is_space x) eqn:E; [exact IH|]. now intros [= <- _].
Qed.

(** A stripped text does not end with white space. *)
Lemma strip_last s body c : strip s = body ++ [c] -> is_space c = false.
Proof.
  unfold strip, rstrip. intros H.
  apply (f_equal (@rev _)) in H. rewrite rev_involutive, rev_app_distr in H.
  cbn [rev app] in H. now apply lstrip_head in H.
Qed.

Definition is_end (c : char) : bool := existsb (eqb_char c) (U ".!?").

Lemma ends_sentence_found_from s : forall prev,
  search_from ends_sentence prev s <> None ->
  exists pre c suf, s = pre ++ c :: suf /\ is_end c = true /\
                    (suf = [] \/ suf = [10%N]).
Proof.
  induction s as [|x s IH]; intros prev; cbn [search_from].
  - unfold match_at, ends_sentence. cbn [exec]. intros H. now contradiction H.
  - destruct (match_at ends_sentence prev (x :: s)) eqn:E.
    + intros _. unfold match_at, ends_sentence in E. cbn [exec] in E.
      fold (is_end x) in E. destruct (is_end x) eqn:Ex; [|discriminate].
      exists [], x, s. split; [reflexivity|]. split; [assumption|].
      destruct s as [|y [|z s]]; [now left | | discriminate].
      destruct (eqb_char y 10%N) eqn:Ey; [|discriminate].
      right. unfold eqb_char in Ey. apply N.eqb_eq in Ey. now subst.
    + intros H. destruct (IH (Some x) H) as (pre & c & suf & -> & Hc & Hs).
      exists (x :: pre), c, suf. repeat split; assumption.
Qed.

(** [_add_punctuation] gives the empty text or a text that ends with a
    full stop, an exclamation mark or a question mark. *)
Definition punctuated (s : str) : Prop :=
  s = [] \/ exists body c, s = body ++ [c] /\ is_end c = true.

Lemma _add_punctuation_punctuated t : punctuated (_add_punctuation t).
Proof.
  unfold _add_punctuation.
  destruct (strip t) as [|x s] eqn:Es; [now left|].
  right. unfold found, search.
  destruct (search_from ends_sentence None (x :: s)) eqn:E.
  - assert (Hne : search_from ends_sentence None (x :: s) <> None) by congruence.
    destruct (ends_sentence_found_from _ _ Hne) as (pre & c & suf & Heq & Hc & [->| ->]).
    + exists pre, c. now rewrite Heq.
    + exfalso. rewrite Heq in Es.
      change (pre ++ [c; 10%N]) with (pre ++ [c] ++ [10%N]) in Es.
      rewrite app_assoc in Es. apply strip_last in Es. discriminate Es.
  - exists (x :: s), 46%N. split; reflexivity.
Qed.

(** On an agent without its tables the adapter reports a failure. *)
Lemma bare_adapter_fails text :
  CorrectorAdapter.success
    (CorrectorAdapter.correct_with_adapter Corrector.new text) = false.
Proof.
  unfold CorrectorAdapter.correct_with_adapter, correct, Corrector.new.
  destruct (strip text); reflexivity.
Qed.

End CorrectorFacts.

(* ===================================================================== *)
(** * The cache *)
(* ===================================================================== *)

Module LRUFacts.
Import Py LRU.

Section Cache.
Context {V : Type}.
Implicit Types d : list (str * V).

Lemma lookup_app_absent key d d' :
  lookup key d = None -> lookup key (d ++ d') = lookup key d'.
Proof.
  induction d as [|[k v] d IH]; cbn [lookup app]; [reflexivity|].
  destruct (eqb_str key k); [discriminate | exact IH].
Qed.

Lemma eqb_str_decide (a b : str) : eqb_str a b = bool_decide (a = b).
Proof.
  destruct (eqb_str a b) eqn:E.
  - apply PyFacts.eqb_str_spec in E. now rewrite bool_decide_eq_true_2.
  - rewrite bool_decide_eq_false_2; [reflexivity|].
    intros ->. now rewrite PyFacts.eqb_str_refl in E.
Qed.

Lemma lookup_without key key' d :
  lookup key' (without key d) = if eqb_str key key' then None else lookup key' d.
Proof.
  unfold without. induction d as [|[k v] d IH]; cbn [List.filter lookup fst].
  - now destruct (eqb_str key key').
  - destruct (eqb_str key k) eqn:E1; cbn [negb lookup]; rewrite IH;
      rewrite !eqb_str_decide in *;
      repeat case_bool_decide; subst; congruence.
Qed.

Lemma lookup_assign key value key' d :
  lookup key' (assign key value d)
  = if eqb_str key' key then Some value else lookup key' d.
Proof.
  induction d as [|[k v] d IH]; cbn [assign lookup].
  - reflexivity.
  - destruct (eqb_str key k) eqn:E1; cbn [lookup]; rewrite ?IH;
      rewrite !eqb_str_decide in *;
      repeat case_bool_decide; subst; congruence.
Qed.

(** Assigning to a key that is absent, or the last one, leaves it last. *)
Lemma assign_absent key value d :
  lookup key d = None -> assign key value d = d ++ [(key, value)].
Proof.
  induction d as [|[k v] d IH]; cbn [assign lookup app]; [reflexivity|].
  destruct (eqb_str key k); [discriminate|]. intros H. now rewrite IH.
Qed.

Lemma assign_last key value v d :
  lookup key d = None ->
  assign key value (d ++ [(key, v)]) = d ++ [(key, value)].
Proof.
  induction d as [|[k v'] d IH]; cbn [assign lookup app].
  - now rewrite PyFacts.eqb_str_refl.
  - destruct (eqb_str key k); [discriminate|]. intros H. now rewrite IH.
Qed.

Lemma lookup_without_same key d : lookup key (without key d) = None.
Proof. rewrite lookup_without. now rewrite PyFacts.eqb_str_refl. Qed.

Lemma without_length key d : List.length (without key d) <= List.length d.
Proof. apply HeuristicFacts.filter_length_le. Qed.

(** The dictionary that [put] holds before the eviction: the other entries
    in their order, then the entry written. *)
Lemma put_dictionary key value d :
  assign key value
    match lookup key d with
    | Some _ => move_to_end key d
    | None => d
    end
  = match lookup key d with
    | Some _ => without key d
    | None => d
    end ++ [(key, value)].
Proof.
  unfold move_to_end. destruct (lookup key d) as [v|] eqn:E.
  - apply assign_last, lookup_without_same.
  - now apply assign_absent.
Qed.

Lemma lookup_tl key d x :
  d <> [] -> lookup key (d ++ [x]) = lookup key (tl (d ++ [x])) \/
             exists v, hd_error d = Some (key, v).
Proof.
  destruct d as [|[k v] d]; [congruence|]. intros _.
  cbn [app tl lookup hd_error]. destruct (eqb_str key k) eqn:E.
  - right. apply PyFacts.eqb_str_spec in E. subst. now exists v.
  - now left.
Qed.

End Cache.

End LRUFacts.

(* ===================================================================== *)
(** * The order of binary64 numbers *)
(* ===================================================================== *)

Module F64Facts.

Definition is_nan (f : F64.float) : bool :=
  match f with
  | S754_nan => true
  | _ => false
  end.

(** A key that orders the numbers that are not NaN: the class, then the
    exponent, then the mantissa (both negated for a negative number). *)
Definition key (f : F64.float) : Z * Z * Z :=
  match f with
  | S754_zero _ => (0, 0, 0)%Z
  | S754_infinity s => (if s then (-2, 0, 0) else (2, 0, 0))%Z
  | S754_nan => (0, 0, 0)%Z
  | S754_finite s m e =>
    if s then (-1, - e, - Zpos m)%Z else (1, e, Zpos m)%Z
  end.

Definition le3 (a b : Z * Z * Z) : Prop :=
  let '(a1, a2, a3) := a in
  let '(b1, b2, b3) := b in
  (a1 < b1 \/ (a1 = b1 /\ (a2 < b2 \/ (a2 = b2 /\ a3 <= b3))))%Z.

Definition lt3 (a b : Z * Z * Z) : Prop :=
  let '(a1, a2, a3) := a in
  let '(b1, b2, b3) := b in
  (a1 < b1 \/ (a1 = b1 /\ (a2 < b2 \/ (a2 = b2 /\ a3 < b3))))%Z.

Lemma compare_key a b :
  is_nan a = false -> is_nan b = false ->
  exists c, SFcompare a b = Some c /\
    match c with
    | Lt => lt3 (key a) (key b)
    | Eq => key a = key b \/ (le3 (key a) (key b) /\ le3 (key b) (key a))
    | Gt => lt3 (key b) (key a)
    end.
Proof.
  destruct a as [sa|sa| |sa ma ea]; destruct b as [sb|sb| |sb mb eb];
    cbn [is_nan]; try discriminate; intros _ _; cbn [SFcompare key];
    eexists; (split; [reflexivity|]);
    try (destruct sa); try (destruct sb); cbn [le3 lt3]; try lia;
    try (left; reflexivity).
  - change (PosDef.Pos.compare_cont Eq ma mb) with (Pos.compare ma mb).
    destruct (Z.compare_spec ea eb); [|cbn [lt3]; lia|cbn [lt3]; lia].
    destruct (Pos.compare_spec ma mb); cbn [CompOpp lt3 le3]; subst; lia.
  - change (PosDef.Pos.compare_cont Eq ma mb) with (Pos.compare ma mb).
    destruct (Z.compare_spec ea eb); [|cbn [lt3]; lia|cbn [lt3]; lia].
    destruct (Pos.compare_spec ma mb); cbn [lt3 le3]; subst; lia.
Qed.

Lemma leb_nan a b : F64.leb a b = true -> is_nan a = false /\ is_nan b = false.
Proof.
  unfold F64.leb, SFleb. destruct a, b; cbn [SFcompare is_nan]; try discriminate;
    intros _; split; reflexivity.
Qed.

Lemma leb_key a b :
  F64.leb a b = true <->
  is_nan a = false /\ is_nan b = false /\ le3 (key a) (key b).
Proof.
  split.
  - intros H. destruct (leb_nan _ _ H) as [Ha Hb]. split; [exact Ha|].
    split; [exact Hb|].
    destruct (compare_key a b Ha Hb) as (c & Hc & Hk).
    unfold F64.leb, SFleb in H. rewrite Hc in H.
    destruct (key a) as [[a1 a2] a3], (key b) as [[b1 b2] b3].
    destruct c; cbn [lt3 le3] in *; try discriminate.
    + destruct Hk as [[= -> -> ->]|[Hk _]]; [lia | exact Hk].
    + lia.
  - intros (Ha & Hb & Hle).
    destruct (compare_key a b Ha Hb) as (c & Hc & Hk).
    unfold F64.leb, SFleb. rewrite Hc.
    destruct (key a) as [[a1 a2] a3], (key b) as [[b1 b2] b3].
    destruct c; cbn [lt3 le3] in *; try reflexivity. lia.
Qed.

Lemma ltb_key a b :
  F64.ltb a b = true -> F64.leb a b = true.
Proof.
  unfold F64.ltb, F64.leb, SFltb, SFleb.
  destruct (SFcompare a b) as [[]|]; first [discriminate | reflexivity].
Qed.

Lemma ltb_false_leb a b :
  is_nan a = false -> is_nan b = false ->
  F64.ltb a b = false -> F64.leb b a = true.
Proof.
  intros Ha Hb H. apply leb_key. split; [exact Hb|]. split; [exact Ha|].
  destruct (compare_key a b Ha Hb) as (c & Hc & Hk).
  unfold F64.ltb, SFltb in H. rewrite Hc in H.
  destruct (key a) as [[a1 a2] a3], (key b) as [[b1 b2] b3].
  destruct c; cbn [lt3 le3] in *; try discriminate.
  - destruct Hk as [[= -> -> ->]|[_ Hk]]; [lia | exact Hk].
  - lia.
Qed.

Lemma leb_trans a b c :
  F64.leb a b = true -> F64.leb b c = true -> F64.leb a c = true.
Proof.
  rewrite !leb_key. intros (Ha & Hb & H1) (_ & Hc & H2).
  split; [exact Ha|]. split; [exact Hc|].
  destruct (key a) as [[a1 a2] a3], (key b) as [[b1 b2] b3],
    (key c) as [[c1 c2] c3].
  cbn [le3] in *. lia.
Qed.

(** [max(h, t)] is at least [c] as soon as one of the two numbers is,
    when [h] is a number. *)
Lemma leb_pymax c h t :
  is_nan h = false ->
  F64.leb c h = true \/ F64.leb c t = true ->
  F64.leb c (F64.pymax h t) = true.
Proof.
  intros Hh H. unfold F64.pymax. destruct (F64.ltb h t) eqn:E.
  - destruct H as [H|H]; [|exact H].
    apply (leb_trans _ h); [exact H | now apply ltb_key].
  - destruct H as [H|H]; [exact H|].
    apply (leb_trans _ t); [exact H|].
    apply ltb_false_leb; [exact Hh | apply (leb_nan _ _ H) | exact E].
Qed.

End F64Facts.

(* ===================================================================== *)
(** * Programs over events *)
(* ===================================================================== *)

Module ActFacts.
Import Act.

Lemma act_run_bind {E A B} (h : forall X : Type, nat -> E X -> X) (p : prog E A)
    (f : A -> prog E B) : forall n,
  run h n (bind p f) =
  let '(a, tr1) := run h n p in
  let '(b, tr2) := run h (n + List.length tr1) (f a) in
  (b, tr1 ++ tr2).
Proof.
  induction p as [a|X e k IH]; intros n; cbn [bind run].
  - cbn [List.length]. rewrite Nat.add_0_r. now destruct (run h n (f a)).
  - rewrite IH. destruct (run h (S n) (k (h X n e))) as [a tr1].
    cbn [List.length].
    replace (n + S (List.length tr1)) with (S n + List.length tr1) by lia.
    now destruct (run h (S n + List.length tr1) (f a)).
Qed.

(** The run of a lifted program is the run of the program of [Eff]
    against the answers of the world to the lifted requests. *)
Lemma run_lift {E Q R A} (f : Q -> E R) (h : forall X : Type, nat -> E X -> X)
    (p : Eff.prog Q R A) : forall n,
  run h n (lift f p) =
  let '(a, tr) := Eff.run (fun i q => h R i (f q)) n p in
  (a, map (fun qr => Step (f (fst qr)) (snd qr)) tr).
Proof.
  induction p as [a|q k IH]; intros n; cbn [lift run Eff.run]; [reflexivity|].
  rewrite IH.
  now destruct (Eff.run (fun i q0 => h R i (f q0)) (S n) (k (h R n (f q)))).
Qed.

End ActFacts.

(* ===================================================================== *)
(** * The scores the message handler compares *)
(* ===================================================================== *)

Module HandlersFacts.
Import Py Models Heuristic HeuristicFacts F64Facts Tracker TrackerFacts.

(** A chat without tracked domains has no contextual violation. *)
Lemma no_domain_no_violation self text chat_id :
  domains_of self chat_id = ∅ ->
  check_contextual_reference self text chat_id = [].
Proof.
  intros H. unfold check_contextual_reference.
  fold (domains_of self chat_id). rewrite H, elements_empty.
  now destruct (negb _).
Qed.

(** What holds of every score of the heuristics, by exhaustion. *)
Lemma score_facts text :
  let h := Heuristic.analyze text in
  is_nan h = false /\
  (F64.leb h (F64.dec 6 10) = true ->
   F64.ltb (F64.dec 6 10) h = false /\ F64.leb (F64.dec 9 10) h = false /\
   F64.ltb (F64.dec 7 10) h = false) /\
  (F64.ltb (F64.dec 6 10) h = true -> F64.ltb h (F64.dec 3 10) = false).
Proof.
  cbv zeta.
  pose proof (all_scores_spec
    (fun h => negb (is_nan h)
              && implb (F64.leb h (F64.dec 6 10))
                       (negb (F64.ltb (F64.dec 6 10) h)
                        && negb (F64.leb (F64.dec 9 10) h)
                        && negb (F64.ltb (F64.dec 7 10) h))
              && implb (F64.ltb (F64.dec 6 10) h)
                       (negb (F64.ltb h (F64.dec 3 10))))
    ltac:(vm_compute; reflexivity) text) as H.
  cbv beta in H.
  destruct (is_nan (Heuristic.analyze text)); [discriminate|].
  destruct (F64.leb (Heuristic.analyze text) (F64.dec 6 10));
    destruct (F64.ltb (F64.dec 6 10) (Heuristic.analyze text));
    destruct (F64.leb (F64.dec 9 10) (Heuristic.analyze text));
    destruct (F64.ltb (F64.dec 7 10) (Heuristic.analyze text));
    destruct (F64.ltb (Heuristic.analyze text) (F64.dec 3 10));
    cbn in H; try discriminate H; repeat split; intros; congruence.
Qed.

Lemma risk_names :
  eqb_str (U "low") (U "critical") = false /\
  eqb_str (U "low") (U "high") = false /\
  eqb_str (U "low") (U "medium") = false /\
  eqb_str (U "medium") (U "critical") = false /\
  eqb_str (U "medium") (U "high") = false /\
  eqb_str (U "medium") (U "medium") = true.
Proof. vm_compute. repeat split. Qed.

End HandlersFacts.

(* ===================================================================== *)
(** * Programs over events: what every run gives *)
(* ===================================================================== *)

Module LeafFacts.
Import Act.

(** [P] holds of every value the program can return in a world whose
    answers satisfy [ok]. *)
Fixpoint leaves {E A} (ok : forall X : Type, E X -> X -> Prop) (P : A -> Prop)
    (p : prog E A) : Prop :=
  match p with
  | Ret a => P a
  | Vis e k => forall x, ok _ e x -> leaves ok P (k x)
  end.

Lemma leaves_run {E A} (ok : forall X : Type, E X -> X -> Prop) (P : A -> Prop)
    (p : prog E A) (h : forall X : Type, nat -> E X -> X) :
  (forall X n e, ok X e (h X n e)) ->
  leaves ok P p -> forall n, P (fst (run h n p)).
Proof.
  intros Hok. induction p as [a|X e k IH]; cbn [leaves run]; intros H n;
    [exact H|].
  specialize (IH (h X n e) (H _ (Hok X n e)) (S n)).
  now destruct (run h (S n) (k (h X n e))).
Qed.

Lemma leaves_bind {E A B} (ok : forall X : Type, E X -> X -> Prop)
    (P : B -> Prop) (p : prog E A) (f : A -> prog E B) :
  leaves ok (fun a => leaves ok P (f a)) p -> leaves ok P (bind p f).
Proof.
  induction p as [a|X e k IH]; cbn [leaves bind]; intros H; [exact H|].
  intros x Hx. apply IH, H, Hx.
Qed.

Lemma leaves_impl {E A} (ok : forall X : Type, E X -> X -> Prop)
    (P Q : A -> Prop) (p : prog E A) :
  (forall a, P a -> Q a) -> leaves ok P p -> leaves ok Q p.
Proof.
  intros HPQ. induction p as [a|X e k IH]; cbn [leaves]; intros H;
    [now apply HPQ|].
  intros x Hx. apply IH, H, Hx.
Qed.


(** The events of a run all satisfy [good]. *)
Fixpoint only {E A} (good : forall X : Type, E X -> bool) (p : prog E A) : Prop :=
  match p with
  | Ret _ => True
  | Vis e k => good _ e = true /\ forall x, only good (k x)
  end.

Definition step_is {E} (good : forall X : Type, E X -> bool) (s : step E) : bool :=
  match s with
  | Step e _ => good _ e
  end.

Lemma only_run {E A} (good : forall X : Type, E X -> bool) (p : prog E A)
    (h : forall X : Type, nat -> E X -> X) :
  only good p -> forall n, forallb (step_is good) (snd (run h n p)) = true.
Proof.
  induction p as [a|X e k IH]; cbn [only run]; intros H n; [reflexivity|].
  destruct H as [He Hk]. specialize (IH (h X n e) (Hk _) (S n)).
  destruct (run h (S n) (k (h X n e))). cbn [snd forallb step_is] in *.
  now rewrite He, IH.
Qed.

Lemma only_bind {E A B} (good : forall X : Type, E X -> bool) (p : prog E A)
    (f : A -> prog E B) :
  only good p -> (forall a, only good (f a)) -> only good (bind p f).
Proof.
  intros Hp Hf. induction p as [a|X e k IH]; cbn [only bind] in *; [apply Hf|].
  destruct Hp as [He Hk]. split; [exact He|]. intros x. apply IH, Hk.
Qed.

End LeafFacts.

(* ===================================================================== *)
(** * The storage seen through its queries *)
(* ===================================================================== *)

Module StorageViews.
Import Py Storage StorageFacts.

Lemma add_violation_count s t w uid category reason :
  snd (add_violation s t w uid category reason) = get_violation_count s uid + 1.
Proof.
  unfold add_violation, get_violation_count. cbn [snd].
  rewrite length_app. cbn [List.length]. f_equal.
  destruct (_load_json (violations_file s) !! str_of_int uid) eqn:E.
  - now rewrite E.
  - now rewrite lookup_insert_eq.
Qed.

Lemma add_violation_written s t uid category reason :
  let s' := fst (add_violation s t Written uid category reason) in
  get_violation_count s' uid = get_violation_count s uid + 1 /\
  bans_file s' = bans_file s /\ messages_file s' = messages_file s.
Proof.
  cbv zeta. split; [|split; reflexivity].
  unfold add_violation, get_violation_count.
  cbn [fst violations_file _save_json _load_json].
  pose proof (lookup_appended (_load_json (violations_file s)) (str_of_int uid)
                (str_of_int uid) (mk_violation category reason t)) as Hl.
  cbv zeta in Hl. rewrite Hl, decide_True by reflexivity.
  rewrite length_app. cbn [List.length]. f_equal.
  now destruct (_load_json (violations_file s) !! str_of_int uid).
Qed.

Lemma ban_user_written s t uid reason :
  let s' := ban_user s t Written uid reason in
  is_banned s' uid = true /\ violations_file s' = violations_file s /\
  messages_file s' = messages_file s.
Proof.
  cbv zeta. unfold ban_user, is_banned.
  cbn [bans_file violations_file messages_file _save_json _load_json].
  now rewrite lookup_insert_eq.
Qed.

Lemma add_message_files s t w uid mid text chat :
  violations_file (add_message s t w uid mid text chat) = violations_file s /\
  bans_file (add_message s t w uid mid text chat) = bans_file s.
Proof. split; reflexivity. Qed.

(** The queries read one file each. *)
Lemma count_by_file s s' uid :
  violations_file s' = violations_file s ->
  get_violation_count s' uid = get_violation_count s uid.
Proof. unfold get_violation_count. now intros ->. Qed.

Lemma banned_by_file s s' uid :
  bans_file s' = bans_file s -> is_banned s' uid = is_banned s uid.
Proof. unfold is_banned. now intros ->. Qed.

Lemma unban_written s uid :
  is_banned (unban_user s Written uid) uid = false /\
  violations_file (unban_user s Written uid) = violations_file s.
Proof.
  unfold unban_user, is_banned.
  destruct (_load_json (bans_file s) !! str_of_int uid) eqn:E;
    cbn [bans_file violations_file _save_json _load_json].
  - now rewrite lookup_delete_eq.
  - now rewrite E.
Qed.

Lemma clear_written s uid :
  get_violation_count (clear_violations s Written uid) uid = 0 /\
  bans_file (clear_violations s Written uid) = bans_file s.
Proof.
  unfold clear_violations, get_violation_count.
  destruct (_load_json (violations_file s) !! str_of_int uid) eqn:E;
    cbn [bans_file violations_file _save_json _load_json].
  - now rewrite lookup_delete_eq.
  - now rewrite E.
Qed.

End StorageViews.

(* ===================================================================== *)
(** * The moderation bot *)
(* ===================================================================== *)

Module BotFacts.
Import Py Act Bot LeafFacts ActFacts.

(** A world in which every file is written. *)
Definition written (X : Type) (e : event X) : X -> Prop :=
  match e in event X return X -> Prop with
  | save _ => fun w => w = Storage.Written
  | _ => fun _ => True
  end.

(** Any world. *)
Definition any (X : Type) (e : event X) (x : X) : Prop := True.








(** The run for a message of a banned user or a message reported as
    spam. *)
Lemma refused_run (self : ModerationBot) (m : Message) (u : User)
    (message_text : str) (q : option CallbackQuery)
    (h : forall X : Type, nat -> event X -> X) (n : nat) :
  text m = Some message_text ->
  message_text <> [] ->
  from_user m = Some u ->
  let verdict :=
    snd (Spam.check_spam (spam_detector self) message_text (Some (id u))) in
  let first :=
    if Storage.is_banned (storage self) (id u)
    then BanNotice (Storage.get_ban_reason (storage self) (id u))
    else SpamNotice (Spam.similarity_score verdict) in
  Storage.is_banned (storage self) (id u) || Spam.is_spam verdict = true ->
  run h n (process_message self (mk_update (Some m) q))
  = match h _ n (reply_text first) with
    | Done => ((self, Returned), [Step (reply_text first) Done])
    | Failed =>
      ((self,
        match h _ (S n) (reply_text ProcessingError) with
        | Done => Returned
        | Failed => Raised
        end),
       [Step (reply_text first) Failed;
        Step (reply_text ProcessingError) (h _ (S n) (reply_text ProcessingError))])
    end.
Proof.
  intros Ht Hne Hu verdict first Href.
  unfold process_message. cbn [message]. rewrite Ht, Hu.
  destruct message_text as [|c s]; [now contradiction Hne|].
  subst first verdict.
  destruct (Storage.is_banned (storage self) (id u)).
  - unfold reply_and_return, report_error. cbn [run].
    destruct (h answer n _); cbn [run]; [reflexivity|].
    now destruct (h answer (S n) _).
  - cbn [orb] in Href. rewrite Href.
    unfold reply_and_return, report_error. cbn [run].
    destruct (h answer n _); cbn [run]; [reflexivity|].
    now destruct (h answer (S n) _).
Qed.

End BotFacts.

Module StrikeFacts.
Import Py Act Bot LeafFacts ActFacts BotFacts StorageViews.

(** What a serious violation leaves in the storage when the files are
    written. *)
Definition struck (self : ModerationBot) (uid : Z) (self' : ModerationBot)
    : Prop :=
  Storage.get_violation_count (storage self') uid
  = Storage.get_violation_count (storage self) uid + 1 /\
  Storage.is_banned (storage self') uid
  = (max_violations self
     <=? Z.of_nat (Storage.get_violation_count (storage self) uid + 1))%Z
    || Storage.is_banned (storage self) uid.

Lemma _handle_category_a_struck self uid analysis :
  leaves written (struck self uid) (_handle_category_a self uid analysis).
Proof.
  unfold _handle_category_a, add_violation, ban_user.
  cbn [leaves bind]. intros t _ w Hw a _. cbn [written] in Hw. subst w.
  rewrite add_violation_count.
  destruct (add_violation_written (storage self) t uid (U "CATEGORY_A")
              (Moderator.reason analysis)) as (Hc & Hb & _).
  destruct (_ <=? _)%Z eqn:E; cbn [leaves bind].
  - intros t' _ w' Hw' a' _. cbn [written] in Hw'. subst w'.
    destruct (ban_user_written
                (fst (Storage.add_violation (storage self) t Storage.Written uid
                        (U "CATEGORY_A") (Moderator.reason analysis)))
                t' uid (limit_reason (max_violations self))) as (H1 & H2 & _).
    split; cbn [with_storage storage max_violations].
    + rewrite (count_by_file _ _ _ H2). exact Hc.
    + rewrite H1. rewrite E. reflexivity.
  - intros a' _. split; cbn [with_storage storage max_violations].
    + exact Hc.
    + rewrite E. cbn [orb]. now apply banned_by_file.
Qed.

Lemma after_analysis_struck self m u message_text analysis :
  Moderator.category analysis = Moderator.CATEGORY_A ->
  leaves written (fun res => struck self (id u) (fst res))
         (after_analysis self m u message_text analysis).
Proof.
  intros Hcat. unfold after_analysis, spellcheck_step, dispatch.
  rewrite Hcat. cbn [bind]. unfold add_message. cbn [leaves bind].
  intros t _ w Hw. cbn [written] in Hw. subst w.
  apply leaves_bind.
  eapply leaves_impl; [|apply _handle_category_a_struck].
  intros self' (Hc & Hb). cbn [leaves fst].
  unfold struck in *. cbn [storage max_violations] in *.
  destruct (add_message_files (storage self) t Storage.Written (id u)
              (message_id m) message_text (Some (chat_id m))) as (Hv & Hbf).
  rewrite (count_by_file _ _ _ Hv) in Hc, Hb.
  rewrite (banned_by_file _ _ _ Hbf) in Hb. split; assumption.
Qed.

End StrikeFacts.

(* ===================================================================== *)
(** * The commands and buttons of the bot *)
(* ===================================================================== *)

Module CommandFacts.
Import Py Act Bot LeafFacts ActFacts BotFacts StorageViews.

Lemma report_unban_error_leaves ok self :
  leaves ok (fun res => fst res = self) (report_unban_error self).
Proof. cbn. now intros [] _. Qed.

Lemma say_leaves ok self x :
  leaves ok (fun res => fst res = self) (say self x).
Proof.
  cbn. intros [] _; [reflexivity|]. apply report_unban_error_leaves.
Qed.

(** The storage after the two calls of [unban_command], when the files
    are written. *)
Lemma restore_leaves s target
    (f : Storage.Storage -> prog event (ModerationBot * ending)) :
  (forall s', leaves written (fun res => storage (fst res) = s') (f s')) ->
  leaves written
    (fun res =>
       storage (fst res)
       = Storage.clear_violations
           (Storage.unban_user s Storage.Written target) Storage.Written target)
    (bind (unban_user s target)
          (fun s1 => bind (clear_violations s1 target) f)).
Proof.
  intros Hf.
  assert (Hclear : forall s1,
            leaves written
              (fun res => storage (fst res)
                          = Storage.clear_violations s1 Storage.Written target)
              (bind (clear_violations s1 target) f)).
  { intros s1. unfold clear_violations, Storage.clear_violations.
    destruct (Storage._load_json (Storage.violations_file s1)
              !! Storage.str_of_int target) eqn:E.
    - cbn [bind leaves written]. intros w ->. apply Hf.
    - cbn [bind]. apply Hf. }
  unfold unban_user, Storage.is_banned.
  destruct (Storage._load_json (Storage.bans_file s)
            !! Storage.str_of_int target) eqn:E.
  - cbn [bind leaves written]. intros w ->. apply Hclear.
  - cbn [bind]. replace (Storage.unban_user s Storage.Written target) with s.
    + apply Hclear.
    + unfold Storage.unban_user. now rewrite E.
Qed.

Definition shows_no_correction (X : Type) (e : event X) : bool :=
  match e with
  | edit_message_text (Corrected _) => false
  | _ => true
  end.

Lemma report_correction_error_quiet :
  only shows_no_correction report_correction_error.
Proof. cbn. split; [reflexivity|]. now intros []. Qed.

Lemma edit_quiet x :
  shows_no_correction _ (edit_message_text x) = true ->
  only shows_no_correction (edit x).
Proof.
  intros H. cbn [edit only]. split; [exact H|].
  intros []; [exact I | apply report_correction_error_quiet].
Qed.

End CommandFacts.

(* ===================================================================== *)
(** * The properties of the specification *)
(* ===================================================================== *)

Import Py.

(** ** Registry matching (agent_moderator.py) *)

Section RegistryClaims.
Import Re Eff Moderator ModeratorFacts.

(** C1 (amended): for a registry entry [name] of at least two tokens and a
    message of more than one token, if at least two tokens of the entry
    are tokens of the message and the first two tokens of the entry occur
    in that order in the normalized text, then [analyze_message] returns
    CATEGORY_C at once, without any call to the language model, and its
    reason names the first entry, in the iteration order of the registry,
    that passes this same test; that entry is [name] whenever no other
    entry passes the test.  An entry of fewer than two tokens never
    passes it. *)
Theorem direct_match_first_hit (self : ModeratorAgent) (message : str)
    (chat_history : option (list str)) (name : str) :
  In name (inoagents self) ->
  2 <= List.length (name_tokens name) ->
  1 < List.length (tokens_of message) ->
  2 <= matched_tokens (name_tokens name) (msg_tokens_set message) ->
  found (ordered_pattern (nth 0 (name_tokens name) []) (nth 1 (name_tokens name) []))
        (_normalize message) = true ->
  (exists first,
      direct_stage self message = Some first /\
      In first (inoagents self) /\
      direct_hit message first = true /\
      analyze_message self message chat_history
      = Ret (result CATEGORY_C (registry_reason ++ first) (extract_urls message)) /\
      ((forall other, In other (inoagents self) ->
                      direct_hit message other = true -> other = name) ->
       first = name)) /\
  (forall short, List.length (name_tokens short) < 2 ->
                 direct_hit message short = false).
Proof.
  intros Hin Hlen Htok Hm Hre. split; [|intros short; apply direct_hit_short].
  pose proof (direct_hit_intro message name Hlen Hm Hre) as Hhit.
  destruct (find_first (direct_hit message) (inoagents self) name Hin Hhit)
    as (first & Efind & Hfirst & Hfhit).
  exists first. repeat split; try assumption.
  - unfold analyze_message.
    rewrite guard_none_many by lia.
    unfold direct_stage. now rewrite Efind.
  - intros Honly. now apply Honly.
Qed.

Definition petrov : str := U "петров петр".
Definition ivanov : str := U "иванов иван".
Definition two_names : str := U "Петров Петр и Иванов Иван".

Lemma direct_match_first_hit_witness :
  exists first,
    analyze_message (mk_agent [ivanov] []) two_names None
    = Ret (result CATEGORY_C (registry_reason ++ first) (extract_urls two_names)).
Proof.
  destruct (direct_match_first_hit (mk_agent [ivanov] []) two_names None ivanov)
    as [(first & _ & _ & _ & H & _) _].
  - left; reflexivity.
  - vm_compute; lia.
  - vm_compute; lia.
  - vm_compute; lia.
  - vm_compute; reflexivity.
  - exists first. exact H.
Defined.

(** C1 as stated fails: with two entries that both pass the test, the
    entry that the registry yields second is not named in the reason, in
    whichever order the set is iterated. *)
Lemma direct_match_names_other_entry :
  (In ivanov [petrov; ivanov] /\
   direct_hit two_names ivanov = true /\
   1 < List.length (tokens_of two_names) /\
   analyze_message (mk_agent [petrov; ivanov] []) two_names None
   = Ret (result CATEGORY_C (registry_reason ++ petrov) []) /\
   contains ivanov (registry_reason ++ petrov) = false) /\
  (In petrov [ivanov; petrov] /\
   direct_hit two_names petrov = true /\
   1 < List.length (tokens_of two_names) /\
   analyze_message (mk_agent [ivanov; petrov] []) two_names None
   = Ret (result CATEGORY_C (registry_reason ++ ivanov) []) /\
   contains petrov (registry_reason ++ ivanov) = false).
Proof.
  split; (split; [right; left; reflexivity|]);
    (split; [vm_compute; reflexivity|]);
    (split; [vm_compute; lia|]);
    (split; vm_compute; reflexivity).
Qed.

(** C4 (amended): for a token of the message whose normalized form has at
    least 4 characters, is not stop-listed and is not itself a pseudonym,
    if the ratio between its transliteration and the Latin projection of a
    registered alias (both of length at least 4) is at least 0.80, then
    [analyze_message] returns CATEGORY_C without any call to the language
    model, and the reason names the entry of the first hit in processing
    order: the entry of the direct stage if it has one, else the entry of
    the first token and alias that hit.  It is the entry of that alias when
    the direct stage has no hit, no other token hits, and every alias that
    reaches 0.80 on the token maps to the same entry.  A pair hits exactly
    when both sides have at least 4 characters and the ratio is at least
    0.80: a ratio of 0.60 does not hit, and an alias with a shorter Latin
    projection never does. *)
Theorem fuzzy_alias_first_hit (self : ModeratorAgent) (message : str)
    (chat_history : option (list str)) :
  (forall t p fio,
      In t (tokens_of message) ->
      4 <= List.length (_normalize t) ->
      mem_str (_normalize t) token_blacklist = false ->
      dict_get (_normalize t) (pseudonyms self) = None ->
      In (p, fio) (pseudonyms self) ->
      4 <= List.length (p_ascii p) ->
      4 <= List.length (_ru_to_lat (_normalize t)) ->
      (fuzzy_threshold <= Difflib.ratio (_ru_to_lat (_normalize t)) (p_ascii p))%Q ->
      exists who,
        analyze_message self message chat_history
        = Ret (result CATEGORY_C (registry_reason ++ who) (extract_urls message)) /\
        (direct_stage self message = Some who \/
         (direct_stage self message = None /\
          pseudonym_stage (pseudonyms self) (tokens_of message) = Some who)) /\
        (direct_stage self message = None ->
         (forall t', In t' (tokens_of message) ->
                     _normalize t' <> _normalize t ->
                     pseudonym_stage (pseudonyms self) [t'] = None) ->
         (forall p' fio', In (p', fio') (pseudonyms self) ->
                          fuzzy_hit (_ru_to_lat (_normalize t)) p' = true ->
                          fio' = fio) ->
         who = fio)) /\
  (forall t_lat p,
      fuzzy_hit t_lat p = true <->
      4 <= List.length (p_ascii p) /\ 4 <= List.length t_lat /\
      (fuzzy_threshold <= Difflib.ratio t_lat (p_ascii p))%Q) /\
  (forall t_lat p,
      (Difflib.ratio t_lat (p_ascii p) == Qmake 60 100)%Q ->
      fuzzy_hit t_lat p = false) /\
  (forall t_lat p, List.length (p_ascii p) < 4 -> fuzzy_hit t_lat p = false).
Proof.
  split; [|split; [|split]].
  - intros t p fio Hin Hlen Hbl Hget Hp Hpa Hta Hratio.
    assert (Hhit : fuzzy_hit (_ru_to_lat (_normalize t)) p = true)
      by (apply fuzzy_hit_spec; auto).
    assert (Hguard : single_token_guard token_blacklist message (extract_urls message) = None)
      by (apply (guard_none_token message _ t); auto; lia).
    unfold analyze_message. rewrite Hguard.
    destruct (direct_stage self message) as [name|] eqn:Ed.
    + exists name. split; [reflexivity|]. split; [now left|]. discriminate.
    + destruct (pseudonym_stage_hit _ _ _ _ _ Hin Hlen Hbl Hget Hp Hhit) as [who Ew].
      rewrite Ew. exists who. split; [reflexivity|]. split; [now right|].
      intros _ Hothers Hsame.
      assert (E : pseudonym_stage (pseudonyms self) (tokens_of message) = Some fio).
      { apply (pseudonym_stage_unique _ _ t); auto. now exists p. }
      congruence.
  - intros. apply fuzzy_hit_spec.
  - intros t_lat p Hr. destruct (fuzzy_hit t_lat p) eqn:E; [|reflexivity].
    apply fuzzy_hit_spec in E as (_ & _ & E). rewrite Hr in E.
    exfalso. revert E. unfold fuzzy_threshold, Qle. cbn. lia.
  - intros t_lat p Hlen. destruct (fuzzy_hit t_lat p) eqn:E; [|reflexivity].
    apply fuzzy_hit_spec in E. lia.
Qed.

Definition fedorov : str := U "федоров мирон".
Definition stage_names : list (str * str) :=
  [(U "oxxxymiron", fedorov); (U "oxxymiron", ivanov)].
Definition stage_message : str := U "oxymiron".

Lemma fuzzy_alias_first_hit_witness :
  exists who,
    analyze_message (mk_agent [] stage_names) stage_message None
    = Ret (result CATEGORY_C (registry_reason ++ who) (extract_urls stage_message)).
Proof.
  destruct (fuzzy_alias_first_hit (mk_agent [] stage_names) stage_message None)
    as [H _].
  destruct (H stage_message (U "oxxymiron") ivanov) as (who & Hwho & _).
  - vm_compute; tauto.
  - vm_compute; lia.
  - vm_compute; reflexivity.
  - vm_compute; reflexivity.
  - right; left; reflexivity.
  - vm_compute; lia.
  - vm_compute; lia.
  - vm_compute; discriminate.
  - exists who. exact Hwho.
Defined.

(** C4 as stated fails: the token is within 0.80 of the alias [oxxymiron],
    yet the result names the entry of the alias [oxxxymiron], which the
    dictionary yields first and which also reaches 0.80. *)
Lemma fuzzy_alias_names_other_entry :
  In stage_message (tokens_of stage_message) /\
  4 <= List.length (_normalize stage_message) /\
  mem_str (_normalize stage_message) token_blacklist = false /\
  dict_get (_normalize stage_message) stage_names = None /\
  In (U "oxxymiron", ivanov) stage_names /\
  4 <= List.length (p_ascii (U "oxxymiron")) /\
  4 <= List.length (_ru_to_lat (_normalize stage_message)) /\
  (fuzzy_threshold <=
   Difflib.ratio (_ru_to_lat (_normalize stage_message)) (p_ascii (U "oxxymiron")))%Q /\
  analyze_message (mk_agent [] stage_names) stage_message None
  = Ret (result CATEGORY_C (registry_reason ++ fedorov) []) /\
  contains ivanov (registry_reason ++ fedorov) = false.
Proof.
  split; [vm_compute; tauto|].
  split; [vm_compute; lia|].
  split; [vm_compute; reflexivity|].
  split; [vm_compute; reflexivity|].
  split; [right; left; reflexivity|].
  split; [vm_compute; lia|].
  split; [vm_compute; lia|].
  split; [vm_compute; discriminate|].
  split; vm_compute; reflexivity.
Qed.

(** C2: when the last call of a run is the classification, its answer is
    parsed as CATEGORY_C, the message has no name-pair candidate and none
    of its tokens is a known pseudonym, the final category is CLEAN.  (The
    classifier is only called when the alias step matched no registry
    name.) *)
Theorem llm_registry_verdict_downgraded (o : nat -> request -> reply)
    (self : ModeratorAgent) (message : str) (chat_history : option (list str))
    (q : request) (response : str) :
  last (snd (run o 0 (analyze_message self message chat_history)))
  = Some (q, Text response) ->
  system q = Classify ->
  fst (parse_response response) = CATEGORY_C ->
  local_candidates message = [] ->
  (forall t, In t (tokens_of message) ->
             dict_get (_normalize t) (pseudonyms self) = None) ->
  category (fst (run o 0 (analyze_message self message chat_history))) = CLEAN.
Proof.
  intros Hlast Hq Hparse Hcand Hps.
  rewrite (run_last_classify o self message chat_history q (Text response) Hlast Hq).
  unfold after_classify.
  destruct (parse_response response) as [c why] eqn:Ep. cbn [fst] in Hparse. subst c.
  rewrite (classify_result_downgrade self message response _ why Ep); [reflexivity|].
  unfold has_local_name. rewrite Hcand. unfold has_pseudonym_token.
  destruct (existsb _ (tokens_of message)) eqn:E; [|reflexivity].
  apply existsb_exists in E as (t & Hin & Ht). now rewrite (Hps t Hin) in Ht.
Qed.

(** A classifier that answers with the registry category. *)
Definition says_registry (n : nat) (q : request) : reply :=
  match system q with
  | Classify => Text (U "КАТЕГОРИЯ: CATEGORY_C")
  | _ => Text []
  end.

Definition accusation : str := U "ты иноагент".

Lemma llm_registry_verdict_downgraded_witness :
  category (fst (run says_registry 0 (analyze_message (mk_agent [] []) accusation None)))
  = CLEAN.
Proof.
  apply (llm_registry_verdict_downgraded says_registry (mk_agent [] []) accusation None
           (mk_request Classify (user_message accusation None))
           (U "КАТЕГОРИЯ: CATEGORY_C")).
  - vm_compute; reflexivity.
  - reflexivity.
  - vm_compute; reflexivity.
  - vm_compute; reflexivity.
  - intros t _. reflexivity.
Defined.

(** C3: when the last call of a run is the classification and it fails
    (the client raises, or its answer is not text), the result is the one
    of the keyword lists: CATEGORY_A if a threat word occurs in the
    normalized text, else CATEGORY_B if a rude word occurs, else CLEAN,
    with the links of the message; the failure does not reach the caller. *)
Theorem llm_failure_falls_back (o : nat -> request -> reply)
    (self : ModeratorAgent) (message : str) (chat_history : option (list str))
    (q : request) (r : reply) :
  last (snd (run o 0 (analyze_message self message chat_history))) = Some (q, r) ->
  system q = Classify ->
  (forall response, r <> Text response) ->
  let res := fst (run o 0 (analyze_message self message chat_history)) in
  let threat := existsb (fun w => contains w (_normalize message)) threat_words in
  let rude := existsb (fun w => contains w (_normalize message)) rude_words in
  res = local_fallback message (extract_urls message) /\
  category res = (if threat then CATEGORY_A else if rude then CATEGORY_B else CLEAN) /\
  links res = extract_urls message /\
  has_links res = (0 <? List.length (extract_urls message)).
Proof.
  intros Hlast Hq Hfail. cbv zeta.
  rewrite (run_last_classify o self message chat_history q r Hlast Hq).
  assert (E : after_classify self message r
              = local_fallback message (extract_urls message)).
  { destruct r as [| |response]; try reflexivity. now destruct (Hfail response). }
  rewrite E. split; [reflexivity|].
  apply (local_fallback_category message (extract_urls message)).
Qed.

(** A client whose classification call times out. *)
Definition times_out (n : nat) (q : request) : reply :=
  match system q with
  | Classify => Raises
  | _ => Text []
  end.

Definition threat_message : str := U "я тебя убью".

Lemma llm_failure_falls_back_witness :
  category (fst (run times_out 0 (analyze_message (mk_agent [] []) threat_message None)))
  = CATEGORY_A.
Proof.
  destruct (llm_failure_falls_back times_out (mk_agent [] []) threat_message None
              (mk_request Classify (user_message threat_message None)) Raises)
    as (_ & H & _).
  - vm_compute; reflexivity.
  - reflexivity.
  - discriminate.
  - rewrite H. vm_compute; reflexivity.
Defined.

(** C9 (defect of the loader): the alias [Agent] passes the filter and its
    derived transliteration, a word of the deny-list, is stored as a key;
    the derived alias of [Dj Смэш] has two characters; and with the
    derived key of [Radio] in the mapping, a message that contains the
    common word is reported as a mention of that person. *)
Theorem derived_alias_escapes_filter :
  (let agent := _load_inoagents (Some [U "Иванов Иван Иванович, псевдоним «Agent»"]) in
   pseudonyms agent = [(U "agent", U "иванов иван иванович");
                       (U "агент", U "иванов иван иванович")] /\
   mem_str (U "агент") pseudo_blacklist = true) /\
  (let agent := _load_inoagents (Some [U "Петров Петр «Dj Смэш»"]) in
   pseudonyms agent = [(U "dj смэш", U "петров петр"); (U "дй", U "петров петр")] /\
   List.length (U "дй") = 2) /\
  (let agent := _load_inoagents (Some [U "Иванов Иван Иванович, псевдоним «Radio»"]) in
   dict_get (U "радио") (pseudonyms agent) = Some (U "иванов иван иванович") /\
   mem_str (U "радио") pseudo_blacklist = true /\
   analyze_message agent (U "слушаю радио") None
   = Ret (result CATEGORY_C (registry_reason ++ U "иванов иван иванович") [])).
Proof.
  repeat split; vm_compute; reflexivity.
Qed.

End RegistryClaims.

(** ** Spam detection (agent_spam_detector.py) *)

Section SpamClaims.
Import Spam SpamFacts DifflibFacts.

(** C5 (amended): the reported similarity is the maximum of the
    case-insensitive ratios between the message and the entries of the
    window (0.0 on an empty window); [is_spam] holds exactly when it is at
    least the threshold; a text equal to an entry up to case yields 1.0;
    the ratio is 1.0 exactly when the two lowercased texts are equal; and on
    an empty window, for a positive threshold, the result is not spam with
    similarity 0.0.  The ratio is not symmetric. *)
Theorem check_spam_verdict (self : SpamDetectorAgent) (message : str)
    (uid : option Z) :
  let r := snd (check_spam self message uid) in
  (forall e, In e (history self) ->
             (_calculate_similarity message (text e) <= similarity_score r)%Q) /\
  ((exists e, In e (history self) /\
              (similarity_score r == _calculate_similarity message (text e))%Q) \/
   (history self = [] /\ similarity_score r = 0%Q)) /\
  (is_spam r = true <-> (similarity_threshold self <= similarity_score r)%Q) /\
  (forall e, In e (history self) -> lower (text e) = lower message ->
             (similarity_score r == 1)%Q) /\
  (forall t1 t2, (_calculate_similarity t1 t2 == 1)%Q <-> lower t1 = lower t2) /\
  (history self = [] -> (0 < similarity_threshold self)%Q ->
   is_spam r = false /\ similarity_score r = 0%Q).
Proof.
  cbv zeta. unfold check_spam, check_spam_with.
  destruct (scan_history_max _calculate_similarity message (history self) 0%Q [])
    as (m & s & Hrun & Hge & Hall & Hwho).
  rewrite Hrun. cbn [snd is_spam similarity_score].
  assert (Hsim1 : forall t1 t2,
             (_calculate_similarity t1 t2 == 1)%Q <-> lower t1 = lower t2).
  { intros t1 t2. unfold _calculate_similarity. split.
    - apply ratio_1_eq.
    - intros ->. apply ratio_refl. }
  split; [exact Hall|]. split; [|split; [|split; [|split]]].
  - destruct Hwho as [[-> _]|(e & He & -> & _)].
    + destruct (history self) as [|e h] eqn:Eh; [now right|].
      left. exists e. split; [now left|].
      apply Qle_antisym.
      * apply ratio_nonneg.
      * apply Hall. now left.
    + left. exists e. split; [assumption | reflexivity].
  - apply Qle_bool_iff.
  - intros e He Heq. apply Qle_antisym.
    + destruct Hwho as [[-> _]|(e' & _ & -> & _)].
      * discriminate.
      * apply ratio_le_1.
    + assert (H1 : (_calculate_similarity message (text e) == 1)%Q)
        by (apply Hsim1; now symmetry).
      rewrite <- H1. now apply Hall.
  - exact Hsim1.
  - intros Hh Hpos. rewrite Hh in Hwho.
    destruct Hwho as [[-> _]|(e & [] & _)].
    split; [|reflexivity].
    destruct (Qle_bool (similarity_threshold self) 0) eqn:E; [|reflexivity].
    apply Qle_bool_iff in E. exfalso. exact (Qlt_not_le _ _ Hpos E).
Qed.

Definition one_message : SpamDetectorAgent :=
  add_message (init MESSAGE_HISTORY_SIZE SPAM_SIMILARITY_THRESHOLD)
              (U "Купите слона") None.

Lemma check_spam_verdict_witness :
  (similarity_score (snd (check_spam one_message (U "купите СЛОНА") None)) == 1)%Q.
Proof.
  pose proof (check_spam_verdict one_message (U "купите СЛОНА") None) as H.
  cbv zeta in H. destruct H as (_ & _ & _ & H & _).
  apply (H (mk_entry (U "Купите слона") None)).
  - left; reflexivity.
  - vm_compute; reflexivity.
Defined.

(** C5 as stated fails: the ratio of two texts changes when they are
    swapped, and with a threshold of 0.0 the empty window reports spam. *)
Lemma similarity_not_symmetric :
  ~ (_calculate_similarity (U "tide") (U "diet")
     == _calculate_similarity (U "diet") (U "tide"))%Q /\
  is_spam (snd (check_spam (init MESSAGE_HISTORY_SIZE 0%Q) (U "tide") None)) = true.
Proof.
  split; [|vm_compute; reflexivity].
  vm_compute. discriminate.
Qed.

(** C10 (amended): [check_spam] returns the agent as it was, also when
    the similarity computation raises.  The window changes only in
    [add_message], which keeps the capacity and the threshold: for a
    positive capacity the new window is the old one, without its oldest
    entry when it was full, followed by exactly the new entry; an empty
    window of capacity 0 stays empty. *)
Theorem check_spam_keeps_window (self : SpamDetectorAgent) (message : str)
    (uid : option Z) :
  (forall sim, fst (check_spam_with sim self message uid) = self) /\
  fst (check_spam self message uid) = self /\
  maxlen (add_message self message uid) = maxlen self /\
  similarity_threshold (add_message self message uid) = similarity_threshold self /\
  (0 < maxlen self ->
   history (add_message self message uid) =
   (if List.length (history self) <? maxlen self
    then history self else tl (history self)) ++ [mk_entry message uid]) /\
  (maxlen self = 0 -> history self = [] ->
   history (add_message self message uid) = []).
Proof.
  split; [intros sim; apply check_spam_with_frame|].
  split; [apply check_spam_with_frame|].
  split; [reflexivity|]. split; [reflexivity|]. split.
  - intros Hpos. cbn [add_message history]. now apply deque_append_positive.
  - intros Hcap Hh. cbn [add_message history]. now rewrite Hcap, Hh.
Qed.

Lemma check_spam_keeps_window_witness :
  history (add_message one_message (U "ещё") None)
  = history one_message ++ [mk_entry (U "ещё") None].
Proof.
  destruct (check_spam_keeps_window one_message (U "ещё") None)
    as (_ & _ & _ & _ & H & _).
  rewrite H; [reflexivity | vm_compute; lia].
Defined.

(** C10 as stated fails: in a window of capacity 0 [add_message] appends
    nothing, and in a full window the append also removes the oldest
    entry. *)
Lemma add_message_bounded_window :
  history (add_message (init 0 SPAM_SIMILARITY_THRESHOLD) (U "a") None) = [] /\
  (let full :=
     add_message (add_message (init 2 SPAM_SIMILARITY_THRESHOLD) (U "a") None)
                 (U "b") None in
   history full = [mk_entry (U "a") None; mk_entry (U "b") None] /\
   history (add_message full (U "c") None)
   = [mk_entry (U "b") None; mk_entry (U "c") None]).
Proof.
  repeat split.
Qed.

End SpamClaims.

(** ** Heuristic scoring and escalation (test/analyzers) *)

Section EscalationClaims.
Import Re Eff Models Heuristic HeuristicFacts MultiLevel.

(** C7: the score is the sum of 0.1 per danger phrase that matches and
    0.05 per aggressive word that occurs, times 1.3 exactly when the text
    has more than 20 words and that sum exceeds 0.2; the value returned is
    this score capped at 1.0 and lies in [0, 1]. *)
Theorem heuristic_score_formula (text : str) :
  let base := base_sum (n_danger text) (n_aggressive text) in
  raw_score text =
    (if (20 <? List.length (split_ws text)) && F64.ltb f0_2 base
     then F64.mul base f1_3 else base) /\
  Heuristic.analyze text = F64.pymin (raw_score text) F64.one /\
  F64.leb F64.zero (Heuristic.analyze text) = true /\
  F64.leb (Heuristic.analyze text) F64.one = true.
Proof.
  cbv zeta. split; [apply raw_score_eq|]. split; [reflexivity|].
  apply andb_true_iff.
  apply (all_scores_spec (fun x => F64.leb F64.zero x && F64.leb x F64.one)).
  vm_compute. reflexivity.
Qed.

(** C6: when the contextual stage reports nothing (the domain stage never
    does), a score below 0.3 gives the risk level low with the score and no
    call to the language model; a score above 0.6 gives one call, the
    maximum of the score and the reported toxicity, and the reported risk
    level (0 and medium stand for missing keys); any other score gives
    medium with the score and no call. *)
Theorem escalation_by_score (self : MultiLevelAnalyzer) (text : str)
    (chat_id uid : Z) :
  cfg self = ANALYSIS_CONFIG ->
  Tracker.check_contextual_reference (context_tracker self) text chat_id = [] ->
  let h := Heuristic.analyze text in
  _check_rkn_violations text chat_id uid = [] /\
  (F64.ltb h (F64.dec 3 10) = true ->
   MultiLevel.analyze self text chat_id uid
   = Ret (mk_res (U "low") h [] [] None [] (U "heuristic"))) /\
  (F64.ltb (F64.dec 6 10) h = true ->
   exists k,
     MultiLevel.analyze self text chat_id uid = Call text k /\
     forall llm, exists res,
       k llm = Ret res /\
       final_score res = F64.pymax h (default F64.zero (toxicity_score llm)) /\
       risk_level res = default (U "medium") (llm_risk_level llm) /\
       llm_analysis res = Some llm) /\
  (F64.ltb h (F64.dec 3 10) = false -> F64.ltb (F64.dec 6 10) h = false ->
   MultiLevel.analyze self text chat_id uid
   = Ret (mk_res (U "medium") h [] [] None [] (U "heuristic"))).
Proof.
  intros Hcfg Hctx. cbv zeta. split; [reflexivity|].
  unfold MultiLevel.analyze. cbn [_check_rkn_violations]. rewrite Hctx, Hcfg.
  cbn [fast_check_threshold deep_analysis_threshold ANALYSIS_CONFIG].
  split; [|split].
  - intros ->. reflexivity.
  - intros Hhigh.
    assert (Hlow : F64.ltb (Heuristic.analyze text) (F64.dec 3 10) = false).
    { pose proof (all_scores_spec
        (fun x => implb (F64.ltb (F64.dec 6 10) x) (negb (F64.ltb x (F64.dec 3 10))))
        ltac:(vm_compute; reflexivity) text) as H.
      cbv beta in H. rewrite Hhigh in H. cbn [implb] in H.
      now apply negb_true_iff in H. }
    rewrite Hlow, Hhigh. unfold _perform_deep_analysis.
    eexists. split; [reflexivity|]. intros llm. eexists. split; [reflexivity|].
    repeat split.
  - intros -> ->. reflexivity.
Qed.

Definition quiet : MultiLevelAnalyzer :=
  mk_analyzer (Tracker.init 50 24) ANALYSIS_CONFIG.

Lemma escalation_by_score_witness :
  MultiLevel.analyze quiet (U "добрый день") 1 2
  = Ret (mk_res (U "low") (Heuristic.analyze (U "добрый день")) [] [] None []
                (U "heuristic")).
Proof.
  destruct (escalation_by_score quiet (U "добрый день") 1 2) as (_ & H & _).
  - reflexivity.
  - vm_compute; reflexivity.
  - apply H. vm_compute; reflexivity.
Defined.

End EscalationClaims.

(** ** Contextual mentions (test/services/context_tracker.py) *)

Section TrackerClaims.
Import Re Models Tracker TrackerFacts.

(** C8 (amended): without a back-reference phrase in the lowercased text
    the result is empty; with one, the result holds exactly one violation
    for every tracked domain of the chat whose first label (the text before
    its first dot) has more than 3 characters and occurs in the lowercased
    text, and none for any other domain. *)
Theorem contextual_reference_by_first_label (self : ContextualMentionTracker)
    (text : str) (chat_id : Z) :
  (has_context (lower text) = false ->
   check_contextual_reference self text chat_id = []) /\
  (has_context (lower text) = true ->
   forall d,
     (d ∈ domains_of self chat_id ->
      3 < List.length (domain_name d) ->
      contains (domain_name d) (lower text) = true ->
      violations_for d (check_contextual_reference self text chat_id) = 1 /\
      In (violation_of d) (check_contextual_reference self text chat_id)) /\
     (~ (d ∈ domains_of self chat_id /\
         3 < List.length (domain_name d) /\
         contains (domain_name d) (lower text) = true) ->
      violations_for d (check_contextual_reference self text chat_id) = 0)).
Proof.
  split.
  - intros H. unfold check_contextual_reference. now rewrite H.
  - intros Hctx d.
    destruct (check_as_map self text chat_id Hctx) as (l & Hnd & Hl & ->).
    assert (Hm : mentions (lower text) d = true <->
                 3 < List.length (domain_name d) /\
                 contains (domain_name d) (lower text) = true).
    { unfold mentions. rewrite andb_true_iff, Nat.ltb_lt. reflexivity. }
    split.
    + intros Hd Hlen Hin.
      assert (In d l) by (apply Hl; split; [assumption | apply Hm; auto]).
      split; [now apply violations_for_present | now apply in_map].
    + intros Hno. apply violations_for_absent. intros Hin.
      apply Hl in Hin as [Hd Hmen]. apply Hm in Hmen. tauto.
Qed.

Definition forum : str := U "forum.example.com".
Definition forum_chat : ContextualMentionTracker :=
  track_mention (init 50 24) 0 7 forum 1 (U "смотрите forum.example.com").
Definition allusion : str := U "Помните тот сайт, forum?".

Lemma contextual_reference_by_first_label_witness :
  violations_for forum (check_contextual_reference forum_chat allusion 7) = 1.
Proof.
  assert (Hctx : has_context (lower allusion) = true) by (vm_compute; reflexivity).
  assert (Hd : forum ∈ domains_of forum_chat 7)
    by (apply (bool_decide_unpack _); vm_compute; exact I).
  assert (Hlen : 3 < List.length (domain_name forum)) by (vm_compute; lia).
  assert (Hin : contains (domain_name forum) (lower allusion) = true)
    by (vm_compute; reflexivity).
  exact (proj1 (proj1 (proj2 (contextual_reference_by_first_label forum_chat allusion 7)
                         Hctx forum) Hd Hlen Hin)).
Defined.

(** The name-stem in the words of the specification: the domain minus its
    last label, the TLD. *)
Definition stem_minus_tld (dom : str) : str :=
  join (U ".") (removelast (split_char 46%N dom)).

(** C8 as stated fails: the stem of the tracked domain, taken as the domain
    minus its TLD, does not occur in the text, and yet a violation is
    reported for it, because its first label does. *)
Lemma contextual_reference_ignores_tld_stem :
  has_context (lower allusion) = true /\
  stem_minus_tld forum = U "forum.example" /\
  contains (stem_minus_tld forum) (lower allusion) = false /\
  map domain (check_contextual_reference forum_chat allusion 7) = [forum].
Proof.
  repeat split; vm_compute; reflexivity.
Qed.

End TrackerClaims.

(* ===================================================================== *)
(** * Further properties of the spam detector *)
(* ===================================================================== *)

Section SpamWindow.
Import Py Spam SpamFacts DifflibFacts DequeFacts WindowFacts.

(** X1: the reported similarity lies between 0 and 1; a result that is not
    spam names no message; and, for a positive threshold, a spam result
    names the text of an entry of the window whose similarity to the
    message is the reported one. *)
Theorem check_spam_reports_window_entry (self : SpamDetectorAgent)
    (message : str) (uid : option Z) :
  let r := snd (check_spam self message uid) in
  (0 <= similarity_score r)%Q /\ (similarity_score r <= 1)%Q /\
  (is_spam r = false -> similar_message r = []) /\
  ((0 < similarity_threshold self)%Q -> is_spam r = true ->
   exists e, In e (history self) /\ similar_message r = text e /\
             similarity_score r = _calculate_similarity message (text e)).
Proof.
  cbv zeta. unfold check_spam, check_spam_with.
  destruct (scan_history_max _calculate_similarity message (history self) 0%Q [])
    as (m & s & Hrun & Hge & Hall & Hwho).
  rewrite Hrun. cbn [snd is_spam similarity_score similar_message].
  split; [exact Hge|]. split.
  { destruct Hwho as [[-> _]|(e & _ & -> & _)]; [discriminate | apply ratio_le_1]. }
  split.
  { intros ->. reflexivity. }
  intros Hpos Hspam. rewrite Hspam.
  destruct Hwho as [[-> _]|(e & He & -> & ->)].
  - apply Qle_bool_iff in Hspam. exfalso. exact (Qlt_not_le _ _ Hpos Hspam).
  - exists e. repeat split; assumption.
Qed.

(** A window that holds one advertisement. *)
Definition advert_window : SpamDetectorAgent :=
  add_message (init MESSAGE_HISTORY_SIZE SPAM_SIMILARITY_THRESHOLD)
              (U "Сдам квартиру на лето") (Some 5%Z).

Lemma check_spam_reports_window_entry_witness :
  exists e, In e (history advert_window) /\
    similar_message (snd (check_spam advert_window (U "сдам квартиру на лето!") None))
    = text e /\
    similarity_score (snd (check_spam advert_window (U "сдам квартиру на лето!") None))
    = _calculate_similarity (U "сдам квартиру на лето!") (text e).
Proof.
  destruct (check_spam_reports_window_entry advert_window
              (U "сдам квартиру на лето!") None)
    as (_ & _ & _ & H).
  apply H; vm_compute; reflexivity.
Defined.

(** X2: in a window of positive capacity and with a threshold of at most
    1, a message that was just added is spam when it is sent again, in any
    letter case: the similarity is 1. *)
Theorem repeated_message_is_spam (self : SpamDetectorAgent) (m m' : str)
    (uid uid' : option Z) :
  0 < maxlen self ->
  (similarity_threshold self <= 1)%Q ->
  lower m' = lower m ->
  let r := snd (check_spam (add_message self m uid) m' uid') in
  is_spam r = true /\ (similarity_score r == 1)%Q.
Proof.
  intros Hpos Hth Hlow. cbv zeta.
  exact (repeat_detected self m m' uid uid' Hpos Hth Hlow).
Qed.

Lemma repeated_message_is_spam_witness :
  is_spam (snd (check_spam
                  (add_message (init MESSAGE_HISTORY_SIZE SPAM_SIMILARITY_THRESHOLD)
                               (U "Продам гараж") None)
                  (U "ПРОДАМ ГАРАЖ") None)) = true.
Proof.
  refine (proj1 (repeated_message_is_spam
                   (init MESSAGE_HISTORY_SIZE SPAM_SIMILARITY_THRESHOLD)
                   (U "Продам гараж") (U "ПРОДАМ ГАРАЖ") None None _ _ _)).
  - vm_compute; lia.
  - vm_compute; discriminate.
  - vm_compute; reflexivity.
Defined.

(** X3: after any sequence of [add_message] calls on a new agent of
    capacity [n], the window holds exactly the last [n] messages added, in
    the order of their arrival. *)
Theorem window_holds_last_messages (n : nat) (threshold : Q)
    (msgs : list (str * option Z)) :
  history (fold_left (fun agent m => add_message agent (fst m) (snd m)) msgs
                     (init n threshold))
  = map (fun m => mk_entry (fst m) (snd m))
        (skipn (List.length msgs - n) msgs).
Proof.
  set (add := fun agent (m : str * option Z) => add_message agent (fst m) (snd m)).
  set (entry_of := fun m : str * option Z => mk_entry (fst m) (snd m)).
  assert (Hgen : forall l,
    history (fold_left add l (init n threshold)) = lastn n (map entry_of l) /\
    maxlen (fold_left add l (init n threshold)) = n).
  { intros l. induction l as [|x l IH] using rev_ind.
    - split; reflexivity.
    - rewrite fold_left_app. cbn [fold_left]. destruct IH as [IHh IHm].
      unfold add at 1 3. cbn [add_message history maxlen].
      rewrite IHm, IHh. split; [|reflexivity].
      rewrite map_app. apply append_lastn. }
  rewrite (proj1 (Hgen msgs)). unfold lastn.
  now rewrite length_map, skipn_map.
Qed.

End SpamWindow.

(* ===================================================================== *)
(** * Further properties of the contextual tracker *)
(* ===================================================================== *)

Section TrackerLog.
Import Py Re Models Tracker TrackerFacts Mentions MentionsFacts DequeFacts.


Definition tracker_site : str := U "kinozal.tv".
Definition tracker_hint : str := U "А помните тот сайт kinozal?".


(** X5: [cleanup_old_mentions] only drops mentions of the histories: the
    sets of flagged domains stay, so every answer of
    [check_contextual_reference] is the same after the cleanup as before;
    each history keeps, in order, its mentions after the cutoff, and the
    capacity of the histories is unchanged. *)
Theorem cleanup_forgets_no_domain (self self' : ContextualMentionTracker)
    (now : Z) :
  cleanup_old_mentions self now = Some self' ->
  (forall text chat_id,
     check_contextual_reference self' text chat_id
     = check_contextual_reference self text chat_id) /\
  (forall chat_id,
     mention_history self' !! chat_id
     = List.filter (newer_than (now - cleanup_hours self * 3600000000)%Z)
         <$> mention_history self !! chat_id) /\
  max_history self' = max_history self /\
  cleanup_hours self' = cleanup_hours self.
Proof.
  unfold cleanup_old_mentions.
  destruct (hours_before now (cleanup_hours self)) as [cutoff|] eqn:E;
    [|discriminate].
  intros [= <-]. apply hours_before_spec in E. subst cutoff.
  split; [reflexivity|]. split; [|split; reflexivity].
  intros chat_id. cbn [mention_history]. apply lookup_fmap.
Qed.

Definition day_us : Z := 86400000000.

Definition two_mentions : ContextualMentionTracker :=
  track_mention
    (track_mention (init 50 24) (700000 * day_us) 7 tracker_site 1 (U "kinozal.tv"))
    (700002 * day_us) 7 (U "rutor.info") 2 (U "rutor.info").

Lemma cleanup_forgets_no_domain_witness :
  exists self',
    cleanup_old_mentions two_mentions (700002 * day_us + 5) = Some self' /\
    check_contextual_reference self' tracker_hint 7
    = check_contextual_reference two_mentions tracker_hint 7.
Proof.
  eexists. split; [vm_compute; reflexivity|].
  refine (proj1 (cleanup_forgets_no_domain two_mentions _ (700002 * day_us + 5) _)
            tracker_hint 7%Z).
  vm_compute; reflexivity.
Defined.

(** X6: a cleanup does not change what [get_recent_mentions] returns
    afterwards for a period that is not longer than the cleanup period. *)
Theorem recent_mentions_survive_cleanup (self self' : ContextualMentionTracker)
    (now now' chat_id hours : Z) :
  cleanup_old_mentions self now = Some self' ->
  (now <= now')%Z ->
  (hours <= cleanup_hours self)%Z ->
  get_recent_mentions self' now' chat_id hours
  = get_recent_mentions self now' chat_id hours.
Proof.
  unfold cleanup_old_mentions.
  destruct (hours_before now (cleanup_hours self)) as [c1|] eqn:E1;
    [|discriminate].
  intros [= <-] Hnow Hh. unfold get_recent_mentions.
  destruct (hours_before now' hours) as [c2|] eqn:E2; [|reflexivity].
  apply hours_before_spec in E1, E2. f_equal.
  cbn [mention_history]. rewrite lookup_fmap.
  destruct (mention_history self !! chat_id) as [h|]; [|reflexivity].
  cbn [fmap option_fmap option_map default].
  apply filter_newer_absorb. lia.
Qed.

Lemma recent_mentions_survive_cleanup_witness :
  exists self',
    cleanup_old_mentions two_mentions (700002 * day_us + 5) = Some self' /\
    get_recent_mentions self' (700002 * day_us + 9) 7 12
    = get_recent_mentions two_mentions (700002 * day_us + 9) 7 12.
Proof.
  eexists. split; [vm_compute; reflexivity|].
  apply (recent_mentions_survive_cleanup two_mentions _ (700002 * day_us + 5)).
  - vm_compute; reflexivity.
  - vm_compute; discriminate.
  - vm_compute; discriminate.
Defined.

(** The mentions of one chat, as [track_mention] receives them: the time,
    the domain, the user and the message. *)
Definition tracked (chat_id : Z) (self : ContextualMentionTracker)
    (m : Z * str * Z * str) : ContextualMentionTracker :=
  let '(now, dom, uid, message) := m in
  track_mention self now chat_id dom uid message.

Definition mention_of (m : Z * str * Z * str) : mention :=
  let '(now, dom, uid, message) := m in
  mk_mention dom uid now (firstn 100 message).

Definition domain_of (m : Z * str * Z * str) : str :=
  let '(_, dom, _, _) := m in dom.

(** X7: after any sequence of [track_mention] calls for one chat on a new
    tracker, the history of the chat holds the last [max_history] mentions
    only, each with the first 100 characters of its message, whereas the
    set of flagged domains holds the domain of every mention ever
    tracked. *)
Theorem history_bounded_domains_kept (max_history : nat) (cleanup_hours : Z)
    (chat_id : Z) (ms : list (Z * str * Z * str)) :
  let self := fold_left (tracked chat_id) ms (init max_history cleanup_hours) in
  default [] (mention_history self !! chat_id)
  = lastn max_history (map mention_of ms) /\
  (forall d, d ∈ domains_of self chat_id <-> In d (map domain_of ms)).
Proof.
  cbv zeta. induction ms as [|m ms IH] using rev_ind.
  - split; [reflexivity|]. intros d. cbn. unfold domains_of. cbn.
    rewrite lookup_empty. cbn. split; [intros H; now apply not_elem_of_empty in H | tauto].
  - rewrite fold_left_app, !map_app. cbn [fold_left map].
    destruct IH as [IHh IHd]. destruct m as [[[now dom] uid] message].
    cbn [tracked mention_of domain_of]. split.
    + cbn [track_mention mention_history]. rewrite lookup_insert_eq.
      cbn [default]. rewrite IHh.
      assert (Hm : Tracker.max_history
                     (fold_left (tracked chat_id) ms (init max_history cleanup_hours))
                   = max_history).
      { clear. induction ms as [|m ms IH] using rev_ind; [reflexivity|].
        rewrite fold_left_app. cbn [fold_left].
        destruct m as [[[now dom] uid] message]. exact IH. }
      rewrite Hm. apply tracker_append_lastn.
    + intros d. rewrite domains_of_track, decide_True by reflexivity.
      rewrite elem_of_union, elem_of_singleton, IHd, in_app_iff. cbn [In].
      split; [intros [->|H]; [right; now left | now left]
             | intros [H|[->|[]]]; [now right | now left]].
Qed.

End TrackerLog.

(* ===================================================================== *)
(** * Further properties of the multi-level analyzer *)
(* ===================================================================== *)

Section Levels.
Import Py Re Eff Models Heuristic MultiLevel Tracker TrackerFacts MentionsFacts.

(** X8: [analyze] never reports a violation of the first level: no result
    carries the type [rkn_check] or a blocked domain.  For a chat without
    tracked domains the result carries no contextual violation either: it
    is the outcome of the heuristics, without any call of the language
    model, or the outcome of exactly one call for the text. *)
Theorem analyze_reports_no_blocked_domain (self : MultiLevelAnalyzer)
    (text : str) (chat_id uid : Z) (o : nat -> str -> llm_result) (n : nat) :
  let r := fst (run o n (analyze self text chat_id uid)) in
  let calls := snd (run o n (analyze self text chat_id uid)) in
  rkn_violations r = [] /\ analysis_type r <> U "rkn_check" /\
  (domains_of (context_tracker self) chat_id = ∅ ->
   contextual_violations r = [] /\
   ((analysis_type r = U "heuristic" /\ calls = []) \/
    (analysis_type r = U "deep_llm" /\ calls = [(text, o n text)]))).
Proof.
  cbv zeta. unfold analyze, _perform_deep_analysis, _create_context_violation_result.
  cbn [_check_rkn_violations].
  destruct (check_contextual_reference (context_tracker self) text chat_id)
    as [|v vs] eqn:Ev.
  - destruct (F64.ltb (Heuristic.analyze text) (fast_check_threshold (cfg self)));
      [|destruct (F64.ltb (deep_analysis_threshold (cfg self))
                          (Heuristic.analyze text))];
      cbn [run fst snd rkn_violations analysis_type contextual_violations];
      (split; [reflexivity|]); (split; [vm_compute; discriminate|]);
      intros _; (split; [reflexivity|]);
      first [left; split; reflexivity | right; split; reflexivity].
  - cbn [run fst snd rkn_violations analysis_type contextual_violations].
    split; [reflexivity|]. split; [vm_compute; discriminate|].
    intros Hempty. exfalso.
    unfold check_contextual_reference in Ev.
    fold (domains_of (context_tracker self) chat_id) in Ev.
    rewrite Hempty, elements_empty in Ev.
    destruct (negb _); discriminate.
Qed.

Definition new_analyzer : MultiLevelAnalyzer :=
  mk_analyzer (Tracker.init 50 24) ANALYSIS_CONFIG.

Lemma analyze_reports_no_blocked_domain_witness :
  contextual_violations
    (fst (run (fun _ _ => mk_llm None None) 0
              (analyze new_analyzer (U "А помните тот сайт kinozal?") 7 1))) = [].
Proof.
  refine (proj1 (proj2 (proj2 (analyze_reports_no_blocked_domain new_analyzer
            (U "А помните тот сайт kinozal?") 7 1 (fun _ _ => mk_llm None None) 0))
            _)).
  vm_compute; reflexivity.
Defined.

(** X9: a text that refers back to a domain tracked in its chat is answered
    by the second level alone: the risk is [high] with the score 0.8 and
    the violation of that domain, whatever the heuristic score of the text
    is, and the language model is not called. *)
Theorem contextual_reference_preempts_scoring (self : MultiLevelAnalyzer)
    (now chat_id : Z) (dom : str) (uid uid' : Z) (message text : str)
    (o : nat -> str -> llm_result) (n : nat) :
  has_context (lower text) = true ->
  mentions (lower text) dom = true ->
  let self' :=
    mk_analyzer (track_mention (context_tracker self) now chat_id dom uid message)
                (cfg self) in
  let r := fst (run o n (analyze self' text chat_id uid')) in
  snd (run o n (analyze self' text chat_id uid')) = [] /\
  risk_level r = U "high" /\
  final_score r = F64.dec 8 10 /\
  violations_for dom (contextual_violations r) = 1 /\
  llm_analysis r = None /\
  actions r = [U "warn_user"; U "notify_moderators"] /\
  analysis_type r = U "context_check".
Proof.
  intros Hctx Hm. cbv zeta. unfold analyze, _create_context_violation_result.
  cbn [_check_rkn_violations context_tracker].
  pose proof (proj1 (tracked_domain_flagged_once (context_tracker self) now chat_id
                       dom uid message text) Hctx Hm) as H1.
  destruct (check_contextual_reference
              (track_mention (context_tracker self) now chat_id dom uid message)
              text chat_id) as [|v vs] eqn:Ev.
  - discriminate H1.
  - cbn [run fst snd risk_level final_score contextual_violations llm_analysis
         actions analysis_type].
    repeat (split; [reflexivity|]).
    split; [exact H1|]. repeat (split; [reflexivity|]). reflexivity.
Qed.

Definition threat_hint : str := U "Помните тот сайт kinozal? Убить, взорвать, война.".

Lemma contextual_reference_preempts_scoring_witness :
  risk_level
    (fst (run (fun _ _ => mk_llm None None) 0
            (analyze
               (mk_analyzer (track_mention (Tracker.init 50 24) 0 7 (U "kinozal.tv") 1
                                           (U "kinozal.tv"))
                            ANALYSIS_CONFIG)
               threat_hint 7 2))) = U "high".
Proof.
  refine (proj1 (proj2 (contextual_reference_preempts_scoring new_analyzer 0 7
            (U "kinozal.tv") 1 2 (U "kinozal.tv") threat_hint
            (fun _ _ => mk_llm None None) 0 _ _))).
  - vm_compute; reflexivity.
  - vm_compute; reflexivity.
Defined.

End Levels.

(* ===================================================================== *)
(** * Properties of the storage *)
(* ===================================================================== *)

Section StorageProperties.
Import Py Storage StorageFacts DequeFacts.

(** X10: [add_violation] returns the number of violations the user had plus
    one, whatever happens to the file, and touches neither the bans nor the
    messages.  When the file is written, the new violation is the last one
    of the user, the returned number is the stored count and the other
    users keep their violations; when the file cannot be opened nothing is
    stored although the number was returned; when the writing fails midway
    every count reads as 0 afterwards. *)
Theorem add_violation_counts (self : Storage) (now : str) (w : saving)
    (user_id : Z) (category reason : str) :
  let self' := fst (add_violation self now w user_id category reason) in
  let count := snd (add_violation self now w user_id category reason) in
  count = get_violation_count self user_id + 1 /\
  bans_file self' = bans_file self /\
  messages_file self' = messages_file self /\
  (w = Written ->
   get_violation_count self' user_id = count /\
   get_violations self' user_id
   = get_violations self user_id ++ [mk_violation category reason now] /\
   forall other, other <> user_id ->
                 get_violations self' other = get_violations self other) /\
  (w = Refused -> self' = self) /\
  (w = Torn -> forall anyone, get_violation_count self' anyone = 0).
Proof.
  cbv zeta. unfold add_violation, get_violation_count, get_violations.
  cbn [fst snd violations_file bans_file messages_file].
  set (d := _load_json (violations_file self)).
  pose proof (lookup_appended d (str_of_int user_id)) as Hl. cbv zeta in Hl.
  split.
  { rewrite length_app. cbn [List.length]. f_equal.
    destruct (d !! str_of_int user_id) eqn:E.
    - now rewrite E.
    - now rewrite lookup_insert_eq. }
  split; [reflexivity|]. split; [reflexivity|]. split; [|split].
  - intros ->. cbn [_save_json _load_json]. split; [|split].
    + rewrite Hl, decide_True by reflexivity.
      rewrite !length_app. cbn [List.length]. f_equal.
      destruct (d !! str_of_int user_id) eqn:E.
      * now rewrite E.
      * now rewrite lookup_insert_eq.
    + rewrite Hl, decide_True by reflexivity. reflexivity.
    + intros other Hne. rewrite Hl.
      rewrite decide_False by (now apply str_of_int_neq). reflexivity.
  - intros ->. cbn [_save_json]. now destruct self.
  - intros -> anyone. cbn [_save_json _load_json]. now rewrite lookup_empty.
Qed.

Definition first_offence : Storage * nat :=
  add_violation init (U "2024-01-01T10:00:00") Written 42
                (U "CATEGORY_A") (U "угрозы").

Lemma add_violation_counts_witness :
  get_violation_count (fst first_offence) 42 = 1.
Proof.
  destruct (add_violation_counts init (U "2024-01-01T10:00:00") Written 42
              (U "CATEGORY_A") (U "угрозы")) as (Hc & _ & _ & Hw & _).
  destruct (Hw eq_refl) as (H & _). unfold first_offence. rewrite H, Hc.
  reflexivity.
Defined.

(** X11: after [ban_user] is written, the user is banned with the reason
    given; after [unban_user] is written, the user is no longer banned and
    has no ban reason; neither call changes the ban of another user, the
    violations or the messages; and [unban_user] on a user who is not
    banned changes nothing and writes nothing. *)
Theorem ban_and_unban (self : Storage) (now : str) (user_id : Z) (reason : str) :
  let banned := ban_user self now Written user_id reason in
  let freed := unban_user banned Written user_id in
  is_banned banned user_id = true /\
  get_ban_reason banned user_id = Some reason /\
  is_banned freed user_id = false /\
  get_ban_reason freed user_id = None /\
  (forall other, other <> user_id ->
     get_ban_reason banned other = get_ban_reason self other /\
     get_ban_reason freed other = get_ban_reason self other /\
     is_banned banned other = is_banned self other /\
     is_banned freed other = is_banned self other) /\
  violations_file freed = violations_file self /\
  messages_file freed = messages_file self /\
  (is_banned self user_id = false -> forall w, unban_user self w user_id = self).
Proof.
  cbv zeta. unfold unban_user, ban_user, is_banned, get_ban_reason.
  cbn [bans_file violations_file messages_file _save_json _load_json].
  rewrite !lookup_insert_eq.
  cbn [bans_file violations_file messages_file _save_json _load_json b_reason].
  rewrite lookup_delete_eq.
  repeat (split; [reflexivity|]). split; [|split; [reflexivity|split; [reflexivity|]]].
  - intros other Hne. apply str_of_int_neq in Hne.
    rewrite lookup_delete_ne by congruence.
    rewrite !lookup_insert_ne by congruence. repeat split.
  - intros Hnot w.
    destruct (_load_json (bans_file self) !! str_of_int user_id);
      [discriminate | reflexivity].
Qed.

Lemma ban_and_unban_witness :
  unban_user init Torn 42 = init.
Proof.
  refine (proj2 (proj2 (proj2 (proj2 (proj2 (proj2 (proj2
            (ban_and_unban init (U "2024-01-01T10:00:00") 42 (U "спам")))))))) _ Torn).
  vm_compute; reflexivity.
Defined.

(** X12: [get_user_messages] returns the last [limit] messages of the user
    for a positive [limit], but every stored message for [limit = 0] and
    all but the first [-limit] ones for a negative [limit]; a message
    added, once written, is the last one returned, and the only one for
    [limit = 1]. *)
Theorem get_user_messages_slice (self : Storage) (user_id : Z) (limit : Z) :
  let stored := default [] (_load_json (messages_file self) !! str_of_int user_id) in
  get_user_messages self user_id 0 = stored /\
  ((0 < limit)%Z -> get_user_messages self user_id limit
                    = lastn (Z.to_nat limit) stored) /\
  ((limit < 0)%Z -> get_user_messages self user_id limit
                    = skipn (Z.to_nat (- limit)) stored) /\
  (forall now message_id text chat_id,
     let self' := add_message self now Written user_id message_id text chat_id in
     get_user_messages self' user_id 0
     = stored ++ [mk_message message_id text chat_id now] /\
     get_user_messages self' user_id 1 = [mk_message message_id text chat_id now] /\
     (forall other, other <> user_id ->
        get_user_messages self' other limit = get_user_messages self other limit)).
Proof.
  cbv zeta. unfold get_user_messages, add_message, slice_from_neg, lastn.
  cbn [messages_file _save_json _load_json].
  set (d := _load_json (messages_file self)).
  pose proof (lookup_appended d (str_of_int user_id)) as Hl. cbv zeta in Hl.
  split; [|split; [|split]].
  - destruct (d !! str_of_int user_id); reflexivity.
  - intros Hpos. destruct (Z.ltb_spec 0 limit); [|lia].
    destruct (d !! str_of_int user_id); [reflexivity|].
    now rewrite skipn_nil.
  - intros Hneg. destruct (Z.ltb_spec 0 limit); [lia|].
    destruct (d !! str_of_int user_id); [reflexivity|].
    now rewrite skipn_nil.
  - intros now message_id text chat_id. split; [|split].
    + rewrite Hl, decide_True by reflexivity. reflexivity.
    + rewrite Hl, decide_True by reflexivity.
      cbn [Z.ltb Z.compare Z.to_nat Pos.to_nat Pos.iter_op Nat.add].
      rewrite length_app. cbn [List.length].
      replace (List.length (default [] (d !! str_of_int user_id)) + 1 - 1)
        with (List.length (default [] (d !! str_of_int user_id)) + 0) by lia.
      now rewrite skipn_app, Nat.add_0_r, skipn_all, Nat.sub_diag.
    + intros other Hne. rewrite Hl.
      rewrite decide_False by (now apply str_of_int_neq). reflexivity.
Qed.

Definition two_stored : Storage :=
  add_message
    (add_message init (U "2024-01-01T10:00:00") Written 42 1 (U "привет") (Some 7%Z))
    (U "2024-01-01T10:00:05") Written 42 2 (U "как дела") (Some 7%Z).

Lemma get_user_messages_slice_witness :
  get_user_messages two_stored 42 1
  = lastn 1 (default [] (_load_json (messages_file two_stored) !! str_of_int 42)).
Proof.
  refine (proj1 (proj2 (get_user_messages_slice two_stored 42 1)) _).
  lia.
Defined.

(** X13: a file that cannot be read counts as an empty one.  With such a
    bans file nobody is banned; with such a violations file every count is
    0, [clear_violations] leaves the file as it is, and the next violation
    that is written replaces the file by one that holds this violation
    only; with such a messages file no message is returned. *)
Theorem unreadable_file_reads_as_empty (self : Storage) (user_id : Z) :
  (bans_file self = Broken ->
   is_banned self user_id = false /\ get_ban_reason self user_id = None /\
   forall w, unban_user self w user_id = self) /\
  (violations_file self = Broken ->
   get_violation_count self user_id = 0 /\
   (forall w, clear_violations self w user_id = self) /\
   forall now w category reason,
     snd (add_violation self now w user_id category reason) = 1 /\
     (w = Written ->
      violations_file (fst (add_violation self now w user_id category reason))
      = Valid {[ str_of_int user_id := [mk_violation category reason now] ]})) /\
  (messages_file self = Broken ->
   forall limit, get_user_messages self user_id limit = []).
Proof.
  split; [|split].
  - intros H. unfold is_banned, get_ban_reason, unban_user. rewrite H.
    cbn [_load_json]. rewrite lookup_empty. repeat split.
  - intros H.
    unfold get_violation_count, clear_violations, add_violation. rewrite H.
    cbn [_load_json fst snd violations_file]. rewrite lookup_empty.
    split; [reflexivity|]. split; [reflexivity|].
    intros now w category reason. rewrite lookup_insert_eq. cbn [default app].
    split; [reflexivity|]. intros ->. cbn [_save_json]. f_equal.
    now rewrite insert_insert_eq, insert_empty.
  - intros H limit. unfold get_user_messages. rewrite H. cbn [_load_json].
    now rewrite lookup_empty.
Qed.

Lemma unreadable_file_reads_as_empty_witness :
  is_banned (mk_storage (Valid ∅) Broken (Valid ∅)) 42 = false.
Proof.
  refine (proj1 (proj1 (unreadable_file_reads_as_empty
                          (mk_storage (Valid ∅) Broken (Valid ∅)) 42) _)).
  reflexivity.
Defined.

(** X14: the restoration that [unban_user.py] and the [/unban] command
    perform, [unban_user] followed by [clear_violations], both written:
    the user is not banned and has no violation, whatever was stored
    before; the other users and the messages are as before. *)
Theorem unban_restores_user (self : Storage) (user_id : Z) :
  let restored := clear_violations (unban_user self Written user_id) Written user_id in
  is_banned restored user_id = false /\
  get_violation_count restored user_id = 0 /\
  messages_file restored = messages_file self /\
  (forall other, other <> user_id ->
     is_banned restored other = is_banned self other /\
     get_violations restored other = get_violations self other).
Proof.
  cbv zeta.
  unfold clear_violations, unban_user, is_banned, get_violation_count, get_violations.
  destruct (_load_json (bans_file self) !! str_of_int user_id) eqn:Eb;
    cbn [violations_file bans_file messages_file];
    destruct (_load_json (violations_file self) !! str_of_int user_id) eqn:Ev;
    cbn [violations_file bans_file messages_file _save_json _load_json];
    rewrite ?lookup_delete_eq, ?Eb, ?Ev;
    (split; [reflexivity|]); (split; [reflexivity|]); (split; [reflexivity|]);
    intros other Hne; apply str_of_int_neq in Hne;
    rewrite ?lookup_delete_ne by congruence; split; reflexivity.
Qed.

Definition banned_twice : Storage :=
  ban_user (fst first_offence) (U "2024-01-01T10:00:01") Written 42 (U "лимит").

Lemma unban_restores_user_witness :
  is_banned (clear_violations (unban_user banned_twice Written 42) Written 42) 43
  = is_banned banned_twice 43.
Proof.
  refine (proj1 (proj2 (proj2 (proj2 (unban_restores_user banned_twice 42))) 43%Z _)).
  lia.
Defined.

End StorageProperties.

(* ===================================================================== *)
(** * Further properties of the moderator *)
(* ===================================================================== *)

Section ModeratorRuns.
Import Py Re Eff Moderator ModeratorFacts ProgFacts ModeratorMoreFacts LowerFacts.

Lemma analyze_message_leaves self message chat_history :
  every_leaf (well_formed (extract_urls message))
             (analyze_message self message chat_history).
Proof.
  unfold analyze_message.
  destruct (single_token_guard token_blacklist message (extract_urls message))
    as [res|] eqn:Eg.
  { cbn [every_leaf]. now apply (guard_well_formed token_blacklist message). }
  destruct (direct_stage self message);
    [apply result_well_formed; discriminate|].
  destruct (pseudonym_stage (pseudonyms self) (tokens_of message));
    [apply result_well_formed; discriminate|].
  apply every_leaf_bind.
  assert (Hrest : every_leaf (well_formed (extract_urls message))
            match local_stage self message with
            | Some reg =>
              Ret (result CATEGORY_C (registry_reason ++ reg) (extract_urls message))
            | None => alias_stage self message chat_history (extract_urls message)
            end).
  { destruct (local_stage self message);
      [apply result_well_formed; discriminate|].
    unfold alias_stage. cbn [every_leaf]. intros r.
    destruct (matched_of self _); [|apply result_well_formed; discriminate].
    rewrite (late_guard_none _ _ Eg).
    unfold classify_stage. cbn [every_leaf]. intros [| |response]; cbn [every_leaf].
    - apply local_fallback_well_formed.
    - apply local_fallback_well_formed.
    - apply classify_result_well_formed. }
  induction (alias_token_loop (tokens_of message)) as [u|q k IH];
    cbn [every_leaf]; [exact Hrest | intros r; apply IH].
Qed.

(** X15: whatever the language model answers, the result of
    [analyze_message] carries exactly the URLs found in the message,
    [has_links] is set exactly when there is one, and the category is never
    [ERROR]. *)
Theorem result_carries_the_links (self : ModeratorAgent) (message : str)
    (chat_history : option (list str)) (o : nat -> request -> reply) (n : nat) :
  let r := fst (run o n (analyze_message self message chat_history)) in
  links r = extract_urls message /\
  (has_links r = true <-> extract_urls message <> []) /\
  category r <> ERROR.
Proof.
  cbv zeta.
  destruct (every_leaf_run _ _ o (analyze_message_leaves self message chat_history) n)
    as (Hl & Hh & Hc).
  split; [exact Hl|]. split; [|exact Hc].
  rewrite Hh. destruct (extract_urls message); cbn; split;
    first [discriminate | congruence | reflexivity].
Qed.

(** X16: [analyze_message] asks the language model at most once per token of
    the message that has three characters or more and is not on the stop
    list, and at most twice more (the alias query and the
    classification). *)
Theorem model_calls_are_bounded (self : ModeratorAgent) (message : str)
    (chat_history : option (list str)) (o : nat -> request -> reply) (n : nat) :
  List.length (snd (run o n (analyze_message self message chat_history)))
  <= List.length (List.filter queried (tokens_of message)) + 2 /\
  List.length (List.filter queried (tokens_of message))
  <= List.length (tokens_of message).
Proof.
  split; [|apply HeuristicFacts.filter_length_le].
  apply within_run. unfold analyze_message.
  destruct (single_token_guard _ _ _); [exact I|].
  destruct (direct_stage self message); [exact I|].
  destruct (pseudonym_stage _ _); [exact I|].
  apply within_bind; [|apply alias_token_loop_within].
  intros _. destruct (local_stage self message); [exact I|].
  unfold alias_stage. cbn [within]. intros r.
  destruct (matched_of self _); [|exact I].
  destruct (single_token_guard _ _ _); [exact I|].
  unfold classify_stage. cbn [within]. intros [| |response]; exact I.
Qed.





(** X18: in a registry built by [_load_inoagents], every pseudonym maps to a
    name of the set of registered persons; so the name that the pseudonym
    stage reports for a message is always an entry of the registry. *)
Theorem pseudonym_hit_names_registry_entry (file : option (list str))
    (message : str) (fio : str) :
  let self := _load_inoagents file in
  (forall p v, In (p, v) (pseudonyms self) -> In v (inoagents self)) /\
  (pseudonym_stage (pseudonyms self) (tokens_of message) = Some fio ->
   In fio (inoagents self)).
Proof.
  cbv zeta. split; [apply loaded_values|].
  intros H. apply pseudonym_stage_value in H as (k & Hk).
  eapply loaded_values, Hk.
Qed.

Definition one_line_registry : option (list str) :=
  Some [U "Федоров Мирон Янович, псевдоним «Oxxxymiron»"].

Lemma pseudonym_hit_names_registry_entry_witness :
  In (U "федоров мирон янович") (inoagents (_load_inoagents one_line_registry)).
Proof.
  refine (proj2 (pseudonym_hit_names_registry_entry one_line_registry
                   (U "слушаю oxxxymiron") (U "федоров мирон янович")) _).
  vm_compute; reflexivity.
Defined.

(** X19: the transliteration [_ru_to_lat] produces lower-case Latin letters
    and digits only, does not depend on the letter case of its argument and
    works character by character. *)
Theorem transliteration_is_latin (s s' : str) :
  forallb is_lat (_ru_to_lat s) = true /\
  _ru_to_lat (lower s) = _ru_to_lat s /\
  _ru_to_lat (s ++ s') = _ru_to_lat s ++ _ru_to_lat s'.
Proof.
  split; [|split].
  - unfold _ru_to_lat. induction (lower s) as [|c l IH]; [reflexivity|].
    match goal with
    | |- forallb _ (flat_map ?f _) = _ =>
      change (flat_map f (c :: l)) with (f c ++ flat_map f l)
    end.
    rewrite forallb_app. apply andb_true_intro. split; [|exact IH].
    destruct (table_get c ru_table) as [v|] eqn:E.
    + apply table_get_In in E.
      pose proof ru_table_lat as Ht. rewrite forallb_forall in Ht. now apply Ht.
    + unfold is_lat.
      destruct (is_ascii_lower c || is_digit c) eqn:Ec; [|reflexivity].
      cbn [forallb]. now rewrite Ec.
  - unfold _ru_to_lat. now rewrite lower_idem.
  - unfold _ru_to_lat. now rewrite lower_app, flat_map_app.
Qed.

End ModeratorRuns.

(* ===================================================================== *)
(** * Properties of the corrector, the spellchecker and the cache *)
(* ===================================================================== *)

Section Correction.
Import Py Re Eff Corrector CorrectorAdapter CorrectorFacts.

(** X20: the class [CorrectorAgent] sets its tables in a method called
    [init], which nothing calls, so on the agent that [CorrectorAgent()]
    builds [correct_with_adapter] never succeeds: it returns the text as it
    was given, with the note that nothing needs a correction for a blank
    text and with the error of the missing attribute for any other. *)
Theorem bare_corrector_never_corrects (text : str) :
  let r := correct_with_adapter Corrector.new text in
  success r = false /\
  corrected_text r = text /\
  message r =
    (if Spellchecker.is_blank text then U "Текст не требует исправлений"
     else U "Ошибка корректора: "
          ++ U "'CorrectorAgent' object has no attribute '_profanity_patterns'").
Proof.
  cbv zeta. unfold correct_with_adapter, correct, Corrector.new,
    Spellchecker.is_blank.
  destruct (strip text) as [|c s]; repeat split.
Qed.

(** X21: on an agent whose [init] was called, [correct] always returns, and
    the text it returns is empty or ends with a full stop, an exclamation
    mark or a question mark. *)
Theorem corrected_text_is_punctuated (text : str) :
  exists r,
    correct (Corrector.init Corrector.new) text = Returns r /\
    punctuated (Corrector.text r).
Proof.
  unfold correct, Corrector.init.
  destruct (strip text) as [|c s] eqn:Es.
  { eexists. split; [reflexivity | now left]. }
  assert (Hfixed : forall t body,
            t = body ++ [46%N] ->
            exists r, Returns (mk_correction t) = Returns r /\
                      punctuated (Corrector.text r)).
  { intros t body ->. eexists. split; [reflexivity|].
    right. exists body, 46%N. split; reflexivity. }
  assert (Hadd : forall t,
            exists r, Returns (mk_correction (_add_punctuation t)) = Returns r /\
                      punctuated (Corrector.text r)).
  { intros t. eexists. split; [reflexivity|].
    apply _add_punctuation_punctuated. }
  assert (Hrest :
    exists r,
      (if _is_direct_attack (c :: s)
       then Returns (mk_correction (U "Похоже, возникло недопонимание."))
       else if starts_with (U "ты ") (lower (c :: s))
               || starts_with (U "ты,") (lower (c :: s))
       then Returns (mk_correction
                       (U "Кажется, у нас разные взгляды на эту ситуацию."))
       else
         match _check_emotional_words (c :: s) with
         | Some ((_ :: _) as emotional_result) =>
           Returns (mk_correction (_add_punctuation emotional_result))
         | _ => Returns (mk_correction (_add_punctuation (c :: s)))
         end) = Returns r /\
      punctuated (Corrector.text r)).
  { destruct (_is_direct_attack (c :: s));
      [apply (Hfixed _ (U "Похоже, возникло недопонимание")); vm_compute; reflexivity|].
    destruct (_ || _);
      [apply (Hfixed _ (U "Кажется, у нас разные взгляды на эту ситуацию"));
       vm_compute; reflexivity|].
    destruct (_check_emotional_words (c :: s)) as [[|y e]|]; apply Hadd. }
  destruct (_check_profanity (c :: s)) as [[|x p]|];
    [exact Hrest | apply Hadd | exact Hrest].
Qed.

End Correction.

Section Spelling.
Import Py Eff Spellchecker.

(** X22: [check_spelling] asks the language model once, and not at all for
    a blank text.  It reports errors exactly when the text is not blank and
    the model answered with a non-empty text that does not start, once
    stripped, with [NO_ERRORS]; an exception or an empty answer of the
    model gives a result without errors, and a result without errors
    proposes no text. *)
Theorem spelling_errors_reported (text : str) (o : nat -> str -> reply) (n : nat) :
  let r := fst (run o n (check_spelling text)) in
  let calls := snd (run o n (check_spelling text)) in
  (is_blank text = true -> calls = []) /\
  (is_blank text = false ->
   calls = [(user_message text, o n (user_message text))]) /\
  (has_errors r = true <->
   is_blank text = false /\
   exists response,
     o n (user_message text) = Text response /\ response <> [] /\
     starts_with (U "NO_ERRORS") (strip response) = false) /\
  (has_errors r = false -> corrected_text r = []).
Proof.
  cbv zeta. unfold check_spelling.
  destruct (is_blank text).
  { cbn [run fst snd has_errors corrected_text].
    split; [reflexivity|]. split; [discriminate|]. split; [|reflexivity].
    split; [discriminate | intros [H _]; discriminate]. }
  cbn [run]. destruct (o n (user_message text)) as [msg| |[|c response]] eqn:Eo;
    cbn [run fst snd has_errors corrected_text];
    (split; [discriminate|]); (split; [reflexivity|]).
  - split; [|reflexivity]. split; [discriminate|].
    intros (_ & resp & H & _). discriminate.
  - split; [|reflexivity]. split; [discriminate|].
    intros (_ & resp & H & _). discriminate.
  - split; [|reflexivity]. split; [discriminate|].
    intros (_ & resp & [= <-] & H & _). now contradiction H.
  - unfold parse.
    destruct (starts_with (U "NO_ERRORS") (strip (c :: response))) eqn:E1.
    + cbn [has_errors corrected_text]. split; [|reflexivity].
      split; [discriminate|]. intros (_ & resp & [= <-] & _ & H). congruence.
    + assert (Hyes : false = false /\
                exists resp, Text (c :: response) = Text resp /\ resp <> [] /\
                  starts_with (U "NO_ERRORS") (strip resp) = false).
      { split; [reflexivity|]. exists (c :: response).
        split; [reflexivity|]. split; [discriminate | exact E1]. }
      destruct (starts_with (U "CORRECTED") (strip (c :: response))).
      * destruct (split_once _ _) as [[before after]|];
          cbn [has_errors corrected_text];
          (split; [split; [intros _; exact Hyes | reflexivity] | discriminate]).
      * cbn [has_errors corrected_text].
        split; [split; [intros _; exact Hyes | reflexivity] | discriminate].
Qed.

Definition echoes (n : nat) (q : str) : reply := Text (U "  ").

Lemma spelling_errors_reported_witness :
  has_errors (fst (run echoes 0 (check_spelling (U "Привет, как дела?")))) = true.
Proof.
  apply (proj1 (proj2 (proj2 (spelling_errors_reported (U "Привет, как дела?")
                                 echoes 0)))).
  split; [vm_compute; reflexivity|].
  exists (U "  "). split; [reflexivity|]. split; [vm_compute; discriminate|].
  vm_compute; reflexivity.
Defined.

End Spelling.

Section CacheProperties.
Import Py LRU LRUFacts.
Context {V : Type}.

(** X23: after [put], the entry written is the most recent one of the
    cache: for a capacity of at least 1, [get] finds its value; a cache
    that respected its capacity still does; when the key was new and the
    cache full, it is the oldest entry that was dropped and all the others
    are kept in their order; and a [get] that finds a key makes its entry
    the most recent one. *)
Theorem lru_put_then_get (self : LRUCache V) (key : str) (value : V) :
  let self' := put self key value in
  maxsize self' = maxsize self /\
  ((1 <= maxsize self)%Z -> snd (get self' key) = Some value) /\
  ((Z.of_nat (List.length (cache self)) <= maxsize self)%Z ->
   (Z.of_nat (List.length (cache self')) <= maxsize self)%Z) /\
  (lookup key (cache self) = None ->
   Z.of_nat (List.length (cache self)) = maxsize self ->
   (1 <= maxsize self)%Z ->
   cache self' = tl (cache self) ++ [(key, value)]) /\
  (forall v, lookup key (cache self) = Some v ->
   cache (fst (get self key)) = without key (cache self) ++ [(key, v)] /\
   snd (get self key) = Some v).
Proof.
  cbv zeta. unfold put. rewrite put_dictionary.
  set (base := match lookup key (cache self) with
               | Some _ => without key (cache self)
               | None => cache self
               end).
  assert (Habs : lookup key base = None).
  { unfold base. destruct (lookup key (cache self)) eqn:E;
      [apply lookup_without_same | exact E]. }
  assert (Hlen : List.length base <= List.length (cache self)).
  { unfold base. destruct (lookup key (cache self));
      [apply without_length | lia]. }
  rewrite length_app. cbn [List.length].
  split; [now destruct (_ <? _)%Z|]. split; [|split; [|split]].
  - intros Hcap. unfold get.
    destruct (Z.ltb_spec (maxsize self) (Z.of_nat (List.length base + 1)));
      cbn [cache maxsize].
    + destruct base as [|[k v] base']; [cbn [List.length] in *; lia|].
      cbn [app tl]. cbn [lookup] in Habs.
      destruct (eqb_str key k); [discriminate|].
      rewrite (lookup_app_absent _ _ _ Habs). cbn [lookup].
      now rewrite PyFacts.eqb_str_refl.
    + rewrite (lookup_app_absent _ _ _ Habs). cbn [lookup].
      now rewrite PyFacts.eqb_str_refl.
  - intros Hcap.
    destruct (Z.ltb_spec (maxsize self) (Z.of_nat (List.length base + 1)));
      cbn [cache maxsize].
    + destruct base as [|x base']; cbn [app tl List.length] in *;
        rewrite ?length_app; cbn [List.length]; lia.
    + rewrite length_app. cbn [List.length]. lia.
  - intros Hnew Hfull Hcap. unfold base. rewrite Hnew.
    destruct (Z.ltb_spec (maxsize self) (Z.of_nat (List.length (cache self) + 1)));
      [|lia].
    cbn [cache]. destruct (cache self) as [|x d]; [cbn [List.length] in *; lia|].
    reflexivity.
  - intros v Hv. unfold get, move_to_end. rewrite Hv. split; reflexivity.
Qed.

End CacheProperties.

(** A cache of capacity 2 that holds two entries. *)
Definition small_cache : LRU.LRUCache nat :=
  LRU.put (LRU.put (LRU.init 2) (Py.U "a.com_ru_ru") 1) (Py.U "b.com_ru_ru") 2.

Lemma lru_put_then_get_witness :
  LRU.cache (LRU.put small_cache (Py.U "c.com_ru_ru") 3)
  = [(Py.U "b.com_ru_ru", 2); (Py.U "c.com_ru_ru", 3)].
Proof.
  refine (proj1 (proj2 (proj2 (proj2 (lru_put_then_get small_cache
            (Py.U "c.com_ru_ru") 3)))) _ _ _).
  - vm_compute; reflexivity.
  - vm_compute; reflexivity.
  - vm_compute; discriminate.
Defined.

(* ===================================================================== *)
(** * Properties of the message handler of the analysis bot *)
(* ===================================================================== *)

Section MessageHandling.
Import Py Models Act Heuristic MultiLevel Handlers.
Import TrackerFacts F64Facts ActFacts HandlersFacts.

(** X24: [handle_message] does nothing for a command; and for a message of
    a chat without tracked domains whose heuristic score is at most 0.6 it
    neither asks the language model nor calls Telegram: the message is
    neither deleted nor answered. *)
Theorem quiet_message_gets_no_reaction (self : MessageHandler1)
    (user_text : str) (chat user : Z)
    (h : forall X : Type, nat -> event X -> X) (n : nat) :
  let update := mk_update (Some user_text) (Some chat) (Some user) in
  (starts_with (U "/") user_text = true ->
   run h n (handle_message self update) = (Returned, [])) /\
  (domains_of (context_tracker (analyzer self)) chat = ∅ ->
   cfg (analyzer self) = ANALYSIS_CONFIG ->
   F64.leb (Heuristic.analyze user_text) (F64.dec 6 10) = true ->
   run h n (handle_message self update) = (Returned, [])).
Proof.
  cbv zeta. unfold handle_message. cbn [text chat_id user_id].
  split; [intros ->; reflexivity|].
  intros Hdom Hcfg Hle.
  destruct (starts_with (U "/") user_text); [reflexivity|].
  unfold MultiLevel.analyze. cbn [_check_rkn_violations].
  rewrite (no_domain_no_violation _ _ _ Hdom), Hcfg.
  cbn [fast_check_threshold deep_analysis_threshold ANALYSIS_CONFIG].
  destruct (score_facts user_text) as (_ & H6 & _). cbv zeta in H6.
  destruct (H6 Hle) as (E6 & E9 & E7).
  destruct risk_names as (L1 & L2 & L3 & M1 & M2 & M3).
  destruct (F64.ltb (Heuristic.analyze user_text) (F64.dec 3 10)).
  - cbn [lift bind run final_score risk_level].
    now rewrite E9, L1, L2, L3.
  - rewrite E6. cbn [lift bind run final_score risk_level].
    now rewrite E9, M1, M2, M3, E7.
Qed.

Definition handler_of_new_bot : MessageHandler1 := mk_handler new_analyzer.

Definition silent_world (X : Type) (n : nat) (e : event X) : X :=
  match e with
  | analyze_toxicity _ => mk_llm None None
  | delete => Done
  | reply_text _ => Done
  | sleep _ => tt
  | delete_reply => Done
  end.

Lemma quiet_message_gets_no_reaction_witness :
  run silent_world 0
      (handle_message handler_of_new_bot
         (mk_update (Some (U "ненавижу понедельники")) (Some 7%Z) (Some 1%Z)))
  = (Returned, []).
Proof.
  refine (proj2 (quiet_message_gets_no_reaction handler_of_new_bot
                   (U "ненавижу понедельники") 7 1 silent_world 0) _ _ _).
  - vm_compute; reflexivity.
  - reflexivity.
  - vm_compute; reflexivity.
Defined.

(** X25: a message of a chat without tracked domains whose heuristic score
    is above 0.6 is sent to the language model; when its heuristic score or
    the toxicity the model reports is at least 0.9, the handler tries to
    delete the message and does nothing else, whatever risk level the model
    reports and whether the deletion succeeds or not. *)
Theorem high_score_deletes_message (self : MessageHandler1)
    (user_text : str) (chat user : Z)
    (h : forall X : Type, nat -> event X -> X) (n : nat) :
  starts_with (U "/") user_text = false ->
  domains_of (context_tracker (analyzer self)) chat = ∅ ->
  cfg (analyzer self) = ANALYSIS_CONFIG ->
  F64.ltb (F64.dec 6 10) (Heuristic.analyze user_text) = true ->
  let llm := h _ n (analyze_toxicity user_text) in
  F64.leb (F64.dec 9 10) (Heuristic.analyze user_text) = true \/
  F64.leb (F64.dec 9 10) (default F64.zero (toxicity_score llm)) = true ->
  run h n (handle_message self
             (mk_update (Some user_text) (Some chat) (Some user)))
  = (Returned,
     [Step (analyze_toxicity user_text) llm; Step delete (h _ (S n) delete)]).
Proof.
  intros Hcmd Hdom Hcfg Hhigh llm Hnine.
  unfold handle_message. cbn [text chat_id user_id]. rewrite Hcmd.
  unfold MultiLevel.analyze, _perform_deep_analysis.
  cbn [_check_rkn_violations].
  rewrite (no_domain_no_violation _ _ _ Hdom), Hcfg.
  cbn [fast_check_threshold deep_analysis_threshold critical_threshold
       ANALYSIS_CONFIG].
  destruct (score_facts user_text) as (Hnan & _ & H3). cbv zeta in H3.
  rewrite (H3 Hhigh), Hhigh.
  cbn [lift bind run final_score]. fold llm.
  now rewrite (leb_pymax _ _ _ Hnan Hnine).
Qed.

Definition alarmed_world (X : Type) (n : nat) (e : event X) : X :=
  match e with
  | analyze_toxicity _ => mk_llm (Some (F64.dec 95 100)) (Some (U "low"))
  | delete => Failed
  | reply_text _ => Done
  | sleep _ => tt
  | delete_reply => Done
  end.

Definition long_threat : str :=
  U "убить уничтожить смерть ненавижу взорвать стрелять война".

Lemma high_score_deletes_message_witness :
  run alarmed_world 0
      (handle_message handler_of_new_bot
         (mk_update (Some long_threat) (Some 7%Z) (Some 1%Z)))
  = (Returned,
     [Step (analyze_toxicity long_threat)
           (mk_llm (Some (F64.dec 95 100)) (Some (U "low")));
      Step delete Failed]).
Proof.
  refine (high_score_deletes_message handler_of_new_bot long_threat 7 1
            alarmed_world 0 _ _ _ _ _).
  - vm_compute; reflexivity.
  - reflexivity.
  - reflexivity.
  - vm_compute; reflexivity.
  - right. vm_compute; reflexivity.
Defined.

End MessageHandling.

(* ===================================================================== *)
(** * Properties of the moderation bot *)
(* ===================================================================== *)

Section Pipeline.
Import Py Act Bot.
Import LeafFacts ActFacts BotFacts StrikeFacts StorageViews WindowFacts
  CorrectorFacts.

Implicit Types h : forall X : Type, nat -> event X -> X.

(** X26: a message of a banned user, and a message that the spam detector
    reports, is only answered: the first event is the reply with the ban
    notice (for a banned user, with the stored reason) or with the spam
    notice; when this reply fails the error notice is tried, and its
    failure is the only way [process_message] raises.  The language model
    is not asked, nothing is stored and the bot is left as it was. *)
Theorem refused_message_is_only_answered (self : ModerationBot) (m : Message)
    (u : User) (message_text : str) (q : option CallbackQuery) h (n : nat) :
  text m = Some message_text ->
  message_text <> [] ->
  from_user m = Some u ->
  let verdict :=
    snd (Spam.check_spam (spam_detector self) message_text (Some (id u))) in
  let first :=
    if Storage.is_banned (storage self) (id u)
    then BanNotice (Storage.get_ban_reason (storage self) (id u))
    else SpamNotice (Spam.similarity_score verdict) in
  Storage.is_banned (storage self) (id u) || Spam.is_spam verdict = true ->
  run h n (process_message self (mk_update (Some m) q))
  = match h _ n (reply_text first) with
    | Done => ((self, Returned), [Step (reply_text first) Done])
    | Failed =>
      ((self,
        match h _ (S n) (reply_text ProcessingError) with
        | Done => Returned
        | Failed => Raised
        end),
       [Step (reply_text first) Failed;
        Step (reply_text ProcessingError) (h _ (S n) (reply_text ProcessingError))])
    end.
Proof.
  intros Ht Hne Hu verdict first Href.
  now apply refused_run.
Qed.

Definition spammer : User := mk_user 42 None (U "Аноним").

Definition offer : str := U "Продам гараж".

Definition brawler : User := mk_user 43 (Some (U "brawler")) (U "Иван").

Definition message_of (u : User) (t : str) (mid : Z) : Message :=
  mk_message (Some t) (Some u) 7 mid.

(** A bot whose window holds one message. *)
Definition bot_after_offer : ModerationBot :=
  mk_bot (Moderator.mk_agent [] []) Corrector.new
         (Spam.add_message
            (Spam.init Spam.MESSAGE_HISTORY_SIZE Spam.SPAM_SIMILARITY_THRESHOLD)
            offer (Some 42%Z))
         Storage.init 3.

(** A world where every call succeeds and the model has nothing to say. *)
Definition calm (X : Type) (n : nat) (e : event X) : X :=
  match e with
  | generate_moderator _ => Moderator.Null
  | generate_spellchecker _ => Spellchecker.Null
  | reply_text _ => Done
  | delete => Done
  | send_message _ _ _ => Done
  | get_chat_member _ _ => Some (U "member")
  | answer_query => Done
  | edit_message_text _ => Done
  | now_isoformat => U "2024-01-01T10:00:00"
  | save _ => Storage.Written
  end.

Lemma refused_message_is_only_answered_witness :
  fst (run calm 0 (process_message bot_after_offer
                     (mk_update (Some (message_of spammer offer 2)) None)))
  = (bot_after_offer, Returned).
Proof.
  rewrite (refused_message_is_only_answered bot_after_offer
             (message_of spammer offer 2) spammer offer None calm 0).
  - reflexivity.
  - reflexivity.
  - discriminate.
  - reflexivity.
  - vm_compute; reflexivity.
Defined.




(** X28: when the files are written, a message that the moderator puts in
    [CATEGORY_A] adds exactly one violation to the count of its author, and
    the author is banned exactly when the new count, which includes the
    violations of [CATEGORY_B], reaches [MAX_VIOLATIONS_FOR_BAN]; this
    holds whether Telegram deletes the message and delivers the warning or
    not. *)
Theorem serious_violation_counts_towards_ban (self : ModerationBot)
    (m : Message) (u : User) (message_text : str)
    (q : option CallbackQuery) h (n : nat) :
  text m = Some message_text ->
  message_text <> [] ->
  from_user m = Some u ->
  Storage.is_banned (storage self) (id u) = false ->
  Spam.is_spam
    (snd (Spam.check_spam (spam_detector self) message_text (Some (id u))))
  = false ->
  (forall i f, h _ i (save f) = Storage.Written) ->
  Moderator.category
    (fst (Eff.run (fun i request => h _ i (generate_moderator request)) n
                  (Moderator.analyze_message (moderator self) message_text None)))
  = Moderator.CATEGORY_A ->
  let self' := fst (fst (run h n (process_message self (mk_update (Some m) q)))) in
  let count := Storage.get_violation_count (storage self) (id u) in
  Storage.get_violation_count (storage self') (id u) = count + 1 /\
  Storage.is_banned (storage self') (id u)
  = (max_violations self <=? Z.of_nat (count + 1))%Z.
Proof.
  intros Ht Hne Hu Hban Hspam Hw Hcat self' count.
  assert (Hworld : forall X i e, written X e (h X i e)).
  { intros X i e. destruct e; cbn [written]; try exact I. apply Hw. }
  subst self'. unfold process_message. cbn [message]. rewrite Ht, Hu.
  destruct message_text as [|c s]; [now contradiction Hne|].
  rewrite Hban, Hspam, act_run_bind, run_lift.
  destruct (Eff.run _ n _) as [analysis tr0]. cbn [fst] in Hcat.
  pose proof (leaves_run written _ _ h Hworld
                (after_analysis_struck self m u (c :: s) analysis Hcat)
                (n + List.length
                       (map (fun qr => Step (generate_moderator (fst qr)) (snd qr))
                            tr0))) as H.
  destruct (run h _ (after_analysis self m u (c :: s) analysis)) as [res tr2].
  cbn [fst] in *. destruct H as [Hc Hb]. split; [exact Hc|].
  rewrite Hb, Hban. now rewrite orb_false_r.
Qed.

(** A world where the model is down and everything else works. *)
Definition offline (X : Type) (n : nat) (e : event X) : X :=
  match e with
  | generate_moderator _ => Moderator.Raises
  | generate_spellchecker _ => Spellchecker.Raises (U "timeout")
  | reply_text _ => Done
  | delete => Failed
  | send_message _ _ _ => Failed
  | get_chat_member _ _ => Some (U "administrator")
  | answer_query => Done
  | edit_message_text _ => Done
  | now_isoformat => U "2024-01-01T10:00:00"
  | save _ => Storage.Written
  end.

Definition threat : str := U "я тебя убью".

Lemma serious_violation_counts_towards_ban_witness :
  Storage.get_violation_count
    (storage (fst (fst (run offline 0
                          (process_message (Bot.new None)
                             (mk_update (Some (message_of brawler threat 5))
                                        None))))))
    43 = 1.
Proof.
  refine (proj1 (serious_violation_counts_towards_ban (Bot.new None)
                   (message_of brawler threat 5) brawler threat None offline 0
                   _ _ _ _ _ _ _)).
  - reflexivity.
  - discriminate.
  - reflexivity.
  - reflexivity.
  - vm_compute; reflexivity.
  - reflexivity.
  - vm_compute; reflexivity.
Defined.

End Pipeline.

Section Commands.
Import Py Act Bot.
Import LeafFacts ActFacts BotFacts StorageViews CommandFacts CorrectorFacts.

Implicit Types h : forall X : Type, nat -> event X -> X.

(** X29: [/unban] changes nothing unless [is_admin] confirms the sender
    as administrator or creator of the chat: when [is_admin] returns
    [False], also because Telegram did not answer, the bot is left as it
    was whatever the arguments are.  For a confirmed sender and a banned
    target, when the files are written, the storage is the one that
    [unban_user] followed by [clear_violations] gives: the target is not
    banned and has no violation, whether the confirmation is delivered or
    not. *)
Theorem unban_needs_an_administrator (int : str -> option Z)
    (self : ModerationBot) (update : Update) (args : list str) h (n : nat) :
  let admin := fst (run h n (is_admin update)) in
  let self' := fst (fst (run h n (unban_command int self update args))) in
  (admin = false -> self' = self) /\
  (forall arg rest target,
     admin = true ->
     args = arg :: rest ->
     int arg = Some target ->
     Storage.is_banned (storage self) target = true ->
     (forall i f, h _ i (save f) = Storage.Written) ->
     storage self'
     = Storage.clear_violations
         (Storage.unban_user (storage self) Storage.Written target)
         Storage.Written target /\
     Storage.is_banned (storage self') target = false /\
     Storage.get_violation_count (storage self') target = 0).
Proof.
  cbv zeta. unfold unban_command.
  destruct (message update) as [m|] eqn:Em.
  2:{ unfold is_admin. rewrite Em. cbn [run fst]. split; [reflexivity|].
      intros; discriminate. }
  rewrite act_run_bind.
  destruct (run h n (is_admin update)) as [admin tr]. cbn [fst].
  split.
  - intros ->. cbn [negb].
    pose proof (leaves_run any _ _ h (fun _ _ _ => I)
                  (say_leaves any self AdminsOnly) (n + List.length tr)) as H.
    now destruct (run h _ (say self AdminsOnly)).
  - intros arg rest target -> -> Hint Hban Hw.
    rewrite Hint, Hban. cbn [negb].
    assert (Hworld : forall X i e, written X e (h X i e)).
    { intros X i e. destruct e; cbn [written]; try exact I. apply Hw. }
    match goal with
    | |- context [run h ?i (bind ?p ?f)] =>
      pose proof (leaves_run written _ _ h Hworld
                    (restore_leaves (storage self) target _
                       (fun s' =>
                          match from_user m as o
                          return leaves written
                                   (fun res => storage (fst res) = s')
                                   match o with
                                   | None => report_unban_error (with_storage self s')
                                   | Some _ =>
                                     say (with_storage self s')
                                         (Unbanned target
                                            (Storage.get_ban_reason (storage self) target))
                                   end
                          with
                          | None =>
                            leaves_impl _ _ _ _
                              (fun res (E : fst res = with_storage self s') =>
                                 f_equal storage E)
                              (report_unban_error_leaves written _)
                          | Some _ =>
                            leaves_impl _ _ _ _
                              (fun res (E : fst res = with_storage self s') =>
                                 f_equal storage E)
                              (say_leaves written _ _)
                          end)) i) as H
    end.
    destruct (run h _ _) as [res tr2]. cbn [fst] in *.
    split; [exact H|]. rewrite H. split.
    + unfold Storage.is_banned.
      rewrite (proj2 (clear_written _ target)).
      apply unban_written.
    + apply clear_written.
Qed.

Definition unban_update : Update :=
  mk_update (Some (message_of brawler (U "/unban 42") 9)) None.

Definition banned_spammer : ModerationBot :=
  with_storage (Bot.new None)
    (Storage.ban_user Storage.init (U "2024-01-01T10:00:00") Storage.Written 42
                      (U "лимит")).

Lemma unban_needs_an_administrator_witness :
  fst (fst (run calm 0
              (unban_command (fun _ => Some 42%Z) banned_spammer unban_update
                             [U "42"])))
  = banned_spammer /\
  Storage.is_banned
    (storage
       (fst (fst (run offline 0
                    (unban_command (fun _ => Some 42%Z) banned_spammer
                                   unban_update [U "42"])))))
    42 = false.
Proof.
  split.
  - refine (proj1 (unban_needs_an_administrator (fun _ => Some 42%Z)
                     banned_spammer unban_update [U "42"] calm 0) _).
    vm_compute; reflexivity.
  - refine (proj1 (proj2 (proj2 (unban_needs_an_administrator
                                   (fun _ => Some 42%Z) banned_spammer
                                   unban_update [U "42"] offline 0)
                                (U "42") [] 42%Z _ _ _ _ _))).
    + vm_compute; reflexivity.
    + reflexivity.
    + reflexivity.
    + vm_compute; reflexivity.
    + reflexivity.
Defined.

(** X30: the correction button of a bot whose corrector is the agent
    that [CorrectorAgent()] builds never shows a corrected text: whatever
    the data of the button, the stored messages and the answers of
    Telegram are, no edit of the message carries the template of a
    correction. *)
Theorem correction_button_never_corrects (int : str -> option Z)
    (self : ModerationBot) (update : Update) h (n : nat) :
  corrector self = Corrector.new ->
  forallb (step_is shows_no_correction)
          (snd (run h n (handle_correct_callback int self update))) = true.
Proof.
  intros Hc. apply only_run. unfold handle_correct_callback.
  destruct (callback_query update) as [query|]; [|exact I].
  cbn [only]. split; [reflexivity|].
  intros []; [|apply report_correction_error_quiet].
  destruct (data query) as [d|]; [|apply report_correction_error_quiet].
  cbv zeta.
  destruct (List.length (split_char 95%N d) <? 3); [exact I|].
  destruct (int _) as [user_id|]; [|apply report_correction_error_quiet].
  destruct (Storage.get_user_messages (storage self) user_id 1) as [|m0 ms];
    [now apply edit_quiet|].
  rewrite Hc, bare_adapter_fails. now apply edit_quiet.
Qed.

Definition correct_button : Update :=
  mk_update None (Some (mk_query (Some (U "correct_7_42")))).

Definition bot_with_message : ModerationBot :=
  with_storage (Bot.new None)
    (Storage.add_message Storage.init (U "2024-01-01T10:00:00") Storage.Written
                         42 5 (U "ты дурак") (Some 7%Z)).

Lemma correction_button_never_corrects_witness :
  forallb (step_is shows_no_correction)
          (snd (run calm 0
                  (handle_correct_callback (fun _ => Some 42%Z)
                                           bot_with_message correct_button)))
  = true.
Proof.
  apply (correction_button_never_corrects (fun _ => Some 42%Z) bot_with_message
           correct_button calm 0).
  reflexivity.
Defined.

End Commands.
